(** * raspi-directhw: firmware mailbox and SPI slave (PCM) core

    A shallow embedding of [mailbox.h] and [spisl.h] (with the parts of
    [hw.h] they use: [gpio_configure], [st_elapsed], [st_delay], the PCM, CM
    and ST register layouts) and of the clock divider of [spi_init] of
    [spi.h], and the properties of the mailbox transport, the
    property-message buffer, the GPIO and timer helpers, the PCM byte
    operations and the byte synchronizer.

    The code talks to memory-mapped hardware through [volatile] registers
    and blocks in busy-wait loops.  The hardware is a state machine the
    program can only read and write ([hw]); a program is a function from the
    hardware state to a result, the new hardware state and the sequence of
    register accesses and barriers it performed ([M]).  Every loop of the
    source takes a bound on its number of iterations; running out of it is
    [None], the only way a program of this file has no result. *)

From Stdlib Require Import ZArith List Lia Bool Arith.
Import ListNotations.
Open Scope Z_scope.
Set Warnings "-register-all".

(* ================================================================== *)
(** * Machine integers *)

(** [uint32_t] and [uint8_t] values are [Z] reduced modulo the width. *)
Definition wrap32 (z : Z) : Z := z mod 2 ^ 32.
Definition wrap8 (z : Z) : Z := z mod 2 ^ 8.

(** A bit-field of [width] bits whose least significant bit is bit [pos] of
    its 32-bit storage unit (GCC on little-endian ARM allocates the fields
    of a unit from bit 0 upwards, in declaration order). *)
Definition field_mask (width : Z) : Z := 2 ^ width - 1.

Definition field_get (pos width w : Z) : Z :=
  Z.land (Z.shiftr w pos) (field_mask width).

Definition field_set (pos width v w : Z) : Z :=
  Z.lor (Z.land w (Z.lnot (Z.shiftl (field_mask width) pos)))
        (Z.shiftl (Z.land v (field_mask width)) pos).

(** [l] with its [i]-th element replaced by [v] (an array store; the code
    only stores inside its arrays). *)
Fixpoint set_nth {A : Type} (i : nat) (v : A) (l : list A) : list A :=
  match l, i with
  | [], _ => []
  | _ :: l', O => v :: l'
  | x :: l', S i' => x :: set_nth i' v l'
  end.

(* ================================================================== *)
(** * Registers, events and the hardware *)

(** The registers the two subsystems touch.  [hw.h] as shipped declares
    neither [HW.MBOX0] nor [HW.MBOX1]: the four mailbox locations that
    [mailbox.h] names are taken as they are named there. *)
Inductive reg : Type :=
| MBOX0_DATA | MBOX0_STATUS_FULL | MBOX0_STATUS_EMPTY | MBOX1_DATA
| PCM_CS | PCM_FIFO | PCM_MODE | PCM_RXC | PCM_TXC
| PCM_INTEN | PCM_INTSTC | PCM_GRAY
| CM_CTL (n : Z) | CM_DIV (n : Z)
| GPIO_FSEL (n : Z)
| ST_CLO.

Definition reg_eq_dec (a b : reg) : {a = b} + {a <> b}.
Proof. decide equality; apply Z.eq_dec. Defined.

Definition reg_eqb (a b : reg) : bool :=
  if reg_eq_dec a b then true else false.

(** What a program does that the outside can see: register reads (with the
    value read), register writes, memory barriers, and the contents of a
    property buffer at the moment its address is handed to the mailbox. *)
Inductive event : Type :=
| EvRead (r : reg) (v : Z)
| EvWrite (r : reg) (v : Z)
| EvBarrier
| EvSubmit (buf : list Z).

Definition trace := list event.

(** The hardware: a state of type [D], the value a read of a register
    returns (and the state after it: reading a FIFO pops it), and the state
    after a write. *)
Record hw (D : Type) : Type := {
  hw_read : reg -> D -> Z * D;
  hw_write : reg -> Z -> D -> D
}.
Arguments hw_read {D} _ _ _.
Arguments hw_write {D} _ _ _ _.

(** Programs. *)
Definition M (D A : Type) : Type := D -> option (A * D * trace).

Definition ret {D A : Type} (a : A) : M D A := fun d => Some (a, d, []).

Definition bind {D A B : Type} (m : M D A) (k : A -> M D B) : M D B :=
  fun d =>
    match m d with
    | None => None
    | Some (a, d1, t1) =>
        match k a d1 with
        | None => None
        | Some (b, d2, t2) => Some (b, d2, t1 ++ t2)
        end
    end.

Notation "x <- m ;; k" := (bind m (fun x => k))
  (at level 61, m at next level, right associativity).
Notation "m ;; k" := (bind m (fun _ => k))
  (at level 61, right associativity).

(** A loop: [body] either continues with a new loop state or leaves with a
    result; at most [fuel] iterations. *)
Fixpoint iter {D S R : Type} (fuel : nat) (body : S -> M D (S + R)) (s : S)
  : M D R :=
  match fuel with
  | O => fun _ => None
  | Datatypes.S n =>
      r <- body s ;;
      match r with
      | inl s' => iter n body s'
      | inr x => ret x
      end
  end.

(** [while (cond);]: poll until the condition is false. *)
Definition spin {D : Type} (fuel : nat) (cond : M D bool) : M D unit :=
  iter fuel (fun _ : unit => b <- cond ;; ret (if b then inl tt else inr tt)) tt.

(** Projections of a trace. *)
Definition reads_of (r : reg) (t : trace) : list Z :=
  flat_map (fun e => match e with
                     | EvRead r' v => if reg_eqb r r' then [v] else []
                     | _ => []
                     end) t.

Definition writes_of (r : reg) (t : trace) : list Z :=
  flat_map (fun e => match e with
                     | EvWrite r' v => if reg_eqb r r' then [v] else []
                     | _ => []
                     end) t.

Definition is_barrier (e : event) : bool :=
  match e with EvBarrier => true | _ => false end.

(** The register accesses of a trace: everything but the barriers. *)
Definition accesses (t : trace) : trace :=
  filter (fun e => negb (is_barrier e)) t.

Definition barriers (t : trace) : nat :=
  length (filter is_barrier t).

(** A trace with every run of adjacent barriers reduced to one barrier. *)
Fixpoint collapse (t : trace) : trace :=
  match t with
  | [] => []
  | EvBarrier :: t' =>
      match t' with
      | EvBarrier :: _ => collapse t'
      | _ => EvBarrier :: collapse t'
      end
  | e :: t' => e :: collapse t'
  end.

Definition submitted (t : trace) : list (list Z) :=
  flat_map (fun e => match e with EvSubmit b => [b] | _ => [] end) t.

Section Primitives.
Context {D : Type} (h : hw D).

(** A read of a 32-bit [volatile] register. *)
Definition rd (r : reg) : M D Z :=
  fun d => let (v, d') := hw_read h r d in
           Some (wrap32 v, d', [EvRead r (wrap32 v)]).

(** A write of a 32-bit [volatile] register. *)
Definition wr (r : reg) (v : Z) : M D unit :=
  fun d => Some (tt, hw_write h r (wrap32 v) d, [EvWrite r (wrap32 v)]).

(** [memory_barrier()] (the ARM variant of the macro). *)
Definition memory_barrier : M D unit :=
  fun d => Some (tt, d, [EvBarrier]).

Definition submit (buf : list Z) : M D unit :=
  fun d => Some (tt, d, [EvSubmit buf]).

(** Reading a bit-field reads its register; storing one is a
    read-modify-write of the register.  A bit-field is given by the
    position of its lowest bit and its width. *)
Definition rd_field (r : reg) (f : Z * Z) : M D Z :=
  w <- rd r ;; ret (field_get (fst f) (snd f) w).

Definition wr_field (r : reg) (f : Z * Z) (v : Z) : M D unit :=
  w <- rd r ;; wr r (field_set (fst f) (snd f) v w).

(** A value read in a condition: true when nonzero. *)
Definition nonzero (m : M D Z) : M D bool :=
  v <- m ;; ret (negb (v =? 0)).

Definition is_zero (m : M D Z) : M D bool :=
  v <- m ;; ret (v =? 0).
End Primitives.

(* ================================================================== *)
(** * hw.h: register layouts, GPIO and the system timer *)

(** A register value given field by field (a designated initializer: the
    fields not named are zero). *)
Definition mk_reg (fields : list ((Z * Z) * Z)) : Z :=
  fold_left (fun w fv => field_set (fst (fst fv)) (snd (fst fv)) (snd fv) w)
            fields 0.

Module PCM_CS_reg.
Definition EN := (0, 1).
Definition RXON := (1, 1).
Definition TXON := (2, 1).
Definition TXCLR := (3, 1).
Definition RXCLR := (4, 1).
Definition TXTHR := (5, 2).
Definition RXTHR := (7, 2).
Definition DMAEN := (9, 1).
Definition TXSYNC := (13, 1).
Definition RXSYNC := (14, 1).
Definition TXERR := (15, 1).
Definition RXERR := (16, 1).
Definition TXW := (17, 1).
Definition RXR := (18, 1).
Definition TXD := (19, 1).
Definition RXD := (20, 1).
Definition TXE := (21, 1).
Definition RXF := (22, 1).
Definition RXSEX := (23, 1).
Definition SYNC := (24, 1).
Definition STBY := (25, 1).
End PCM_CS_reg.

Module PCM_MODE_reg.
Definition FSLEN := (0, 10).
Definition FLEN := (10, 10).
Definition FSI := (20, 1).
Definition FSM := (21, 1).
Definition CLKI := (22, 1).
Definition CLKM := (23, 1).
Definition FTXP := (24, 1).
Definition FRXP := (25, 1).
Definition PDME := (26, 1).
Definition PDMN := (27, 1).
Definition CLK_DIS := (28, 1).
End PCM_MODE_reg.

(** [raspi_PCM_RXC_reg] and [raspi_PCM_TXC_reg] have the same layout. *)
Module PCM_XC_reg.
Definition CH2WID := (0, 4).
Definition CH2POS := (4, 10).
Definition CH2EN := (14, 1).
Definition CH2WEX := (15, 1).
Definition CH1WID := (16, 4).
Definition CH1POS := (20, 10).
Definition CH1EN := (30, 1).
Definition CH1WEX := (31, 1).
End PCM_XC_reg.

Module CM_CTL_reg.
Definition SRC := (0, 4).
Definition ENAB := (4, 1).
Definition KILL := (5, 1).
Definition BUSY := (7, 1).
Definition FLIP := (8, 1).
Definition MASH := (9, 2).
Definition PASSWD := (24, 8).
End CM_CTL_reg.

Module CM_DIV_reg.
Definition DIVF := (0, 12).
Definition DIVI := (12, 12).
Definition PASSWD := (24, 8).
End CM_DIV_reg.

Definition CM_OSC : Z := 1.
Definition CM_PCM : Z := 19.
Definition CM_PASSWD : Z := 0x5a.

(** [raspi_GPIO_function]. *)
Definition Input : Z := 0.
Definition Output : Z := 1.
Definition Alt0 : Z := 4.
Definition Alt1 : Z := 5.
Definition Alt2 : Z := 6.
Definition Alt3 : Z := 7.
Definition Alt4 : Z := 3.
Definition Alt5 : Z := 2.

Definition ST_1s : Z := 1000000.
Definition ST_1ms : Z := ST_1s / 1000.
Definition ST_1us : Z := ST_1s / 1000000.

(** [st_elapsed]: the difference is taken in [uint32_t], so it is right
    across a wrap of the counter. *)
Definition st_elapsed (before after diff : Z) : bool :=
  diff <=? wrap32 (after - before).

Section HwHelpers.
Context {D : Type} (h : hw D).

(** [HW.GPIO.FSEL] has six registers, for the pins 0 to 59. *)
Definition gpio_configure (gpio function : Z) : M D unit :=
  w <- rd h (GPIO_FSEL (Z.quot gpio 10)) ;;
  let tmp := Z.land w (Z.lnot (Z.shiftl 7 (Z.rem gpio 10 * 3))) in
  wr h (GPIO_FSEL (Z.quot gpio 10))
     (Z.lor tmp (Z.shiftl (Z.land function 7) (Z.rem gpio 10 * 3))).

Definition st_delay (fuel : nat) (delay : Z) : M D unit :=
  start <- rd h ST_CLO ;;
  spin fuel (now <- rd h ST_CLO ;; ret (negb (st_elapsed start now delay))).
End HwHelpers.

(* ================================================================== *)
(** * mailbox.h *)

Definition PROP_REQUEST : Z := 0.
Definition PROP_RESPONSE_SUCCESS : Z := 0x80000000.

Definition MBOX_TAG_GET_FIRMWARE : Z := 0x00000001.
Definition MBOX_TAG_GET_CLOCK_STATE : Z := 0x00030001.
Definition MBOX_TAG_GET_CLOCK_RATE : Z := 0x00030002.
Definition MBOX_TAG_GET_CLOCK_RATE_MEASURED : Z := 0x00030047.
Definition MBOX_TAG_SET_CLOCK_STATE : Z := 0x00038001.
Definition MBOX_TAG_SET_CLOCK_RATE : Z := 0x00038002.

(** The clocks settable via the property interface, and their numbers. *)
Inductive mbox_property_clock_t : Type :=
| MBOX_CLOCK_reserved
| MBOX_CLOCK_EMMC
| MBOX_CLOCK_UART
| MBOX_CLOCK_ARM
| MBOX_CLOCK_CORE
| MBOX_CLOCK_V3D
| MBOX_CLOCK_H264
| MBOX_CLOCK_ISP
| MBOX_CLOCK_SDRAM
| MBOX_CLOCK_PIXEL
| MBOX_CLOCK_PWM
| MBOX_CLOCK_HEVC
| MBOX_CLOCK_EMMC2
| MBOX_CLOCK_M2MC
| MBOX_CLOCK_PIXEL_BVB.

Definition clock_id (c : mbox_property_clock_t) : Z :=
  match c with
  | MBOX_CLOCK_reserved => 0
  | MBOX_CLOCK_EMMC => 1
  | MBOX_CLOCK_UART => 2
  | MBOX_CLOCK_ARM => 3
  | MBOX_CLOCK_CORE => 4
  | MBOX_CLOCK_V3D => 5
  | MBOX_CLOCK_H264 => 6
  | MBOX_CLOCK_ISP => 7
  | MBOX_CLOCK_SDRAM => 8
  | MBOX_CLOCK_PIXEL => 9
  | MBOX_CLOCK_PWM => 10
  | MBOX_CLOCK_HEVC => 11
  | MBOX_CLOCK_EMMC2 => 12
  | MBOX_CLOCK_M2MC => 13
  | MBOX_CLOCK_PIXEL_BVB => 14
  end.

(** ** Layout of the property structure

    [sizeof] as the compiler computes it: members are placed in order, each
    at the next multiple of its alignment, and the size of a struct is
    rounded up to a multiple of the struct's alignment, which is the largest
    alignment among its members.  [__attribute__((aligned(a)))] on a typedef
    sets the alignment of the type it names and leaves its size. *)
Inductive ctype : Type :=
| TUInt32
| TArray (elem : ctype) (n : Z)
| TStruct (members : list ctype)
| TAligned (t : ctype) (a : Z).

Definition round_up (x a : Z) : Z := (x + a - 1) / a * a.

Fixpoint alignof (t : ctype) : Z :=
  match t with
  | TUInt32 => 4
  | TArray e _ => alignof e
  | TStruct ms => fold_left (fun a m => Z.max a (alignof m)) ms 1
  | TAligned _ a => a
  end.

Fixpoint sizeof (t : ctype) : Z :=
  match t with
  | TUInt32 => 4
  | TArray e n => sizeof e * n
  | TStruct ms =>
      round_up
        (fold_left (fun off m => round_up off (alignof m) + sizeof m) ms 0)
        (fold_left (fun a m => Z.max a (alignof m)) ms 1)
  | TAligned t' _ => sizeof t'
  end.

(** [mbox_property_header_t]: two words, declared [aligned(16)]. *)
Definition mbox_property_header_t : ctype :=
  TAligned (TStruct [TUInt32; TUInt32]) 16.

(** [mbox_tag_header_t]: [tag], [buffer_size], and one 32-bit unit shared by
    [response_length:31] and [has_response:1]. *)
Definition mbox_tag_header_t : ctype := TStruct [TUInt32; TUInt32; TUInt32].

(** [mbox_property_struct(size)]. *)
Definition mbox_property_struct (size : nat) : ctype :=
  TStruct [mbox_property_header_t; mbox_tag_header_t;
           TArray TUInt32 (Z.of_nat size); TUInt32].

(** ** The property structure in memory

    The structure as the words of its members, in order: word 0
    [header.buffer_size], word 1 [header.code], word 2 [tag.tag], word 3
    [tag.buffer_size], word 4 [response_length] (bits 0 to 30) and
    [has_response] (bit 31), words 5 to 4 + size [data], word 5 + size
    [end]. *)
Definition W_BUFFER_SIZE : nat := 0.
Definition W_CODE : nat := 1.
Definition W_TAG : nat := 2.
Definition W_TAG_BUFFER_SIZE : nat := 3.
Definition W_TAG_RESPONSE : nat := 4.
Definition W_DATA (i : nat) : nat := 5 + i.
Definition W_END (size : nat) : nat := 5 + size.

Definition response_length : Z * Z := (0, 31).
Definition has_response : Z * Z := (31, 1).

(** A local [mbox_property_struct(size) mbox;] before anything is stored in
    it: whatever the stack holds. *)
Definition uninit (size : nat) (junk : nat -> Z) : list Z :=
  map (fun i => wrap32 (junk i)) (seq 0 (6 + size)).

Definition set_word (i : nat) (v : Z) (mbox : list Z) : list Z :=
  set_nth i (wrap32 v) mbox.

Definition word (i : nat) (mbox : list Z) : Z := nth i mbox 0.

(** The number of bytes the members of the structure take on the wire: an
    8-byte header, the tag header, the value words and the 4-byte
    terminator. *)
Definition serialized_length (size : nat) : Z :=
  8 + 12 + 4 * Z.of_nat size + 4.

(** The seven stores of [mbox_property_call] before the call. *)
Definition mbox_property_fill (size : nat) (tagid : Z) (mbox : list Z)
  : list Z :=
  let mbox := set_word W_BUFFER_SIZE (sizeof (mbox_property_struct size)) mbox in
  let mbox := set_word W_CODE PROP_REQUEST mbox in
  let mbox := set_word W_TAG tagid mbox in
  let mbox := set_word W_TAG_BUFFER_SIZE
                (sizeof (TArray TUInt32 (Z.of_nat size))) mbox in
  let mbox := set_word W_TAG_RESPONSE
                (field_set (fst response_length) (snd response_length)
                   (sizeof (TArray TUInt32 (Z.of_nat size)))
                   (word W_TAG_RESPONSE mbox)) mbox in
  let mbox := set_word W_TAG_RESPONSE
                (field_set (fst has_response) (snd has_response) 0
                   (word W_TAG_RESPONSE mbox)) mbox in
  set_word (W_END size) 0 mbox.

(** The buffer of a property call is a plain local structure: it is not
    [volatile], nothing of it but its address, cast to an integer, leaves
    the function, and [memory_barrier()] is an [asm volatile] without a
    memory clobber (or empty).  The language therefore leaves it to the
    build whether the stores to the structure are in memory when the
    address is pushed, and whether the loads after the call read memory
    again:
    - [InMemory]: every store is in memory before the push and every load
      after the call reads what the firmware left there (an unoptimized
      build);
    - [Forwarded]: the stores are in memory, but a load gives the value the
      program stored itself;
    - [InRegisters]: the structure is kept in registers; no store reaches
      memory and no load reads it (what an optimizer may do with a local
      it sees no other party use).
    A load that reads memory again where the stores never went is not
    among them: it would change the program's own view of its variable. *)
Inductive build : Type := InMemory | Forwarded | InRegisters.

Definition flushes (cc : build) : bool :=
  match cc with InRegisters => false | _ => true end.

Definition reloads (cc : build) : bool :=
  match cc with InMemory => true | _ => false end.

(** A local buffer: its words as the program has them, and the words in
    memory at its address, which are what the firmware sees. *)
Record local : Type := { held : list Z; stack : list Z }.

(** [mbox_property_struct(size) mbox;]: nothing stored yet, the program
    and the memory have whatever the stack holds. *)
Definition declare (size : nat) (junk : nat -> Z) : local :=
  {| held := uninit size junk; stack := uninit size junk |}.

Section Mailbox.
Context {D : Type} (h : hw D).

Definition mbox_write (fuel : nat) (chan addr : Z) : M D unit :=
  spin fuel (nonzero (rd h MBOX0_STATUS_FULL)) ;;
  wr h MBOX1_DATA (Z.lor chan addr) ;;
  memory_barrier.

Definition mbox_read (fuel : nat) : M D Z :=
  memory_barrier ;;
  spin fuel (nonzero (rd h MBOX0_STATUS_EMPTY)) ;;
  rd h MBOX0_DATA.

Definition mbox_call (fuel : nat) (chan addr : Z) : M D unit :=
  let wanted := wrap32 (Z.lor chan addr) in
  spin fuel (nonzero (rd h MBOX0_STATUS_FULL)) ;;
  wr h MBOX1_DATA wanted ;;
  iter fuel
    (fun _ : unit =>
       memory_barrier ;;
       spin fuel (nonzero (rd h MBOX0_STATUS_EMPTY)) ;;
       v <- rd h MBOX0_DATA ;;
       ret (if negb (v =? wanted) then inl tt else inr tt))
    tt.

(** The spec's words for [call]: one [push], then [pop] again and again,
    discarding every word that is not the word pushed. *)
Definition mbox_call_spec (fuel : nat) (chan addr : Z) : M D unit :=
  let wanted := wrap32 (Z.lor chan addr) in
  mbox_write fuel chan addr ;;
  iter fuel
    (fun _ : unit =>
       v <- mbox_read fuel ;;
       ret (if negb (v =? wanted) then inl tt else inr tt))
    tt.

(** The channel of the property interface, [MBOX_CH_PROPVC]: an enumerator
    of [raspi_MBOX_CHANNEL_t], which [hw.h] as shipped does not declare. *)
Variable MBOX_CH_PROPVC : Z.

(** The firmware works on the buffer in place while the call is under
    way: [fw d buf i] is word [i] of the buffer when [mbox_call] has
    returned with the hardware in state [d], for the buffer [buf] it
    found at the address pushed. *)
Variable fw : D -> list Z -> nat -> Z.

(** The build the program runs in: what it does with the local buffer. *)
Variable cc : build.

Definition readback (buf : list Z) : M D (list Z) :=
  fun d => Some (map (fun i => wrap32 (fw d buf i)) (seq 0 (length buf)),
                 d, []).

(** [mbox.<member> = v;] *)
Definition store_word (i : nat) (v : Z) (mbox : local) : local :=
  {| held := set_word i v (held mbox);
     stack := if flushes cc then set_word i v (stack mbox) else stack mbox |}.

(** The seven stores of [mbox_property_call] before the call, on the local
    buffer; the two bit-field stores read the word as the program has
    it. *)
Definition mbox_property_stores (size : nat) (tagid : Z) (mbox : local)
  : local :=
  let mbox := store_word W_BUFFER_SIZE (sizeof (mbox_property_struct size))
                mbox in
  let mbox := store_word W_CODE PROP_REQUEST mbox in
  let mbox := store_word W_TAG tagid mbox in
  let mbox := store_word W_TAG_BUFFER_SIZE
                (sizeof (TArray TUInt32 (Z.of_nat size))) mbox in
  let mbox := store_word W_TAG_RESPONSE
                (field_set (fst response_length) (snd response_length)
                   (sizeof (TArray TUInt32 (Z.of_nat size)))
                   (word W_TAG_RESPONSE (held mbox))) mbox in
  let mbox := store_word W_TAG_RESPONSE
                (field_set (fst has_response) (snd has_response) 0
                   (word W_TAG_RESPONSE (held mbox))) mbox in
  store_word (W_END size) 0 mbox.

(** [mbox_property_call(tagid, mbox)] for a [mbox] of
    [mbox_property_struct(size)] at address [addr]: the stores, the call
    with the address, during which the firmware works on the words at the
    address; the result is [mbox] after the call. *)
Definition mbox_property_call (fuel : nat) (size : nat) (addr : Z)
           (tagid : Z) (mbox : local) : M D local :=
  let mbox := mbox_property_stores size tagid mbox in
  submit (stack mbox) ;;
  mbox_call fuel MBOX_CH_PROPVC addr ;;
  mem <- readback (stack mbox) ;;
  ret {| held := if reloads cc then mem else held mbox; stack := mem |}.

Definition mbox_set_clock (fuel : nat) (addr : Z) (junk : nat -> Z)
           (clock : mbox_property_clock_t) (freq : Z) : M D unit :=
  let mbox := declare 3 junk in
  let mbox := store_word (W_DATA 0) (clock_id clock) mbox in
  let mbox := store_word (W_DATA 1) 1 mbox in
  mbox <- mbox_property_call fuel 3 addr MBOX_TAG_SET_CLOCK_STATE mbox ;;
  let mbox := store_word (W_DATA 0) (clock_id clock) mbox in
  let mbox := store_word (W_DATA 1) freq mbox in
  let mbox := store_word (W_DATA 2) 0 mbox in
  mbox_property_call fuel 3 addr MBOX_TAG_SET_CLOCK_RATE mbox ;;
  ret tt.

Definition mbox_get_clock (fuel : nat) (addr : Z) (junk : nat -> Z)
           (clock : mbox_property_clock_t) : M D Z :=
  let mbox := declare 2 junk in
  let mbox := store_word (W_DATA 0) (clock_id clock) mbox in
  let mbox := store_word (W_DATA 1) 0 mbox in
  mbox <- mbox_property_call fuel 2 addr MBOX_TAG_GET_CLOCK_STATE mbox ;;
  if word (W_DATA 1) (held mbox) =? 0 then ret 0
  else
    let mbox := store_word (W_DATA 0) (clock_id clock) mbox in
    let mbox := store_word (W_DATA 1) 0 mbox in
    mbox <- mbox_property_call fuel 2 addr MBOX_TAG_GET_CLOCK_RATE mbox ;;
    ret (word (W_DATA 1) (held mbox)).

Definition mbox_get_clock_measured (fuel : nat) (addr : Z)
           (junk : nat -> Z) (clock : mbox_property_clock_t) : M D Z :=
  let mbox := declare 2 junk in
  let mbox := store_word (W_DATA 0) (clock_id clock) mbox in
  let mbox := store_word (W_DATA 1) 0 mbox in
  mbox <- mbox_property_call fuel 2 addr
            MBOX_TAG_GET_CLOCK_RATE_MEASURED mbox ;;
  ret (word (W_DATA 1) (held mbox)).
End Mailbox.

(* ================================================================== *)
(** * spisl.h *)

Import PCM_CS_reg PCM_MODE_reg.

Definition init_cs : Z :=
  mk_reg [(TXCLR, 1); (RXCLR, 1); (TXERR, 1); (RXERR, 1); (TXON, 1);
          (RXON, 1); (SYNC, 1); (STBY, 1); (EN, 1)].

Definition mode_master : Z :=
  mk_reg [(FLEN, 7); (FSLEN, 7); (CLKM, 0); (CLKI, 0); (FSM, 0); (FSI, 0);
          (CLK_DIS, 1)].

Definition mode_slave : Z :=
  mk_reg [(FLEN, 7); (FSLEN, 7); (CLKM, 1); (CLKI, 0); (FSM, 1); (FSI, 1);
          (CLK_DIS, 1)].

Definition pcm_cm_ctl : Z :=
  mk_reg [(CM_CTL_reg.PASSWD, CM_PASSWD); (CM_CTL_reg.SRC, CM_OSC);
          (CM_CTL_reg.MASH, 1); (CM_CTL_reg.ENAB, 1)].

Definition pcm_cm_div : Z :=
  mk_reg [(CM_DIV_reg.PASSWD, CM_PASSWD); (CM_DIV_reg.DIVI, 250)].

(** The marker byte of the synchronization handshake. *)
Definition marker : Z := 0x81.

Section Spisl.
Context {D : Type} (h : hw D).

(** [while (HW.PCM.CS.B.RXD) (void)HW.PCM.FIFO;] *)
Definition drain_rx (fuel : nat) : M D unit :=
  iter fuel
    (fun _ : unit =>
       b <- nonzero (rd_field h PCM_CS RXD) ;;
       if b then rd h PCM_FIFO ;; ret (inl tt) else ret (inr tt))
    tt.

Definition spisl_init (fuel : nat) : M D unit :=
  (* disable interface for reconfiguration *)
  gpio_configure h 28 Input ;;
  gpio_configure h 29 Input ;;
  gpio_configure h 30 Input ;;
  gpio_configure h 31 Input ;;
  memory_barrier ;;
  (* empty FIFO *)
  drain_rx fuel ;;
  (* disable module to reset all parameters *)
  wr_field h PCM_CS EN 0 ;;
  st_delay h fuel ST_1ms ;;
  (* set desired transmission parameters *)
  wr h PCM_RXC 0 ;;
  wr h PCM_TXC 0 ;;
  wr h PCM_INTEN 0 ;;
  wr h PCM_INTSTC 15 ;;
  wr h PCM_GRAY 0 ;;
  wr_field h PCM_RXC PCM_XC_reg.CH1WEX 0 ;;
  wr_field h PCM_RXC PCM_XC_reg.CH1POS 0 ;;
  wr_field h PCM_RXC PCM_XC_reg.CH1WID 0 ;;
  wr_field h PCM_RXC PCM_XC_reg.CH1EN 1 ;;
  wr_field h PCM_TXC PCM_XC_reg.CH1WEX 0 ;;
  wr_field h PCM_TXC PCM_XC_reg.CH1POS 0 ;;
  wr_field h PCM_TXC PCM_XC_reg.CH1WID 0 ;;
  wr_field h PCM_TXC PCM_XC_reg.CH1EN 1 ;;
  (* execute reset sequence *)
  wr h (CM_DIV CM_PCM) pcm_cm_div ;;
  wr h (CM_CTL CM_PCM) pcm_cm_ctl ;;
  wr h PCM_MODE mode_master ;;
  wr_field h PCM_MODE CLK_DIS 0 ;;
  wr h PCM_CS init_cs ;;
  spin fuel (is_zero (rd_field h PCM_CS SYNC)) ;;
  wr_field h PCM_CS SYNC 0 ;;
  spin fuel (nonzero (rd_field h PCM_CS SYNC)) ;;
  (* configure slave mode and attach external interface *)
  wr_field h PCM_MODE CLK_DIS 1 ;;
  wr h PCM_MODE mode_slave ;;
  memory_barrier ;;
  gpio_configure h 28 Alt2 ;;
  gpio_configure h 29 Alt2 ;;
  gpio_configure h 30 Alt2 ;;
  gpio_configure h 31 Alt2 ;;
  memory_barrier ;;
  wr_field h PCM_MODE CLK_DIS 0 ;;
  memory_barrier.

Definition spisl_poll (num : Z) : M D Z :=
  if num <=? 0 then ret 1 else rd_field h PCM_CS RXD.

Definition spisl_read (fuel : nat) : M D Z :=
  spin fuel (is_zero (rd_field h PCM_CS RXD)) ;;
  v <- rd h PCM_FIFO ;;
  ret (wrap8 v).

Definition spisl_write (fuel : nat) (data : Z) : M D unit :=
  spin fuel (is_zero (rd_field h PCM_CS TXD)) ;;
  wr h PCM_FIFO (wrap8 data) ;;
  drain_rx fuel.

Definition spisl_flush (fuel : nat) : M D unit :=
  spin fuel (is_zero (rd_field h PCM_CS TXE)).

(** One pass through the body of the counting loop of
    [spisl_synchronize], entered with the counter [cnt] as the test
    [cnt++ < 10] has left it and the byte [incoming] to examine: the
    counter and the byte at the end of the pass. *)
Definition sync_body (fuel : nat) (cnt incoming : Z) : M D (Z * Z) :=
  cnt <- (if negb (incoming =? marker) then
            wr_field h PCM_MODE CLK_DIS 1 ;;
            st_delay h fuel ST_1us ;;
            wr_field h PCM_MODE CLK_DIS 0 ;;
            ret 0
          else ret cnt) ;;
  incoming <- spisl_read fuel ;;
  ret (cnt, incoming).

(** [while (cnt++ < 10) { ... }] from the counter [cnt] and the byte
    [incoming]: the counter and the byte when the loop is left. *)
Definition sync_count (fuel : nat) (cnt incoming : Z) : M D (Z * Z) :=
  iter fuel
    (fun s : Z * Z =>
       if fst s <? 10 then
         s' <- sync_body fuel (fst s + 1) (snd s) ;; ret (inl s')
       else ret (inr (fst s + 1, snd s)))
    (cnt, incoming).

(** [while (incoming != marker) incoming = spisl_read();] *)
Definition wait_for (fuel : nat) (sentinel incoming : Z) : M D unit :=
  iter fuel
    (fun incoming : Z =>
       if negb (incoming =? sentinel) then
         b <- spisl_read fuel ;; ret (inl b)
       else ret (inr tt))
    incoming.

Definition spisl_synchronize (fuel : nat) : M D unit :=
  incoming <- spisl_read fuel ;;
  s <- sync_count fuel 0 incoming ;;
  spisl_write fuel marker ;;
  wait_for fuel (wrap8 (Z.lxor marker 0xff)) (snd s).
End Spisl.

(* ================================================================== *)
(** * Scripted hardware

    The hardware of a simulated run: every register has a script, the list
    of the values its next reads return; a read takes the first value off
    the script, and reads 0 once the script is used up.  Writes go
    nowhere (the trace of the program has them). *)

Definition script : Type := reg -> list Z.

Definition scripted : hw script := {|
  hw_read := fun r s =>
    (hd 0 (s r), fun r' => if reg_eqb r r' then tl (s r) else s r');
  hw_write := fun _ _ s => s
|}.

(** A script that has values for the given registers only. *)
Fixpoint script_of (l : list (reg * list Z)) : script :=
  match l with
  | [] => fun _ => []
  | (r, vs) :: l' => fun r' => if reg_eqb r r' then vs else script_of l' r'
  end.

(** The result and the trace of a run, without the hardware state. *)
Definition observe {D A : Type} (o : option (A * D * trace))
  : option (A * trace) :=
  match o with
  | Some (a, _, t) => Some (a, t)
  | None => None
  end.

(** Status words of [PCM.CS] with only the given flags raised. *)
Definition CS_IDLE : Z := 0.
Definition CS_RXD : Z := mk_reg [(RXD, 1)].
Definition CS_TXD : Z := mk_reg [(TXD, 1)].
Definition CS_RXD_TXD : Z := mk_reg [(RXD, 1); (TXD, 1)].
Definition CS_SYNC : Z := mk_reg [(SYNC, 1)].

(* ================================================================== *)
(** * Vocabulary of the statements *)

(** A condition that reads register [r] and tests the value with [p]: the
    shape of every busy-wait condition of the code. *)
Definition poll {D : Type} (h : hw D) (r : reg) (p : Z -> bool) : M D bool :=
  v <- rd h r ;; ret (p v).

(** A program with a bound on its loops is monotone when a larger bound
    does not change a result it has. *)
Definition mono {D A : Type} (f : nat -> M D A) : Prop :=
  forall (n m : nat) (d : D) (r : A * D * trace),
    (n <= m)%nat -> f n d = Some r -> f m d = Some r.

(** The events of a sequence of reads of one register. *)
Definition ev_reads (r : reg) (vs : list Z) : trace := map (EvRead r) vs.

(** The events of a bit-field store, when the register read [w]. *)
Definition ev_wr_field (r : reg) (f : Z * Z) (v w : Z) : trace :=
  [EvRead r w; EvWrite r (wrap32 (field_set (fst f) (snd f) v w))].

(** The events of [gpio_configure], when the function-select register
    read [w]. *)
Definition ev_gpio_configure (gpio function w : Z) : trace :=
  [EvRead (GPIO_FSEL (Z.quot gpio 10)) w;
   EvWrite (GPIO_FSEL (Z.quot gpio 10))
     (wrap32 (Z.lor (Z.land w (Z.lnot (Z.shiftl 7 (Z.rem gpio 10 * 3))))
                    (Z.shiftl (Z.land function 7) (Z.rem gpio 10 * 3))))].

(** The events of draining the receive FIFO: for each byte, the status
    word that announced it and the FIFO word read. *)
Definition ev_drain (ps : list (Z * Z)) : trace :=
  flat_map (fun p => [EvRead PCM_CS (fst p); EvRead PCM_FIFO (snd p)]) ps.

(** The flag [f] of a status word is raised. *)
Definition raised (f : Z * Z) (w : Z) : bool :=
  negb (field_get (fst f) (snd f) w =? 0).

(** Hardware whose status never changes: the mailbox reports full and
    empty for ever, the PCM block reports nothing to receive. *)
Definition stuck_hw : hw unit := {|
  hw_read := fun r d => (match r with PCM_CS => 0 | _ => 1 end, d);
  hw_write := fun _ _ d => d
|}.

(** Two firmwares that leave the same value words in every buffer (the
    words from [data[0]] up to the terminator, which is the last word). *)
Definition same_data_words {D : Type} (fw1 fw2 : D -> list Z -> nat -> Z)
  : Prop :=
  forall (d : D) (buf : list Z) (i : nat),
    (W_DATA 0 <= i)%nat -> (S i < length buf)%nat ->
    fw1 d buf i = fw2 d buf i.

(** A firmware for simulated runs: it stores [code] in the header, raises
    the response bit of the tag, and answers a clock-state request with
    [state] and a clock-rate request with [rate] in [data[1]]. *)
Definition fw_stub (code state rate : Z) : script -> list Z -> nat -> Z :=
  fun _ buf i =>
    if (i =? W_CODE)%nat then code
    else if (i =? W_TAG_RESPONSE)%nat then
      Z.lor (word i buf) (Z.shiftl 1 31)
    else if (i =? W_DATA 1)%nat then
      if word W_TAG buf =? MBOX_TAG_GET_CLOCK_STATE then state
      else if word W_TAG buf =? MBOX_TAG_GET_CLOCK_RATE then rate
      else if word W_TAG buf =? MBOX_TAG_GET_CLOCK_RATE_MEASURED then rate
      else word i buf
    else word i buf.

(** The mailbox of a simulated run that answers two calls at address 16 on
    channel 8. *)
Definition two_replies : script := script_of [(MBOX0_DATA, [24; 24])].

(** A simulated stream for the counting loop: after a first marker, eight
    markers, one other byte, ten markers and one more byte, each ready at
    the first poll; the timer advances by one tick per read. *)
Definition nine_then_wrong : script :=
  script_of [(PCM_CS, repeat CS_RXD 20);
             (PCM_FIFO, repeat marker 8 ++ [0x42] ++ repeat marker 10 ++ [0x55]);
             (ST_CLO, [0; 1])].

(** The events of the steps of [spisl_init], in the order of the source,
    given the values the registers read. *)
Definition init_detach (g0 g1 g2 g3 : Z) : trace :=
  ev_gpio_configure 28 Input g0 ++ ev_gpio_configure 29 Input g1 ++
  ev_gpio_configure 30 Input g2 ++ ev_gpio_configure 31 Input g3 ++
  [EvBarrier].

Definition init_drain (ps : list (Z * Z)) (w : Z) : trace :=
  ev_drain ps ++ [EvRead PCM_CS w].

Definition init_disable (c : Z) : trace := ev_wr_field PCM_CS EN 0 c.

Definition init_settle (start : Z) (early : list Z) (now : Z) : trace :=
  EvRead ST_CLO start :: ev_reads ST_CLO (early ++ [now]).

Definition init_channels (r0 r1 r2 r3 x0 x1 x2 x3 : Z) : trace :=
  [EvWrite PCM_RXC 0; EvWrite PCM_TXC 0; EvWrite PCM_INTEN 0;
   EvWrite PCM_INTSTC 15; EvWrite PCM_GRAY 0] ++
  ev_wr_field PCM_RXC PCM_XC_reg.CH1WEX 0 r0 ++
  ev_wr_field PCM_RXC PCM_XC_reg.CH1POS 0 r1 ++
  ev_wr_field PCM_RXC PCM_XC_reg.CH1WID 0 r2 ++
  ev_wr_field PCM_RXC PCM_XC_reg.CH1EN 1 r3 ++
  ev_wr_field PCM_TXC PCM_XC_reg.CH1WEX 0 x0 ++
  ev_wr_field PCM_TXC PCM_XC_reg.CH1POS 0 x1 ++
  ev_wr_field PCM_TXC PCM_XC_reg.CH1WID 0 x2 ++
  ev_wr_field PCM_TXC PCM_XC_reg.CH1EN 1 x3.

Definition init_clock : trace :=
  [EvWrite (CM_DIV CM_PCM) pcm_cm_div; EvWrite (CM_CTL CM_PCM) pcm_cm_ctl].

Definition init_master (m : Z) : trace :=
  [EvWrite PCM_MODE mode_master] ++ ev_wr_field PCM_MODE CLK_DIS 0 m ++
  [EvWrite PCM_CS init_cs].

Definition init_sync (ws1 : list Z) (w1 c : Z) (ws2 : list Z) (w2 : Z)
  : trace :=
  ev_reads PCM_CS (ws1 ++ [w1]) ++ ev_wr_field PCM_CS SYNC 0 c ++
  ev_reads PCM_CS (ws2 ++ [w2]).

Definition init_slave (m : Z) : trace :=
  ev_wr_field PCM_MODE CLK_DIS 1 m ++ [EvWrite PCM_MODE mode_slave].

Definition init_attach (g4 g5 g6 g7 m : Z) : trace :=
  [EvBarrier] ++
  ev_gpio_configure 28 Alt2 g4 ++ ev_gpio_configure 29 Alt2 g5 ++
  ev_gpio_configure 30 Alt2 g6 ++ ev_gpio_configure 31 Alt2 g7 ++
  [EvBarrier] ++ ev_wr_field PCM_MODE CLK_DIS 0 m ++ [EvBarrier].

(** A simulated reset of the PCM block: one stale byte in the FIFO, the
    timer read at 5, 6 and 1005, the sync flag raised at the second poll
    and back down at the second poll after it was cleared. *)
Definition pcm_reset : script :=
  script_of [(PCM_CS, [CS_RXD; CS_IDLE; CS_IDLE; CS_IDLE; CS_SYNC; CS_SYNC;
                       CS_SYNC; CS_IDLE]);
             (PCM_FIFO, [0x33]);
             (ST_CLO, [5; 6; 1005])].

(** [spisl_synchronize] up to and with the acknowledgement: the counter
    and the byte the counting loop was left with. *)
Definition sync_prefix {D : Type} (h : hw D) (fuel : nat) : M D (Z * Z) :=
  incoming <- spisl_read h fuel ;;
  s <- sync_count h fuel 0 incoming ;;
  spisl_write h fuel marker ;;
  ret s.

(** The byte stream of a handshake: ten markers, one more marker, the
    inverted marker. *)
Definition handshake_bytes : list Z := repeat marker 10 ++ [marker] ++ [0x7E].

(** The handshake with all twelve bytes in the receive FIFO from the start:
    the status word reports data to receive (and room to transmit) at every
    poll as long as a byte is left, so for the first thirteen polls. *)
Definition handshake_preloaded : script :=
  script_of [(PCM_CS, repeat CS_RXD_TXD 13); (PCM_FIFO, handshake_bytes)].

(** The polls for a byte that arrives after [k] polls. *)
Definition rx_polls (k : nat) : list Z := repeat CS_IDLE k ++ [CS_RXD].

(** The handshake with the bytes arriving one by one: byte [i] is reported
    after [w i] polls that find nothing; when the acknowledgement is due the
    transmit FIFO has room after [kt] polls; the poll that follows the
    write of the acknowledgement finds nothing received; the inverted
    marker is reported [w 11] polls later. *)
Definition handshake_cs (w : nat -> nat) (kt : nat) : list Z :=
  flat_map (fun i => rx_polls (w i)) (seq 0 11) ++
  repeat CS_IDLE kt ++ [CS_TXD] ++ [CS_IDLE] ++ rx_polls (w 11%nat).

Definition handshake_timed (w : nat -> nat) (kt : nat) : script :=
  script_of [(PCM_CS, handshake_cs w kt); (PCM_FIFO, handshake_bytes)].

(** The response loop of [mbox_call]: barrier, wait while the read FIFO is
    empty, read a word, until the word read is [wanted]; [n] bounds its
    iterations, [fuel] those of the wait. *)
Definition wait_response {D : Type} (h : hw D) (n fuel : nat) (wanted : Z)
  : M D unit :=
  iter n
    (fun _ : unit =>
       memory_barrier ;;
       spin fuel (nonzero (rd h MBOX0_STATUS_EMPTY)) ;;
       v <- rd h MBOX0_DATA ;;
       ret (if negb (v =? wanted) then inl tt else inr tt))
    tt.

(* ================================================================== *)
(** * A register file with a running timer

    Hardware for statements about what the code leaves in the registers:
    every register holds the word last written to it, and the system
    timer, read at [ST_CLO], has advanced by [step] ticks at each read. *)

Definition regs : Type := reg -> Z.

Definition store (r : reg) (v : Z) (s : regs) : regs :=
  fun r' => if reg_eqb r r' then v else s r'.

Definition board (step : Z) : hw regs := {|
  hw_read := fun r s =>
    (s r,
     match r with
     | ST_CLO => store ST_CLO (s ST_CLO + step) s
     | _ => s
     end);
  hw_write := fun r v s => store r v s
|}.

(** The function selected for a pin: its three bits of the function-select
    register, ten pins to a register. *)
Definition gpio_function (s : regs) (gpio : Z) : Z :=
  field_get (Z.rem gpio 10 * 3) 3 (s (GPIO_FSEL (Z.quot gpio 10))).

(* ================================================================== *)
(** * The PCM block as two queues

    Hardware for statements about the bytes of the serial link: the words
    received and not yet read, oldest first, and the words written for
    transmission.  The status word raises RXD as long as a received word
    waits, and TXD always; a read of the FIFO takes the oldest received
    word (and reads 0 when none waits); a write to the FIFO appends to the
    words for transmission.  Nothing arrives during a run. *)

Record pcm : Type := { rxq : list Z; txq : list Z }.

Definition pcm_hw : hw pcm := {|
  hw_read := fun r s =>
    match r with
    | PCM_CS => (match rxq s with [] => CS_TXD | _ :: _ => CS_RXD_TXD end, s)
    | PCM_FIFO => (hd 0 (rxq s), {| rxq := tl (rxq s); txq := txq s |})
    | _ => (0, s)
    end;
  hw_write := fun r v s =>
    match r with
    | PCM_FIFO => {| rxq := rxq s; txq := txq s ++ [v] |}
    | _ => s
    end
|}.

(* ================================================================== *)
(** * spi.h: the clock divider *)

(** [CORE_CLOCK] of hw.h. *)
Definition CORE_CLOCK : Z := 250000000.

(** The divider [spi_init] computes for [speed] and stores in the 16-bit
    field [CDIV] of [SPI0.CLK]: the local [div] after the two tests. *)
Definition spi_init_div (speed : Z) : Z :=
  let div := wrap32 (Z.quot CORE_CLOCK speed) in
  let div := if 65536 <=? div then 0 else div in
  let div := if div <? 2 then 2 else div in
  div.

(** The register accesses and barriers of a trace: everything but the
    buffers handed to the firmware. *)
Definition register_events (t : trace) : trace :=
  filter (fun e => match e with EvSubmit _ => false | _ => true end) t.

(** A run with the buffers left out of its trace. *)
Definition on_registers {D A : Type} (o : option (A * D * trace))
  : option (A * D * trace) :=
  match o with
  | Some (a, d, t) => Some (a, d, register_events t)
  | None => None
  end.

(* ================================================================== *)
(** * Lists and machine integers: basic facts *)

Lemma length_set_nth {A : Type} (i : nat) (v : A) (l : list A) :
  length (set_nth i v l) = length l.
Proof.
  revert i; induction l as [|x l IH]; intros [|i]; simpl; auto.
Qed.

Lemma nth_set_nth_eq {A : Type} (i : nat) (v d : A) (l : list A) :
  (i < length l)%nat -> nth i (set_nth i v l) d = v.
Proof.
  revert i; induction l as [|x l IH]; intros [|i] Hi; simpl in *;
    try lia; auto.
  apply IH; lia.
Qed.

Lemma nth_set_nth_neq {A : Type} (i j : nat) (v d : A) (l : list A) :
  i <> j -> nth j (set_nth i v l) d = nth j l d.
Proof.
  revert i j; induction l as [|x l IH]; intros [|i] [|j] Hij; simpl;
    auto; try congruence.
Qed.

Lemma wrap32_range z : 0 <= wrap32 z < 2 ^ 32.
Proof. unfold wrap32; apply Z.mod_pos_bound; lia. Qed.

Lemma wrap32_small z : 0 <= z < 2 ^ 32 -> wrap32 z = z.
Proof. intros; unfold wrap32; apply Z.mod_small; auto. Qed.

Lemma wrap32_idem z : wrap32 (wrap32 z) = wrap32 z.
Proof. apply wrap32_small, wrap32_range. Qed.

Lemma length_uninit size junk : length (uninit size junk) = (6 + size)%nat.
Proof. unfold uninit; now rewrite length_map, length_seq. Qed.

Lemma length_set_word i v m : length (set_word i v m) = length m.
Proof. apply length_set_nth. Qed.

Lemma word_set_word_eq i v m :
  (i < length m)%nat -> word i (set_word i v m) = wrap32 v.
Proof. intros; unfold word, set_word; now apply nth_set_nth_eq. Qed.

Lemma word_set_word_neq i j v m :
  i <> j -> word j (set_word i v m) = word j m.
Proof. intros; unfold word, set_word; now apply nth_set_nth_neq. Qed.

Lemma length_fill size tagid m :
  length (mbox_property_fill size tagid m) = length m.
Proof. unfold mbox_property_fill; now rewrite !length_set_word. Qed.

(* ================================================================== *)
(** * The property buffer: its size field *)

Lemma round_up_multiple a k : 0 < a -> round_up (a * k) a = a * k.
Proof.
  intros Ha; unfold round_up.
  replace (a * k + a - 1) with ((a - 1) + k * a) by ring.
  rewrite Z.div_add by lia.
  rewrite (Z.div_small (a - 1) a) by lia; ring.
Qed.

Lemma round_up_bounds x a : 0 < a -> x <= round_up x a < x + a.
Proof.
  intros Ha; unfold round_up.
  pose proof (Z.div_mod (x + a - 1) a ltac:(lia)) as E.
  pose proof (Z.mod_pos_bound (x + a - 1) a Ha) as B.
  lia.
Qed.

Lemma sizeof_mbox_property_struct size :
  sizeof (mbox_property_struct size) = round_up (serialized_length size) 16.
Proof.
  unfold mbox_property_struct, serialized_length.
  cbn [sizeof alignof fold_left mbox_property_header_t mbox_tag_header_t].
  match goal with
  | |- round_up (round_up (?A + _) 4 + 4) ?C = _ =>
      let a := eval vm_compute in A in
      let c := eval vm_compute in C in
      change A with a; change C with c
  end.
  replace (20 + 4 * Z.of_nat size) with (4 * (5 + Z.of_nat size)) by ring.
  rewrite round_up_multiple by lia.
  replace (4 * (5 + Z.of_nat size) + 4) with (8 + 12 + 4 * Z.of_nat size + 4)
    by ring.
  reflexivity.
Qed.

Lemma buffer_size_of_fill size tagid junk :
  word W_BUFFER_SIZE (mbox_property_fill size tagid (uninit size junk))
  = wrap32 (sizeof (mbox_property_struct size)).
Proof.
  unfold mbox_property_fill.
  rewrite !word_set_word_neq by (unfold W_END, W_BUFFER_SIZE, W_CODE, W_TAG,
    W_TAG_BUFFER_SIZE, W_TAG_RESPONSE; lia).
  apply word_set_word_eq. rewrite length_uninit. unfold W_BUFFER_SIZE; lia.
Qed.

(** C1, as stated, fails for the three-word payload of [mbox_set_clock]:
    the size field holds 48, the members take 36 bytes. *)
Lemma buffer_size_not_exact_for_3_words :
  word W_BUFFER_SIZE
    (mbox_property_fill 3 MBOX_TAG_SET_CLOCK_STATE (uninit 3 (fun _ => 0)))
  <> serialized_length 3.
Proof. vm_compute. discriminate. Qed.

(** C1 (amended): for every payload size, the [buffer_size] field that
    [mbox_property_call] stores is [sizeof] of the structure, which is the
    byte length of its members (header, tag header, value words and
    terminator) rounded up to the next multiple of 16, the alignment of the
    header type: never less than the exact length, less than 16 bytes more,
    and equal to it exactly when the number of value words is 2 modulo 4. *)
Theorem buffer_size_is_padded_length (size : nat) (tagid : Z)
        (junk : nat -> Z) :
  let exact := serialized_length size in
  word W_BUFFER_SIZE (mbox_property_fill size tagid (uninit size junk))
  = wrap32 (round_up exact 16)
  /\ exact <= round_up exact 16 < exact + 16
  /\ (round_up exact 16 = exact <-> Z.of_nat size mod 4 = 2).
Proof.
  intros exact. split; [|split].
  - rewrite buffer_size_of_fill. now rewrite sizeof_mbox_property_struct.
  - apply round_up_bounds; lia.
  - subst exact; unfold serialized_length, round_up.
    pose proof (Z.div_mod (8 + 12 + 4 * Z.of_nat size + 4 + 16 - 1) 16
                  ltac:(lia)) as E.
    pose proof (Z.mod_pos_bound (8 + 12 + 4 * Z.of_nat size + 4 + 16 - 1) 16
                  ltac:(lia)) as B.
    pose proof (Z.div_mod (Z.of_nat size) 4 ltac:(lia)) as E4.
    pose proof (Z.mod_pos_bound (Z.of_nat size) 4 ltac:(lia)) as B4.
    split; intros H.
    + assert (Hm : (8 + 12 + 4 * Z.of_nat size + 4 + 16 - 1) mod 16 = 15)
        by lia.
      assert (Hd : (4 * Z.of_nat size + 39 - 15) mod 16 = 0).
      { replace (4 * Z.of_nat size + 39 - 15)
          with (16 * ((8 + 12 + 4 * Z.of_nat size + 4 + 16 - 1) / 16)) by lia.
        rewrite Z.mul_comm. apply Z.mod_mul; lia. }
      replace (4 * Z.of_nat size + 39 - 15) with
        (4 * (Z.of_nat size mod 4) + 24 + (Z.of_nat size / 4) * 16) in Hd
        by lia.
      rewrite Z.mod_add in Hd by lia.
      assert (C : Z.of_nat size mod 4 = 0 \/ Z.of_nat size mod 4 = 1 \/
                  Z.of_nat size mod 4 = 2 \/ Z.of_nat size mod 4 = 3) by lia.
      destruct C as [C|[C|[C|C]]]; rewrite C in Hd; cbn in Hd; lia.
    + assert (Hm : (8 + 12 + 4 * Z.of_nat size + 4 + 16 - 1) mod 16 = 15).
      { replace (8 + 12 + 4 * Z.of_nat size + 4 + 16 - 1)
          with (15 + (Z.of_nat size / 4 + 2) * 16) by lia.
        rewrite Z.mod_add by lia. reflexivity. }
      lia.
Qed.

(** Instances of C1: the two-word buffer of [mbox_get_clock], whose size
    field is the exact length, and the three-word buffer of
    [mbox_set_clock], whose size field counts 12 bytes of padding. *)
Lemma buffer_size_is_padded_length_witness :
  word W_BUFFER_SIZE
    (mbox_property_fill 2 MBOX_TAG_GET_CLOCK_RATE (uninit 2 (fun _ => 0)))
  = serialized_length 2 /\
  word W_BUFFER_SIZE
    (mbox_property_fill 3 MBOX_TAG_SET_CLOCK_RATE (uninit 3 (fun _ => 0)))
  = serialized_length 3 + 12.
Proof.
  pose proof (buffer_size_is_padded_length 2 MBOX_TAG_GET_CLOCK_RATE
                (fun _ => 0)) as P2.
  pose proof (buffer_size_is_padded_length 3 MBOX_TAG_SET_CLOCK_RATE
                (fun _ => 0)) as P3.
  cbv zeta in P2, P3.
  destruct P2 as (H2 & _ & Hiff). destruct P3 as (H3 & _).
  split.
  - rewrite H2, (proj2 Hiff eq_refl). reflexivity.
  - rewrite H3. reflexivity.
Defined.

(* ================================================================== *)
(** * Programs: sequencing, loops and loop bounds *)

Lemma bind_inv {D A B : Type} (m : M D A) (k : A -> M D B) d b d2 t :
  bind m k d = Some (b, d2, t) ->
  exists a d1 t1 t2,
    m d = Some (a, d1, t1) /\ k a d1 = Some (b, d2, t2) /\ t = t1 ++ t2.
Proof.
  unfold bind. destruct (m d) as [[[a d1] t1]|] eqn:Em; [|discriminate].
  destruct (k a d1) as [[[b' d2'] t2]|] eqn:Ek; [|discriminate].
  intros H; inversion H; subst. now exists a, d1, t1, t2.
Qed.

Lemma bind_Some {D A B : Type} (m : M D A) (k : A -> M D B) d a d1 t1 :
  m d = Some (a, d1, t1) ->
  bind m k d = match k a d1 with
               | None => None
               | Some (b, d2, t2) => Some (b, d2, t1 ++ t2)
               end.
Proof. intros H; unfold bind; now rewrite H. Qed.

Lemma bind_None {D A B : Type} (m : M D A) (k : A -> M D B) d :
  m d = None -> bind m k d = None.
Proof. intros H; unfold bind; now rewrite H. Qed.

Lemma bind_ext {D A B : Type} (m1 m2 : M D A) (k1 k2 : A -> M D B) d :
  m1 d = m2 d -> (forall a d', k1 a d' = k2 a d') ->
  bind m1 k1 d = bind m2 k2 d.
Proof.
  intros Hm Hk; unfold bind; rewrite Hm.
  destruct (m2 d) as [[[a d1] t1]|]; auto. now rewrite Hk.
Qed.

(** One step of the inversion of a sequence: the first action in [H1],
    the rest in [H]. *)
Ltac peel H H1 :=
  apply bind_inv in H as (? & ? & ? & ? & H1 & H & ->).

Lemma bind_assoc {D A B C : Type} (m : M D A) (f : A -> M D B)
      (g : B -> M D C) d :
  bind (bind m f) g d = bind m (fun a => bind (f a) g) d.
Proof.
  unfold bind. destruct (m d) as [[[a d1] t1]|]; auto.
  destruct (f a d1) as [[[b d2] t2]|]; auto.
  destruct (g b d2) as [[[c d3] t3]|]; auto.
  now rewrite app_assoc.
Qed.

Lemma iter_ext {D S R : Type} (b1 b2 : S -> M D (S + R)) :
  (forall s d, b1 s d = b2 s d) ->
  forall n s d, iter n b1 s d = iter n b2 s d.
Proof.
  intros Hb; induction n as [|n IH]; intros s d; simpl; auto.
  apply bind_ext; auto. intros [s'|x] d'; auto.
Qed.

Lemma spin_ext {D : Type} (c1 c2 : M D bool) :
  (forall d, c1 d = c2 d) -> forall n d, spin n c1 d = spin n c2 d.
Proof.
  intros Hc n d; unfold spin. apply iter_ext.
  intros _ d'. apply bind_ext; auto.
Qed.

Lemma is_zero_field_poll {D : Type} (h : hw D) r f d :
  is_zero (rd_field h r f) d = poll h r (fun w => negb (raised f w)) d.
Proof.
  unfold is_zero, rd_field, poll, raised, bind, rd, ret.
  destruct (hw_read h r d) as [v d']. now rewrite negb_involutive.
Qed.

Lemma nonzero_field_poll {D : Type} (h : hw D) r f d :
  nonzero (rd_field h r f) d = poll h r (raised f) d.
Proof.
  unfold nonzero, rd_field, poll, raised, bind, rd, ret.
  destruct (hw_read h r d) as [v d']; reflexivity.
Qed.

(** A busy-wait that returns has read the register some number of times
    with the condition true, then once with the condition false. *)
Lemma spin_poll_inv {D : Type} (h : hw D) r p :
  forall fuel d d' t,
    spin fuel (poll h r p) d = Some (tt, d', t) ->
    exists ws w,
      t = ev_reads r (ws ++ [w]) /\
      Forall (fun x => p x = true) ws /\ p w = false.
Proof.
  induction fuel as [|n IH]; intros d d' t H; [discriminate|].
  unfold spin in H; simpl in H.
  apply bind_inv in H as (a & d1 & t1 & t2 & Hb & Hk & ->).
  apply bind_inv in Hb as (b & d0 & t0 & t0' & Hc & Hr & ->).
  unfold poll in Hc.
  apply bind_inv in Hc as (v & dv & tv & tv' & Hrd & Hp & ->).
  unfold rd in Hrd. destruct (hw_read h r d) as [v0 dv0].
  unfold ret in Hp, Hr.
  inversion Hrd; subst; clear Hrd. inversion Hp; subst; clear Hp.
  inversion Hr; subst; clear Hr.
  destruct (p (wrap32 v0)) eqn:Ep.
  - apply IH in Hk as (ws & w & -> & Hws & Hw).
    exists (wrap32 v0 :: ws), w. split; [reflexivity|]. split; auto.
  - inversion Hk; subst.
    exists [], (wrap32 v0). split; [reflexivity|]. split; auto.
Qed.

(** Monotonicity in the loop bound. *)
Lemma mono_const {D A : Type} (m : M D A) : mono (fun _ => m).
Proof. intros n m' d r _ H; exact H. Qed.

Lemma mono_bind {D A B : Type} (f : nat -> M D A) (g : nat -> A -> M D B) :
  mono f -> (forall a, mono (fun n => g n a)) ->
  mono (fun n => bind (f n) (g n)).
Proof.
  intros Hf Hg n m d [[b d2] t] Hnm H.
  apply bind_inv in H as (a & d1 & t1 & t2 & Hm & Hk & ->).
  rewrite (bind_Some _ _ _ _ _ _ (Hf n m d _ Hnm Hm)).
  now rewrite (Hg a n m d1 _ Hnm Hk).
Qed.

Lemma mono_iter {D St R : Type} (body : nat -> St -> M D (St + R)) :
  (forall s, mono (fun n => body n s)) ->
  forall s, mono (fun n => iter n (body n) s).
Proof.
  intros Hb s n; revert s.
  assert (G : forall k s m d r, (k <= n)%nat -> (n <= m)%nat ->
              iter k (body n) s d = Some r ->
              iter (m - n + k) (body m) s d = Some r).
  { induction k as [|k IH]; intros s m d [[x d2] t] Hk Hnm H;
      [discriminate|].
    replace (m - n + S k)%nat with (S (m - n + k))%nat by lia.
    simpl in H |- *.
    apply bind_inv in H as (a & d1 & t1 & t2 & Hm & Hc & ->).
    rewrite (bind_Some _ _ _ _ _ _ (Hb s n m d _ Hnm Hm)).
    destruct a as [s'|y].
    - rewrite (IH s' m d1 _ ltac:(lia) Hnm Hc). reflexivity.
    - now rewrite Hc. }
  intros s m d r Hnm H.
  specialize (G n s m d r (Nat.le_refl n) Hnm H).
  now replace (m - n + n)%nat with m in G by lia.
Qed.

Lemma mono_spin {D : Type} (c : M D bool) : mono (fun n => spin n c).
Proof.
  unfold spin. apply (mono_iter (fun _ _ => b <- c ;; ret (if b then inl tt else inr tt))).
  intros s. apply mono_const.
Qed.

(* ================================================================== *)
(** * The mailbox transport *)

Lemma collapse_barrier_twice (x l : trace) :
  collapse (x ++ EvBarrier :: EvBarrier :: l) = collapse (x ++ EvBarrier :: l).
Proof.
  induction x as [|e x IH]; [reflexivity|].
  destruct e; simpl; try (now rewrite IH).
  destruct x as [|e' x']; simpl in *; [reflexivity|].
  destruct e'; now rewrite IH.
Qed.

Lemma accesses_app (a b : trace) : accesses (a ++ b) = accesses a ++ accesses b.
Proof. apply filter_app. Qed.

Lemma barriers_app (a b : trace) : barriers (a ++ b) = (barriers a + barriers b)%nat.
Proof. unfold barriers. now rewrite filter_app, length_app. Qed.

Section MailboxFacts.
Context {D : Type} (h : hw D).

Lemma mbox_call_unfold fuel chan addr d :
  mbox_call h fuel chan addr d =
  match spin fuel (nonzero (rd h MBOX0_STATUS_FULL)) d with
  | None => None
  | Some (_, d1, t1) =>
      match wait_response h fuel fuel (wrap32 (Z.lor chan addr))
              (hw_write h MBOX1_DATA (wrap32 (Z.lor chan addr)) d1) with
      | None => None
      | Some (u, d3, t3) =>
          Some (u, d3,
                t1 ++ EvWrite MBOX1_DATA (wrap32 (Z.lor chan addr)) :: t3)
      end
  end.
Proof.
  unfold mbox_call, wait_response.
  set (loop := iter fuel _ tt).
  unfold bind at 1.
  destruct (spin fuel _ d) as [[[u d1] t1]|]; [|reflexivity].
  unfold bind, wr. rewrite wrap32_idem.
  destruct (loop _) as [[[u3 d3] t3]|]; reflexivity.
Qed.

Lemma mbox_call_spec_unfold fuel chan addr d :
  mbox_call_spec h fuel chan addr d =
  match spin fuel (nonzero (rd h MBOX0_STATUS_FULL)) d with
  | None => None
  | Some (_, d1, t1) =>
      match wait_response h fuel fuel (wrap32 (Z.lor chan addr))
              (hw_write h MBOX1_DATA (wrap32 (Z.lor chan addr)) d1) with
      | None => None
      | Some (u, d3, t3) =>
          Some (u, d3,
                (t1 ++ [EvWrite MBOX1_DATA (wrap32 (Z.lor chan addr));
                        EvBarrier]) ++ t3)
      end
  end.
Proof.
  unfold mbox_call_spec, wait_response, mbox_write.
  unfold bind at 1. unfold bind at 1.
  destruct (spin fuel _ d) as [[[u d1] t1]|]; [|reflexivity].
  unfold bind at 1. unfold wr, memory_barrier. simpl.
  rewrite (iter_ext _
    (fun _ : unit =>
       memory_barrier ;;
       spin fuel (nonzero (rd h MBOX0_STATUS_EMPTY)) ;;
       v <- rd h MBOX0_DATA ;;
       ret (if negb (v =? wrap32 (Z.lor chan addr)) then inl tt else inr tt))).
  - destruct (iter fuel _ tt _) as [[[u3 d3] t3]|]; reflexivity.
  - intros _ d'. unfold mbox_read. rewrite bind_assoc.
    apply bind_ext; auto. intros _ d''. now rewrite bind_assoc.
Qed.

Lemma wait_response_starts_with_barrier fuel wanted d u d' t :
  wait_response h fuel fuel wanted d = Some (u, d', t) ->
  exists t', t = EvBarrier :: t'.
Proof.
  destruct fuel as [|n]; [discriminate|].
  unfold wait_response; simpl. intros H.
  apply bind_inv in H as (a & d1 & t1 & t2 & Hb & _ & ->).
  apply bind_inv in Hb as (a0 & d0 & t0 & t0' & Hm & _ & ->).
  unfold memory_barrier in Hm. inversion Hm; subst.
  eexists; reflexivity.
Qed.
End MailboxFacts.

(** C6, as stated, fails: after the write, [mbox_write] followed by
    [mbox_read] issues two barriers where [mbox_call] issues one, so the
    sequences of actions differ (here with the mailbox ready and the
    response first in the FIFO). *)
Lemma mbox_call_differs_from_write_then_reads :
  observe (mbox_call scripted 2 8 16 (script_of [(MBOX0_DATA, [24])]))
  <> observe (mbox_call_spec scripted 2 8 16 (script_of [(MBOX0_DATA, [24])])).
Proof. vm_compute. discriminate. Qed.

(** C6 (amended): [mbox_call] and one [mbox_write] followed by repeated
    [mbox_read] until the word read equals the word written return or block
    together, leave the hardware in the same state and perform the same
    sequence of register accesses; their sequences of register and barrier
    actions are the same once adjacent barriers are merged, [mbox_call]
    issuing exactly one barrier less (the one [mbox_write] issues after the
    write, just before the barrier of the first [mbox_read]). *)
Theorem mbox_call_is_write_then_reads_up_to_one_barrier
        {D : Type} (h : hw D) (fuel : nat) (chan addr : Z) (d : D) :
  match mbox_call h fuel chan addr d, mbox_call_spec h fuel chan addr d with
  | Some (_, d1, t1), Some (_, d2, t2) =>
      d1 = d2 /\ accesses t1 = accesses t2 /\ collapse t1 = collapse t2 /\
      barriers t2 = S (barriers t1)
  | None, None => True
  | _, _ => False
  end.
Proof.
  rewrite mbox_call_unfold, mbox_call_spec_unfold.
  destruct (spin fuel _ d) as [[[u d1] t1]|]; [|exact I].
  destruct (wait_response h fuel fuel _ _) as [[[u3 d3] t3]|] eqn:E;
    [|exact I].
  apply wait_response_starts_with_barrier in E as [t' ->].
  split; [reflexivity|]. split; [|split].
  - rewrite !accesses_app, <- app_assoc. reflexivity.
  - rewrite <- app_assoc. simpl.
    change (t1 ++ EvWrite MBOX1_DATA (wrap32 (Z.lor chan addr))
               :: EvBarrier :: EvBarrier :: t')
      with (t1 ++ [EvWrite MBOX1_DATA (wrap32 (Z.lor chan addr))]
               ++ EvBarrier :: EvBarrier :: t').
    change (t1 ++ EvWrite MBOX1_DATA (wrap32 (Z.lor chan addr))
               :: EvBarrier :: t')
      with (t1 ++ [EvWrite MBOX1_DATA (wrap32 (Z.lor chan addr))]
               ++ EvBarrier :: t').
    rewrite !app_assoc. now rewrite collapse_barrier_twice.
  - rewrite !barriers_app. unfold barriers; simpl. lia.
Qed.

(* ================================================================== *)
(** * Traces *)

Lemma reads_of_app r (a b : trace) :
  reads_of r (a ++ b) = reads_of r a ++ reads_of r b.
Proof. apply flat_map_app. Qed.

Lemma writes_of_app r (a b : trace) :
  writes_of r (a ++ b) = writes_of r a ++ writes_of r b.
Proof. apply flat_map_app. Qed.

Lemma submitted_app (a b : trace) :
  submitted (a ++ b) = submitted a ++ submitted b.
Proof. apply flat_map_app. Qed.

Lemma reg_eqb_refl r : reg_eqb r r = true.
Proof. unfold reg_eqb. destruct (reg_eq_dec r r); congruence. Qed.

Lemma reg_eqb_neq r r' : r <> r' -> reg_eqb r r' = false.
Proof. unfold reg_eqb. destruct (reg_eq_dec r r'); congruence. Qed.

Lemma reads_of_ev_reads r vs : reads_of r (ev_reads r vs) = vs.
Proof.
  induction vs as [|v vs IH]; simpl; auto.
  now rewrite reg_eqb_refl, IH.
Qed.

Lemma reads_of_ev_reads_other r r' vs :
  r <> r' -> reads_of r (ev_reads r' vs) = [].
Proof.
  intros Hr; induction vs as [|v vs IH]; simpl; auto.
  now rewrite (reg_eqb_neq _ _ Hr), IH.
Qed.

Lemma writes_of_ev_reads r r' vs : writes_of r (ev_reads r' vs) = [].
Proof. induction vs as [|v vs IH]; simpl; auto. Qed.

Lemma submitted_ev_reads r vs : submitted (ev_reads r vs) = [].
Proof. induction vs as [|v vs IH]; simpl; auto. Qed.

(* ================================================================== *)
(** * The scripted hardware *)

Lemma rd_scripted r (s : script) :
  rd scripted r s =
  Some (wrap32 (hd 0 (s r)),
        (fun r' => if reg_eqb r r' then tl (s r) else s r'),
        [EvRead r (wrap32 (hd 0 (s r)))]).
Proof. reflexivity. Qed.

Lemma iter_S {D St R : Type} (n : nat) (body : St -> M D (St + R)) s d :
  iter (S n) body s d =
  bind (body s) (fun r => match r with
                          | inl s' => iter n body s'
                          | inr x => ret x
                          end) d.
Proof. reflexivity. Qed.

(** On scripted hardware a busy-wait on a register that reads 0 when ready
    returns: the script of the register is finite.  It uses up the script
    up to and with its first ready value and leaves the other scripts. *)
Lemma spin_scripted r (p : Z -> bool) :
  p 0 = false ->
  forall (n : nat) (s : script),
    (length (s r) < n)%nat ->
    exists s' vs,
      spin n (poll scripted r p) s = Some (tt, s', ev_reads r vs) /\
      (forall r', r' <> r -> s' r' = s r') /\
      (length (s' r) <= length (s r))%nat.
Proof.
  intros Hp0. induction n as [|n IH]; intros s Hn; [lia|].
  unfold spin. rewrite iter_S.
  unfold poll at 1. rewrite !bind_assoc.
  rewrite (bind_Some _ _ _ _ _ _ (rd_scripted r s)).
  set (s1 := fun r' => if reg_eqb r r' then tl (s r) else s r').
  unfold bind at 1. unfold ret at 1.
  unfold bind at 1. unfold ret at 1.
  destruct (p (wrap32 (hd 0 (s r)))) eqn:Ep.
  - destruct (s r) as [|v l] eqn:Es.
    { simpl in Ep. change (wrap32 0) with 0 in Ep. congruence. }
    destruct (IH s1) as (s' & vs & Hs & Hother & Hlen).
    { unfold s1. rewrite reg_eqb_refl. simpl in *. lia. }
    unfold spin in Hs. rewrite Hs.
    exists s', (wrap32 (hd 0 (v :: l)) :: vs). split; [reflexivity|].
    split.
    + intros r' Hr'. rewrite Hother by auto. unfold s1.
      rewrite reg_eqb_neq by congruence. reflexivity.
    + unfold s1 in Hlen. rewrite reg_eqb_refl in Hlen. simpl in *. lia.
  - exists s1, [wrap32 (hd 0 (s r))]. split; [reflexivity|]. split.
    + intros r' Hr'. unfold s1. now rewrite reg_eqb_neq by congruence.
    + unfold s1. rewrite reg_eqb_refl. destruct (s r); simpl; lia.
Qed.

(* ================================================================== *)
(** * [mbox_call] returns on the word it pushed *)

Section MailboxCall.
Context {D : Type} (h : hw D).

Lemma rd_inv r d v d' t :
  rd h r d = Some (v, d', t) ->
  t = [EvRead r v] /\ v = wrap32 (fst (hw_read h r d)) /\
  d' = snd (hw_read h r d).
Proof.
  unfold rd. destruct (hw_read h r d) as [v0 d0]. intros H.
  inversion H; subst. auto.
Qed.

Lemma wait_response_inv (fuel : nat) (wanted : Z) :
  forall n d u d' t,
    wait_response h n fuel wanted d = Some (u, d', t) ->
    exists t0 pre,
      t = t0 ++ [EvRead MBOX0_DATA wanted] /\
      reads_of MBOX0_DATA t = pre ++ [wanted] /\
      Forall (fun w => w <> wanted) pre /\
      writes_of MBOX1_DATA t = [].
Proof.
  unfold wait_response.
  induction n as [|n IH]; intros d u d' t H; [discriminate|].
  rewrite iter_S in H.
  apply bind_inv in H as (a & d1 & t1 & t2 & Hb & Hk & ->).
  apply bind_inv in Hb as (? & d2 & tb & t3 & Hbar & Hb & ->).
  apply bind_inv in Hb as (? & d3 & ts & t4 & Hs & Hb & ->).
  apply bind_inv in Hb as (v & d4 & tr & t5 & Hr & Hret & ->).
  unfold memory_barrier in Hbar. inversion Hbar; subst; clear Hbar.
  destruct x0.
  apply (spin_poll_inv h MBOX0_STATUS_EMPTY (fun v => negb (v =? 0)))
    in Hs as (ws & w & -> & _ & _).
  apply rd_inv in Hr as (-> & _ & _).
  unfold ret in Hret. inversion Hret; subst; clear Hret.
  destruct (v =? wanted) eqn:Ev; simpl in Hk.
  - inversion Hk; subst; clear Hk. apply Z.eqb_eq in Ev; subst v.
    exists ([EvBarrier] ++ ev_reads MBOX0_STATUS_EMPTY (ws ++ [w])), [].
    split; [now rewrite !app_nil_r, <- !app_assoc|].
    rewrite !app_nil_r, !reads_of_app, !writes_of_app.
    rewrite reads_of_ev_reads_other by discriminate.
    rewrite writes_of_ev_reads. repeat split; auto.
  - apply IH in Hk as (t0 & pre & -> & Hreads & Hpre & Hw).
    apply Z.eqb_neq in Ev.
    exists (([EvBarrier] ++ ev_reads MBOX0_STATUS_EMPTY (ws ++ [w]) ++
               [EvRead MBOX0_DATA v] ++ []) ++ t0), (v :: pre).
    split; [now rewrite <- !app_assoc|].
    rewrite reads_of_app, writes_of_app, Hreads, Hw.
    rewrite !reads_of_app, !writes_of_app.
    rewrite reads_of_ev_reads_other by discriminate.
    rewrite writes_of_ev_reads. repeat split; auto.
Qed.
End MailboxCall.

(** On scripted hardware the response loop of [mbox_call] uses up the
    words of the read FIFO up to and with the first that matches. *)
Lemma wait_response_scripted (fuel : nat) (wanted : Z) :
  forall (pre : list Z) (n : nat) (s : script) (w : Z) (rest : list Z),
    s MBOX0_DATA = pre ++ w :: rest ->
    wrap32 w = wanted ->
    Forall (fun x => wrap32 x <> wanted) pre ->
    (length pre < n)%nat ->
    (length (s MBOX0_STATUS_EMPTY) < fuel)%nat ->
    exists s' t,
      wait_response scripted n fuel wanted s = Some (tt, s', t) /\
      s' MBOX0_DATA = rest /\
      reads_of MBOX0_DATA t = map wrap32 pre ++ [wanted] /\
      writes_of MBOX1_DATA t = [].
Proof.
  unfold wait_response.
  assert (Hbody : forall (s : script),
    (length (s MBOX0_STATUS_EMPTY) < fuel)%nat ->
    exists s1 vs,
      (memory_barrier ;;
       spin fuel (nonzero (rd scripted MBOX0_STATUS_EMPTY)) ;;
       v <- rd scripted MBOX0_DATA ;;
       ret (if negb (v =? wanted) then inl tt else inr tt)) s
      = Some (if negb (wrap32 (hd 0 (s MBOX0_DATA)) =? wanted)
              then inl tt else inr tt,
              (fun r' => if reg_eqb MBOX0_DATA r'
                         then tl (s MBOX0_DATA) else s1 r'),
              [EvBarrier] ++ ev_reads MBOX0_STATUS_EMPTY vs ++
              [EvRead MBOX0_DATA (wrap32 (hd 0 (s MBOX0_DATA)))]) /\
      (length (s1 MBOX0_STATUS_EMPTY) <= length (s MBOX0_STATUS_EMPTY))%nat).
  { intros s Hfuel.
    destruct (spin_scripted MBOX0_STATUS_EMPTY (fun v => negb (v =? 0))
                eq_refl fuel s Hfuel) as (s1 & vs & Hspin & Hother & Hlen).
    exists s1, vs. split; [|exact Hlen].
    rewrite (bind_Some _ _ s tt s [EvBarrier] eq_refl). cbv beta.
    change (poll scripted MBOX0_STATUS_EMPTY (fun v => negb (v =? 0)))
      with (nonzero (rd scripted MBOX0_STATUS_EMPTY)) in Hspin.
    rewrite (bind_Some _ _ _ _ _ _ Hspin). cbv beta.
    rewrite (bind_Some _ _ _ _ _ _ (rd_scripted MBOX0_DATA s1)). cbv beta.
    unfold ret. rewrite (Hother MBOX0_DATA) by discriminate.
    now rewrite app_nil_r. }
  induction pre as [|x pre IH]; intros n s w rest Hs Hw Hpre Hn Hfuel;
    (destruct n as [|n]; [simpl in Hn; lia|]); rewrite iter_S;
    destruct (Hbody s Hfuel) as (s1 & vs & Hb & Hlen);
    rewrite (bind_Some _ _ _ _ _ _ Hb); simpl in Hs; rewrite Hs; cbn [hd tl].
  - rewrite Hw, Z.eqb_refl. cbn [negb]. cbv beta iota. unfold ret.
    eexists _, _. split; [reflexivity|].
    split; [reflexivity|].
    rewrite !reads_of_app, !writes_of_app.
    rewrite reads_of_ev_reads_other by discriminate.
    rewrite writes_of_ev_reads. split; reflexivity.
  - inversion Hpre as [|? ? Hx Hpre']; subst.
    apply Z.eqb_neq in Hx. rewrite Hx. cbn [negb]. cbv beta iota.
    set (s2 := fun r' => if reg_eqb MBOX0_DATA r'
                         then pre ++ w :: rest else s1 r').
    assert (Hs2 : s2 MBOX0_DATA = pre ++ w :: rest) by reflexivity.
    assert (Hn2 : (length pre < n)%nat) by (simpl in Hn; lia).
    assert (Hf2 : (length (s2 MBOX0_STATUS_EMPTY) < fuel)%nat).
    { unfold s2. rewrite reg_eqb_neq by discriminate. lia. }
    destruct (IH n s2 w rest Hs2 eq_refl Hpre' Hn2 Hf2)
      as (s' & t & Hit & Hrest & Hreads & Hwrites).
    rewrite Hit. eexists _, _. split; [reflexivity|].
    split; [exact Hrest|].
    rewrite !reads_of_app, !writes_of_app, Hreads, Hwrites.
    rewrite reads_of_ev_reads_other by discriminate.
    rewrite writes_of_ev_reads. split; reflexivity.
Qed.

(** C2: [mbox_call] returns only on a word equal to the word it pushed.
    On any hardware, a call that returns has written the word once, its last
    action is the read of a word equal to it, and every word it read from
    the FIFO before differs from it.  And for every stream of words in the
    read FIFO (scripted hardware, whatever the status flags do before they
    read ready) in which words that differ from the word pushed are followed
    by a word equal to it, the call returns, having taken exactly those
    words off the FIFO: the words that differ are dropped, the words behind
    the match are left. *)
Theorem mbox_call_returns_on_pushed_word :
  (forall (D : Type) (h : hw D) (fuel : nat) (chan addr : Z) (d d' : D)
          (t : trace),
      mbox_call h fuel chan addr d = Some (tt, d', t) ->
      exists t0 pre,
        t = t0 ++ [EvRead MBOX0_DATA (wrap32 (Z.lor chan addr))] /\
        writes_of MBOX1_DATA t = [wrap32 (Z.lor chan addr)] /\
        reads_of MBOX0_DATA t = pre ++ [wrap32 (Z.lor chan addr)] /\
        Forall (fun w => w <> wrap32 (Z.lor chan addr)) pre)
  /\
  (forall (s : script) (chan addr : Z) (pre : list Z) (w : Z)
          (rest : list Z),
      s MBOX0_DATA = pre ++ w :: rest ->
      wrap32 w = wrap32 (Z.lor chan addr) ->
      Forall (fun x => wrap32 x <> wrap32 (Z.lor chan addr)) pre ->
      exists fuel s' t,
        mbox_call scripted fuel chan addr s = Some (tt, s', t) /\
        s' MBOX0_DATA = rest /\
        reads_of MBOX0_DATA t
        = map wrap32 pre ++ [wrap32 (Z.lor chan addr)]).
Proof.
  split.
  - intros D h fuel chan addr d d' t H.
    rewrite mbox_call_unfold in H.
    destruct (spin fuel _ d) as [[[u d1] t1]|] eqn:Es; [|discriminate].
    destruct (wait_response h fuel fuel _ _) as [[[u3 d3] t3]|] eqn:El;
      [|discriminate].
    inversion H; subst; clear H.
    destruct u.
    apply (spin_poll_inv h MBOX0_STATUS_FULL (fun v => negb (v =? 0)))
      in Es as (ws & w & -> & _ & _).
    apply wait_response_inv in El as (t0 & pre & -> & Hr & Hpre & Hw).
    exists (ev_reads MBOX0_STATUS_FULL (ws ++ [w]) ++
            EvWrite MBOX1_DATA (wrap32 (Z.lor chan addr)) :: t0), pre.
    split; [now rewrite <- app_assoc|].
    change (EvWrite MBOX1_DATA (wrap32 (Z.lor chan addr))
              :: t0 ++ [EvRead MBOX0_DATA (wrap32 (Z.lor chan addr))])
      with ([EvWrite MBOX1_DATA (wrap32 (Z.lor chan addr))] ++
            t0 ++ [EvRead MBOX0_DATA (wrap32 (Z.lor chan addr))]).
    rewrite !(writes_of_app _ (ev_reads _ _)), !(reads_of_app _ (ev_reads _ _)).
    rewrite (writes_of_app _ [_]), (reads_of_app _ [_]).
    rewrite Hw, Hr, writes_of_ev_reads.
    rewrite reads_of_ev_reads_other by discriminate.
    repeat split; auto.
  - intros s chan addr pre w rest Hs Hw Hpre.
    set (fuel := S (Nat.max (length (s MBOX0_STATUS_FULL))
                      (Nat.max (length (s MBOX0_STATUS_EMPTY)) (length pre)))).
    destruct (spin_scripted MBOX0_STATUS_FULL (fun v => negb (v =? 0))
                eq_refl fuel s ltac:(unfold fuel; lia))
      as (s1 & vs & Hspin & Hother & _).
    destruct (wait_response_scripted fuel (wrap32 (Z.lor chan addr))
                pre fuel s1 w rest) as (s' & t & Hit & Hrest & Hreads & _);
      auto.
    { rewrite Hother by discriminate. exact Hs. }
    { unfold fuel; lia. }
    { rewrite Hother by discriminate. unfold fuel; lia. }
    exists fuel, s'. eexists. rewrite mbox_call_unfold.
    change (poll scripted MBOX0_STATUS_FULL (fun v => negb (v =? 0)))
      with (nonzero (rd scripted MBOX0_STATUS_FULL)) in Hspin.
    rewrite Hspin. simpl hw_write. rewrite Hit.
    split; [reflexivity|]. split; [exact Hrest|].
    change (EvWrite MBOX1_DATA (wrap32 (Z.lor chan addr)) :: t)
      with ([EvWrite MBOX1_DATA (wrap32 (Z.lor chan addr))] ++ t).
    rewrite !reads_of_app, Hreads.
    rewrite reads_of_ev_reads_other by discriminate. reflexivity.
Qed.

(** A run for C2: the FIFO holds 5, 7, 24 and 9, the word pushed is 24. *)
Lemma mbox_call_returns_on_pushed_word_witness :
  exists fuel s' t,
    mbox_call scripted fuel 8 16
      (script_of [(MBOX0_STATUS_EMPTY, [1; 1]); (MBOX0_DATA, [5; 7; 24; 9])])
    = Some (tt, s', t) /\
    s' MBOX0_DATA = [9] /\
    reads_of MBOX0_DATA t = [5; 7; 24] /\
    writes_of MBOX1_DATA t = [24].
Proof.
  destruct mbox_call_returns_on_pushed_word as [A B].
  destruct (B (script_of [(MBOX0_STATUS_EMPTY, [1; 1]);
                          (MBOX0_DATA, [5; 7; 24; 9])])
              8 16 [5; 7] 24 [9] eq_refl eq_refl)
    as (fuel & s' & t & H & Hrest & Hreads).
  { repeat constructor; intros E; vm_compute in E; discriminate E. }
  exists fuel, s', t. split; [exact H|]. split; [exact Hrest|].
  split; [exact Hreads|].
  destruct (A _ _ _ _ _ _ _ _ H) as (t0 & pre & _ & Hw & _).
  exact Hw.
Defined.

(* ================================================================== *)
(** * Blocking operations never give up *)

Section Stuck.
Context {D : Type} (h : hw D).

(** The states the hardware can be in from where the operation starts:
    a set closed under the reads and writes of the program. *)
Variable Inv : D -> Prop.
Hypothesis Inv_read : forall r d, Inv d -> Inv (snd (hw_read h r d)).
Hypothesis Inv_write : forall r v d, Inv d -> Inv (hw_write h r v d).

Lemma spin_poll_stuck r p :
  (forall d, Inv d -> p (wrap32 (fst (hw_read h r d))) = true) ->
  forall n d, Inv d -> spin n (poll h r p) d = None.
Proof.
  intros Hp. induction n as [|n IH]; intros d Hd; [reflexivity|].
  assert (Hpoll : poll h r p d =
                  Some (p (wrap32 (fst (hw_read h r d))),
                        snd (hw_read h r d),
                        [EvRead r (wrap32 (fst (hw_read h r d)))])).
  { unfold poll, bind, rd, ret. destruct (hw_read h r d); reflexivity. }
  rewrite (Hp d Hd) in Hpoll.
  unfold spin. rewrite iter_S, bind_assoc.
  rewrite (bind_Some _ _ _ _ _ _ Hpoll). cbv beta.
  unfold bind at 1. unfold ret at 1. cbv beta iota.
  specialize (IH _ (Inv_read r d Hd)). unfold spin in IH. now rewrite IH.
Qed.

Lemma spin_poll_keeps_Inv r p n d u d' t :
  spin n (poll h r p) d = Some (u, d', t) -> Inv d -> Inv d'.
Proof.
  revert d t. induction n as [|n IH]; intros d t H Hd; [discriminate|].
  unfold spin in H. rewrite iter_S in H.
  apply bind_inv in H as (a & d1 & t1 & t2 & Hb & Hk & ->).
  apply bind_inv in Hb as (b & d0 & t0 & t0' & Hc & Hr & ->).
  unfold poll in Hc.
  apply bind_inv in Hc as (v & dv & tv & tv' & Hrd & Hp & ->).
  apply rd_inv in Hrd as (_ & _ & ->).
  unfold ret in Hp, Hr. inversion Hp; subst. inversion Hr; subst.
  destruct (p v).
  - eapply IH; eauto.
  - inversion Hk; subst. auto.
Qed.

Lemma mbox_read_stuck :
  (forall d, Inv d -> wrap32 (fst (hw_read h MBOX0_STATUS_EMPTY d)) <> 0) ->
  forall fuel d, Inv d -> mbox_read h fuel d = None.
Proof.
  intros He fuel d Hd. unfold mbox_read.
  assert (Hs : spin fuel (nonzero (rd h MBOX0_STATUS_EMPTY)) d = None).
  { apply (spin_poll_stuck MBOX0_STATUS_EMPTY (fun v => negb (v =? 0)));
      auto.
    intros d0 Hd0. apply negb_true_iff, Z.eqb_neq. auto. }
  rewrite (bind_Some _ _ d tt d [EvBarrier] eq_refl). cbv beta.
  now rewrite (bind_None _ _ _ Hs).
Qed.

Lemma mbox_call_stuck :
  (forall d, Inv d -> wrap32 (fst (hw_read h MBOX0_STATUS_EMPTY d)) <> 0) ->
  forall fuel chan addr d, Inv d -> mbox_call h fuel chan addr d = None.
Proof.
  intros He fuel chan addr d Hd. rewrite mbox_call_unfold.
  destruct (spin fuel _ d) as [[[u d1] t1]|] eqn:Es; [|reflexivity].
  apply (spin_poll_keeps_Inv MBOX0_STATUS_FULL (fun v => negb (v =? 0)))
    in Es; auto.
  set (d2 := hw_write h MBOX1_DATA (wrap32 (Z.lor chan addr)) d1).
  assert (Hs : spin fuel (nonzero (rd h MBOX0_STATUS_EMPTY)) d2 = None).
  { apply (spin_poll_stuck MBOX0_STATUS_EMPTY (fun v => negb (v =? 0)));
      unfold d2; auto.
    intros d0 Hd0. apply negb_true_iff, Z.eqb_neq. auto. }
  destruct fuel as [|n]; [reflexivity|].
  unfold wait_response. rewrite iter_S.
  rewrite bind_None; [reflexivity|].
  rewrite (bind_Some _ _ _ tt _ [EvBarrier] eq_refl). cbv beta.
  now rewrite (bind_None _ _ _ Hs).
Qed.

Lemma mbox_write_stuck :
  (forall d, Inv d -> wrap32 (fst (hw_read h MBOX0_STATUS_FULL d)) <> 0) ->
  forall fuel chan addr d, Inv d -> mbox_write h fuel chan addr d = None.
Proof.
  intros He fuel chan addr d Hd. unfold mbox_write. apply bind_None.
  apply (spin_poll_stuck MBOX0_STATUS_FULL (fun v => negb (v =? 0)));
    auto.
  intros d0 Hd0. apply negb_true_iff, Z.eqb_neq. auto.
Qed.

Lemma spisl_read_stuck :
  (forall d, Inv d ->
             raised PCM_CS_reg.RXD (wrap32 (fst (hw_read h PCM_CS d)))
             = false) ->
  forall fuel d, Inv d -> spisl_read h fuel d = None.
Proof.
  intros He fuel d Hd. unfold spisl_read. apply bind_None.
  rewrite (spin_ext _ _ (is_zero_field_poll h PCM_CS PCM_CS_reg.RXD)).
  apply spin_poll_stuck; auto.
  intros d0 Hd0. now rewrite He.
Qed.
End Stuck.

(** C8: no blocking operation of the mailbox or of the SPI slave gives
    up.  Take any hardware and any set of its states that the reads and
    writes of the program do not leave.  If in all of them the read FIFO
    reports empty, [mbox_read] and [mbox_call] started in one of them have
    no result, whatever the bound on their loops; if the write FIFO reports
    full, neither has [mbox_write]; if receive-data-available reads clear,
    neither has [spisl_read]. *)
Theorem blocking_operations_never_give_up
        {D : Type} (h : hw D) (Inv : D -> Prop) :
  (forall r d, Inv d -> Inv (snd (hw_read h r d))) ->
  (forall r v d, Inv d -> Inv (hw_write h r v d)) ->
  ((forall d, Inv d -> wrap32 (fst (hw_read h MBOX0_STATUS_EMPTY d)) <> 0) ->
   forall fuel chan addr d, Inv d ->
     mbox_read h fuel d = None /\ mbox_call h fuel chan addr d = None)
  /\
  ((forall d, Inv d -> wrap32 (fst (hw_read h MBOX0_STATUS_FULL d)) <> 0) ->
   forall fuel chan addr d, Inv d -> mbox_write h fuel chan addr d = None)
  /\
  ((forall d, Inv d ->
      raised PCM_CS_reg.RXD (wrap32 (fst (hw_read h PCM_CS d))) = false) ->
   forall fuel d, Inv d -> spisl_read h fuel d = None).
Proof.
  intros Hr Hw. split; [|split].
  - intros He fuel chan addr d Hd. split.
    + eapply mbox_read_stuck; eauto.
    + eapply mbox_call_stuck; eauto.
  - intros He fuel chan addr d Hd. eapply mbox_write_stuck; eauto.
  - intros He fuel d Hd. eapply spisl_read_stuck; eauto.
Qed.

(** An instance of C8: hardware whose status never changes. *)
Lemma blocking_operations_never_give_up_witness :
  mbox_read stuck_hw 1000 tt = None /\
  mbox_call stuck_hw 1000 8 16 tt = None /\
  mbox_write stuck_hw 1000 8 16 tt = None /\
  spisl_read stuck_hw 1000 tt = None.
Proof.
  destruct (blocking_operations_never_give_up stuck_hw (fun _ => True)
              (fun _ _ _ => I) (fun _ _ _ _ => I)) as (A & B & C).
  assert (H1 : forall d : unit, True ->
               wrap32 (fst (hw_read stuck_hw MBOX0_STATUS_EMPTY d)) <> 0)
    by (intros d _ E; vm_compute in E; discriminate E).
  assert (H2 : forall d : unit, True ->
               wrap32 (fst (hw_read stuck_hw MBOX0_STATUS_FULL d)) <> 0)
    by (intros d _ E; vm_compute in E; discriminate E).
  assert (H3 : forall d : unit, True ->
               raised PCM_CS_reg.RXD (wrap32 (fst (hw_read stuck_hw PCM_CS d)))
               = false)
    by (intros d _; reflexivity).
  destruct (A H1 1000%nat 8 16 tt I) as [A1 A2].
  split; [exact A1|]. split; [exact A2|].
  split; [exact (B H2 1000%nat 8 16 tt I)|exact (C H3 1000%nat tt I)].
Defined.

(* ================================================================== *)
(** * The property buffer across a call *)

Lemma land_ones_low v n : 0 <= n -> Z.land v (2 ^ n - 1) = v mod 2 ^ n.
Proof.
  intros Hn. replace (2 ^ n - 1) with (Z.ones n)
    by (rewrite Z.ones_equiv; lia).
  now apply Z.land_ones.
Qed.

(** After the two bit-field stores of [mbox_property_call] the word shared
    by [response_length] and [has_response] does not depend on what it held
    before. *)
Lemma response_word_fresh v w :
  wrap32 (field_set (fst has_response) (snd has_response) 0
            (wrap32 (field_set (fst response_length) (snd response_length)
                       v w)))
  = v mod 2 ^ 31.
Proof.
  unfold field_set, has_response, response_length, field_mask, wrap32.
  cbn [fst snd].
  rewrite <- (land_ones_low v 31) by lia.
  rewrite <- !land_ones_low by lia.
  change (Z.land 0 (2 ^ 1 - 1)) with 0.
  rewrite Z.shiftl_0_l, Z.lor_0_r, Z.shiftl_0_r.
  apply Z.bits_inj'. intros n Hn.
  change (2 ^ 32 - 1) with (Z.ones 32).
  change (2 ^ 31 - 1) with (Z.ones 31).
  change (2 ^ 1 - 1) with (Z.ones 1).
  repeat (rewrite ?Z.land_spec, ?Z.lor_spec, ?Z.lnot_spec,
            ?Z.shiftl_spec, ?Z.sub_0_r by lia).
  destruct (Z.ltb_spec n 31) as [H31|H31].
  - rewrite (Z.ones_spec_low 31), (Z.ones_spec_low 32) by lia.
    rewrite (Z.testbit_neg_r _ (n - 31)) by lia.
    cbn [negb]. rewrite !andb_true_r, andb_false_r. reflexivity.
  - rewrite (Z.ones_spec_high 31) by lia.
    destruct (Z.ltb_spec n 32) as [H32|H32].
    + assert (n = 31) by lia; subst n.
      change (31 - 31) with 0. rewrite (Z.ones_spec_low 1) by lia.
      cbn [negb]. rewrite !andb_false_r. reflexivity.
    + rewrite (Z.ones_spec_high 32) by lia.
      rewrite !andb_false_r. reflexivity.
Qed.

Lemma wrap32_clock_id c : wrap32 (clock_id c) = clock_id c.
Proof. destruct c; reflexivity. Qed.

Section PropertyCall.
Context {D : Type} (h : hw D) (ch : Z).

Lemma mbox_call_submits_nothing fuel addr d u d' t :
  mbox_call h fuel ch addr d = Some (u, d', t) -> submitted t = [].
Proof.
  intros H. rewrite mbox_call_unfold in H.
  destruct (spin fuel _ d) as [[[u0 d1] t1]|] eqn:Es; [|discriminate].
  destruct (wait_response h fuel fuel _ _) as [[[u3 d3] t3]|] eqn:El;
    [|discriminate].
  unfold wait_response in El.
  inversion H; subst; clear H.
  destruct u0.
  apply (spin_poll_inv h MBOX0_STATUS_FULL (fun v => negb (v =? 0)))
    in Es as (ws & w & -> & _ & _).
  rewrite submitted_app, submitted_ev_reads. simpl.
  clear - El. revert El. generalize fuel at 1. intros n.
  set (d2 := hw_write h MBOX1_DATA (wrap32 (Z.lor ch addr)) d1).
  clearbody d2. revert d2 t3.
  induction n as [|n IH]; intros d2 t3 H; [discriminate|].
  rewrite iter_S in H.
  apply bind_inv in H as (a & d4 & t1 & t2 & Hb & Hk & ->).
  apply bind_inv in Hb as (? & d5 & tb & t4 & Hbar & Hb & ->).
  apply bind_inv in Hb as (? & d6 & ts & t5 & Hs & Hb & ->).
  apply bind_inv in Hb as (v & d7 & tr & t6 & Hr & Hret & ->).
  unfold memory_barrier in Hbar. inversion Hbar; subst; clear Hbar.
  destruct x0.
  apply (spin_poll_inv h MBOX0_STATUS_EMPTY (fun v => negb (v =? 0)))
    in Hs as (ws & w & -> & _ & _).
  apply rd_inv in Hr as (-> & _ & _).
  unfold ret in Hret. inversion Hret; subst; clear Hret.
  rewrite !submitted_app, submitted_ev_reads. simpl.
  destruct (negb (v =? wrap32 (Z.lor ch addr))).
  - now apply IH in Hk.
  - inversion Hk; subst. reflexivity.
Qed.
End PropertyCall.

(* ================================================================== *)
(** * The PCM byte operations *)

Import PCM_CS_reg PCM_MODE_reg.

Lemma wrap8_range z : 0 <= wrap8 z < 2 ^ 8.
Proof. unfold wrap8; apply Z.mod_pos_bound; lia. Qed.

Lemma wrap32_wrap8 z : wrap32 (wrap8 z) = wrap8 z.
Proof. apply wrap32_small. pose proof (wrap8_range z). lia. Qed.

Section SpislFacts.
Context {D : Type} (h : hw D).

Lemma poll_inv r p d b d' t :
  poll h r p d = Some (b, d', t) ->
  exists v, t = [EvRead r v] /\ b = p v.
Proof.
  unfold poll. intros H.
  apply bind_inv in H as (v & d1 & t1 & t2 & Hr & Hp & ->).
  apply rd_inv in Hr as (-> & _ & _).
  unfold ret in Hp. exists v. split; [|congruence].
  assert (t2 = []) by congruence. now subst.
Qed.

Lemma wr_inv r v d u d' t :
  wr h r v d = Some (u, d', t) -> t = [EvWrite r (wrap32 v)].
Proof. unfold wr. congruence. Qed.

Lemma memory_barrier_inv (d : D) u d' t :
  memory_barrier d = Some (u, d', t) -> t = [EvBarrier].
Proof. unfold memory_barrier. congruence. Qed.

Lemma wr_field_inv r f v d u d' t :
  wr_field h r f v d = Some (u, d', t) ->
  exists w, t = ev_wr_field r f v w.
Proof.
  unfold wr_field. intros H.
  apply bind_inv in H as (w & d1 & t1 & t2 & Hr & Hw & ->).
  apply rd_inv in Hr as (-> & _ & _). apply wr_inv in Hw as ->.
  now exists w.
Qed.

Lemma gpio_configure_inv gpio function d u d' t :
  gpio_configure h gpio function d = Some (u, d', t) ->
  exists w, t = ev_gpio_configure gpio function w.
Proof.
  unfold gpio_configure. intros H.
  apply bind_inv in H as (w & d1 & t1 & t2 & Hr & Hw & ->).
  apply rd_inv in Hr as (-> & _ & _). apply wr_inv in Hw as ->.
  now exists w.
Qed.

(** A wait for a flag to rise, and a wait for it to fall. *)
Lemma wait_raised_inv r f fuel d u d' t :
  spin fuel (is_zero (rd_field h r f)) d = Some (u, d', t) ->
  exists ws w,
    t = ev_reads r (ws ++ [w]) /\
    Forall (fun x => raised f x = false) ws /\ raised f w = true.
Proof.
  rewrite (spin_ext _ _ (is_zero_field_poll h r f)). destruct u.
  intros H. apply spin_poll_inv in H as (ws & w & -> & Hws & Hw).
  exists ws, w. split; [reflexivity|]. split.
  - eapply Forall_impl; [|exact Hws]. intros a Ha.
    now apply negb_true_iff in Ha.
  - now apply negb_false_iff in Hw.
Qed.

Lemma wait_cleared_inv r f fuel d u d' t :
  spin fuel (nonzero (rd_field h r f)) d = Some (u, d', t) ->
  exists ws w,
    t = ev_reads r (ws ++ [w]) /\
    Forall (fun x => raised f x = true) ws /\ raised f w = false.
Proof.
  rewrite (spin_ext _ _ (nonzero_field_poll h r f)). destruct u.
  intros H. now apply spin_poll_inv in H.
Qed.

Lemma st_delay_inv fuel delay d u d' t :
  st_delay h fuel delay d = Some (u, d', t) ->
  exists start early last_now,
    t = EvRead ST_CLO start :: ev_reads ST_CLO (early ++ [last_now]) /\
    Forall (fun now => st_elapsed start now delay = false) early /\
    st_elapsed start last_now delay = true.
Proof.
  unfold st_delay. intros H. destruct u.
  apply bind_inv in H as (start & d1 & t1 & t2 & Hr & Hs & ->).
  apply rd_inv in Hr as (-> & _ & _).
  apply (spin_poll_inv h ST_CLO
           (fun now => negb (st_elapsed start now delay)))
    in Hs as (ws & w & -> & Hws & Hw).
  exists start, ws, w. split; [reflexivity|]. split.
  - eapply Forall_impl; [|exact Hws]. intros a Ha.
    now apply negb_true_iff in Ha.
  - now apply negb_false_iff in Hw.
Qed.

Lemma drain_rx_inv :
  forall fuel d u d' t,
    drain_rx h fuel d = Some (u, d', t) ->
    exists ps w,
      t = ev_drain ps ++ [EvRead PCM_CS w] /\
      Forall (fun p => raised RXD (fst p) = true) ps /\
      raised RXD w = false.
Proof.
  unfold drain_rx.
  induction fuel as [|n IH]; intros d u d' t H; [discriminate|].
  rewrite iter_S in H.
  apply bind_inv in H as (a & d1 & t1 & t2 & Hb & Hk & ->).
  apply bind_inv in Hb as (b & d2 & t3 & t4 & Hc & Hb & ->).
  rewrite nonzero_field_poll in Hc.
  apply poll_inv in Hc as (w & -> & ->).
  destruct (raised RXD w) eqn:Ew.
  - apply bind_inv in Hb as (v & d3 & t5 & t6 & Hr & Hret & ->).
    apply rd_inv in Hr as (-> & _ & _).
    unfold ret in Hret.
    assert (a = inl tt) by congruence. assert (t6 = []) by congruence.
    subst a t6. apply IH in Hk as (ps & wl & -> & Hps & Hwl).
    exists ((w, v) :: ps), wl. split; [reflexivity|]. split; auto.
  - unfold ret in Hb.
    assert (a = inr tt) by congruence. assert (t4 = []) by congruence.
    subst a t4. unfold ret in Hk. assert (t2 = []) by congruence. subst t2.
    exists [], w. split; [reflexivity|]. split; auto.
Qed.

Lemma spisl_read_inv fuel d b d' t :
  spisl_read h fuel d = Some (b, d', t) ->
  exists ws w v,
    t = ev_reads PCM_CS (ws ++ [w]) ++ [EvRead PCM_FIFO v] /\
    b = wrap8 v /\
    Forall (fun x => raised RXD x = false) ws /\ raised RXD w = true.
Proof.
  unfold spisl_read. intros H.
  apply bind_inv in H as (u & d1 & t1 & t2 & Hs & Hk & ->).
  apply wait_raised_inv in Hs as (ws & w & -> & Hws & Hw).
  apply bind_inv in Hk as (v & d2 & t3 & t4 & Hr & Hret & ->).
  apply rd_inv in Hr as (-> & _ & _). unfold ret in Hret.
  assert (b = wrap8 v) by congruence. assert (t4 = []) by congruence.
  subst. exists ws, w, v. auto.
Qed.

Lemma spisl_write_inv fuel data d u d' t :
  spisl_write h fuel data d = Some (u, d', t) ->
  exists ws w ps wl,
    t = ev_reads PCM_CS (ws ++ [w]) ++ [EvWrite PCM_FIFO (wrap8 data)] ++
        ev_drain ps ++ [EvRead PCM_CS wl] /\
    Forall (fun x => raised TXD x = false) ws /\ raised TXD w = true /\
    Forall (fun p => raised RXD (fst p) = true) ps /\
    raised RXD wl = false.
Proof.
  unfold spisl_write. intros H.
  apply bind_inv in H as (u1 & d1 & t1 & t2 & Hs & Hk & ->).
  apply wait_raised_inv in Hs as (ws & w & -> & Hws & Hw).
  apply bind_inv in Hk as (u2 & d2 & t3 & t4 & Hwr & Hdr & ->).
  apply wr_inv in Hwr as ->. rewrite wrap32_wrap8.
  apply drain_rx_inv in Hdr as (ps & wl & -> & Hps & Hwl).
  exists ws, w, ps, wl. auto.
Qed.
End SpislFacts.

Lemma reads_of_ev_drain ps : reads_of PCM_FIFO (ev_drain ps) = map snd ps.
Proof. induction ps as [|p ps IH]; simpl; [|rewrite IH]; reflexivity. Qed.

Lemma writes_of_ev_drain r ps : writes_of r (ev_drain ps) = [].
Proof. induction ps as [|p ps IH]; simpl; auto. Qed.

(** C3, as stated, fails: with two bytes waiting in the receive FIFO when
    the byte is written (receive-data-available raised on the first two
    polls after the write), [spisl_write] takes both off the FIFO. *)
Lemma spisl_write_drains_two_bytes :
  observe (spisl_write scripted 4 5
             (script_of [(PCM_CS, [CS_TXD; CS_RXD; CS_RXD; CS_IDLE]);
                         (PCM_FIFO, [1; 2; 3])]))
  = Some (tt, [EvRead PCM_CS CS_TXD; EvWrite PCM_FIFO 5;
               EvRead PCM_CS CS_RXD; EvRead PCM_FIFO 1;
               EvRead PCM_CS CS_RXD; EvRead PCM_FIFO 2;
               EvRead PCM_CS CS_IDLE])
  /\
  option_map (fun r => length (reads_of PCM_FIFO (snd r)))
    (observe (spisl_write scripted 4 5
                (script_of [(PCM_CS, [CS_TXD; CS_RXD; CS_RXD; CS_IDLE]);
                            (PCM_FIFO, [1; 2; 3])])))
  = Some 2%nat.
Proof. split; vm_compute; reflexivity. Qed.

(** C3 (amended): [spisl_write] drains the receive FIFO for as long as the
    hardware reports receive-data-available.  A call that returns has
    polled for transmit-data-available until it was raised, written the
    byte, and then read one word from the FIFO after every poll that found
    receive-data-available raised, up to the first poll that found it clear,
    after which it has read nothing more: it has drained as many bytes as
    polls found the flag raised, one byte exactly when the flag was raised
    at the write and clear at the next poll. *)
Theorem spisl_write_drains_while_rx_available
        {D : Type} (h : hw D) (fuel : nat) (data : Z) (d d' : D) (t : trace) :
  spisl_write h fuel data d = Some (tt, d', t) ->
  exists ws w ps wl,
    t = ev_reads PCM_CS (ws ++ [w]) ++ [EvWrite PCM_FIFO (wrap8 data)] ++
        ev_drain ps ++ [EvRead PCM_CS wl] /\
    Forall (fun x => raised TXD x = false) ws /\ raised TXD w = true /\
    Forall (fun p => raised RXD (fst p) = true) ps /\
    raised RXD wl = false /\
    reads_of PCM_FIFO t = map snd ps /\
    writes_of PCM_FIFO t = [wrap8 data].
Proof.
  intros H. apply spisl_write_inv in H as (ws & w & ps & wl & -> & H).
  exists ws, w, ps, wl. split; [reflexivity|].
  destruct H as (H1 & H2 & H3 & H4). repeat (split; [assumption|]).
  rewrite !reads_of_app, !writes_of_app.
  rewrite reads_of_ev_reads_other by discriminate.
  rewrite writes_of_ev_reads, reads_of_ev_drain, writes_of_ev_drain.
  simpl. now rewrite app_nil_r.
Qed.

(** A run for C3: one byte waiting when the byte is written. *)
Lemma spisl_write_drains_while_rx_available_witness :
  exists d' t,
    spisl_write scripted 4 5
      (script_of [(PCM_CS, [CS_IDLE; CS_TXD; CS_RXD; CS_IDLE]);
                  (PCM_FIFO, [1; 2; 3])]) = Some (tt, d', t) /\
    length (reads_of PCM_FIFO t) = 1%nat.
Proof.
  destruct (spisl_write scripted 4 5
              (script_of [(PCM_CS, [CS_IDLE; CS_TXD; CS_RXD; CS_IDLE]);
                          (PCM_FIFO, [1; 2; 3])]))
    as [[[[] d'] t]|] eqn:E; [|vm_compute in E; discriminate E].
  exists d', t. split; [reflexivity|].
  destruct (spisl_write_drains_while_rx_available _ _ _ _ _ _ E)
    as (ws & w & ps & wl & Ht & _ & _ & _ & _ & Hr & _).
  assert (F : match spisl_write scripted 4 5
                      (script_of [(PCM_CS, [CS_IDLE; CS_TXD; CS_RXD; CS_IDLE]);
                                  (PCM_FIFO, [1; 2; 3])]) with
              | Some (_, _, t0) => length (reads_of PCM_FIFO t0) = 1%nat
              | None => False
              end) by (vm_compute; reflexivity).
  rewrite E in F. exact F.
Defined.

(* ================================================================== *)
(** * The byte synchronizer: the counting loop *)

Lemma removelast_cons {A : Type} (x y : A) (l : list A) :
  removelast (x :: y :: l) = x :: removelast (y :: l).
Proof. reflexivity. Qed.

Lemma last_cons {A : Type} (x y : A) (l : list A) (dflt : A) :
  last (x :: y :: l) dflt = last (y :: l) dflt.
Proof. reflexivity. Qed.

Section SyncCount.
Context {D : Type} (h : hw D).

(** The clock gating of a mismatch reads no byte. *)
Lemma sync_body_inv fuel cnt incoming d cnt' inc' d' t :
  sync_body h fuel cnt incoming d = Some ((cnt', inc'), d', t) ->
  cnt' = (if incoming =? marker then cnt else 0) /\
  exists v, reads_of PCM_FIFO t = [v] /\ inc' = wrap8 v.
Proof.
  unfold sync_body. intros H.
  apply bind_inv in H as (c & d1 & t1 & t2 & Hc & Hk & ->).
  apply bind_inv in Hk as (b & d2 & t3 & t4 & Hr & Hret & ->).
  apply spisl_read_inv in Hr as (ws & w & v & -> & -> & _ & _).
  unfold ret in Hret.
  assert (c = cnt') by congruence. assert (wrap8 v = inc') by congruence.
  assert (t4 = []) by congruence. subst c inc' t4.
  assert (Hg : cnt' = (if incoming =? marker then cnt else 0) /\
               reads_of PCM_FIFO t1 = []).
  { destruct (incoming =? marker); cbn [negb] in Hc; cbv beta iota in Hc.
    - unfold ret in Hc. assert (t1 = []) by congruence. subst t1.
      split; [congruence|reflexivity].
    - apply bind_inv in Hc as (u1 & d3 & t5 & t6 & H1 & Hc & ->).
      apply bind_inv in Hc as (u2 & d4 & t7 & t8 & H2 & Hc & ->).
      apply bind_inv in Hc as (u3 & d5 & t9 & t10 & H3 & Hc & ->).
      apply wr_field_inv in H1 as (w1 & ->).
      apply st_delay_inv in H2 as (start & early & ln & -> & _ & _).
      apply wr_field_inv in H3 as (w3 & ->).
      unfold ret in Hc. split; [congruence|].
      assert (t10 = []) by congruence. subst t10.
      rewrite !reads_of_app.
      change (EvRead ST_CLO start :: ev_reads ST_CLO (early ++ [ln]))
        with (ev_reads ST_CLO (start :: early ++ [ln])).
      rewrite reads_of_ev_reads_other by discriminate. reflexivity. }
  destruct Hg as [Hcnt Hreads]. split; [exact Hcnt|].
  exists v. split; [|reflexivity].
  rewrite !reads_of_app, Hreads.
  rewrite reads_of_ev_reads_other by discriminate. reflexivity.
Qed.

(** The loop from the counter [c] and the byte [b]: when it is left, the
    bytes examined are either markers only, as many as the counter was
    short of 10, or end with a byte that is not the marker followed by
    10 markers. *)
Lemma sync_count_inv fuel :
  forall n c b d cf inc d' t,
    0 <= c <= 10 ->
    iter n
      (fun s : Z * Z =>
         if fst s <? 10 then
           s' <- sync_body h fuel (fst s + 1) (snd s) ;; ret (inl s')
         else ret (inr (fst s + 1, snd s)))
      (c, b) d = Some ((cf, inc), d', t) ->
    let bytes := b :: map wrap8 (reads_of PCM_FIFO t) in
    cf = 11 /\ inc = last bytes 0 /\
    (removelast bytes = repeat marker (Z.to_nat (10 - c)) \/
     exists pre x,
       removelast bytes = (pre ++ [x]) ++ repeat marker 10 /\
       x <> marker).
Proof.
  induction n as [|n IH]; intros c b d cf inc d' t Hc H; [discriminate|].
  rewrite iter_S in H. cbn [fst snd] in H.
  destruct (c <? 10) eqn:E10.
  - apply Z.ltb_lt in E10.
    apply bind_inv in H as (a & d1 & t1 & t2 & Hb & Hk & ->).
    apply bind_inv in Hb as ([c1 b1] & d2 & t3 & t4 & Hbody & Hret & ->).
    unfold ret in Hret.
    assert (a = inl (c1, b1)) by congruence.
    assert (t4 = []) by congruence. assert (d2 = d1) by congruence.
    subst a t4 d2.
    apply sync_body_inv in Hbody as (Hc1 & v & Hv & ->).
    assert (Hc1' : 0 <= c1 <= 10) by (destruct (b =? marker); lia).
    specialize (IH c1 (wrap8 v) d1 cf inc d' t2 Hc1' Hk).
    cbv zeta in IH. destruct IH as (Hcf & Hinc & Hex).
    cbv zeta. rewrite !reads_of_app, Hv, app_nil_r.
    cbn [app map]. rewrite removelast_cons, last_cons.
    split; [exact Hcf|]. split; [exact Hinc|].
    destruct (b =? marker) eqn:Eb.
    + apply Z.eqb_eq in Eb. subst b c1.
      destruct Hex as [Hex|(pre & x & Hex & Hx)].
      * left. rewrite Hex.
        replace (Z.to_nat (10 - c)) with (S (Z.to_nat (10 - (c + 1))))
          by lia.
        reflexivity.
      * right. exists (marker :: pre), x. rewrite Hex. split; auto.
    + apply Z.eqb_neq in Eb. subst c1.
      destruct Hex as [Hex|(pre & x & Hex & Hx)].
      * right. exists [], b. rewrite Hex. split; auto.
      * right. exists (b :: pre), x. rewrite Hex. split; auto.
  - apply Z.ltb_ge in E10. assert (c = 10) by lia. subst c.
    unfold bind, ret in H. simpl in H.
    assert (cf = 11) by congruence. assert (inc = b) by congruence.
    assert (t = []) by congruence. subst.
    cbv zeta. simpl. auto.
Qed.
End SyncCount.

(** C4: the counting loop of [spisl_synchronize].  A pass through the
    body entered with the counter at [cnt] (so [cnt + 1] after the
    increment of the loop test) leaves the counter at [cnt + 1] when the
    byte examined is the marker and at 0 when it is any other byte,
    whatever [cnt] was (0 and not 8 after nine markers and one other byte).
    And when the loop started with the counter at 0 is left, the counter
    reads 11, the bytes examined end with 10 markers, the byte before them,
    if there is one, is not the marker, and the byte read last has not
    been examined. *)
Theorem sync_counter_resets_and_needs_10_markers {D : Type} (h : hw D) :
  (forall fuel cnt incoming d cnt' inc' d' t,
      sync_body h fuel (cnt + 1) incoming d = Some ((cnt', inc'), d', t) ->
      cnt' = if incoming =? marker then cnt + 1 else 0)
  /\
  (forall fuel b d cf inc d' t,
      sync_count h fuel 0 b d = Some ((cf, inc), d', t) ->
      let bytes := b :: map wrap8 (reads_of PCM_FIFO t) in
      cf = 11 /\ inc = last bytes 0 /\
      exists pre,
        removelast bytes = pre ++ repeat marker 10 /\
        (pre = [] \/ last pre marker <> marker)).
Proof.
  split.
  - intros fuel cnt incoming d cnt' inc' d' t H.
    now apply sync_body_inv in H as (H & _).
  - intros fuel b d cf inc d' t H. unfold sync_count in H.
    apply sync_count_inv in H; [|lia].
    cbv zeta in H |- *. destruct H as (Hcf & Hinc & Hex).
    split; [exact Hcf|]. split; [exact Hinc|].
    destruct Hex as [Hex|(pre & x & Hex & Hx)].
    + exists []. split; [exact Hex|now left].
    + exists (pre ++ [x]). split; [exact Hex|]. right.
      now rewrite last_last.
Qed.

(** Runs for C4: a pass with the counter at 9 and a byte that is not the
    marker, and the loop on nine markers, one other byte and ten markers. *)
Lemma sync_counter_resets_and_needs_10_markers_witness :
  (exists cnt' inc' d' t,
      sync_body scripted 30 (9 + 1) 0x42 nine_then_wrong
      = Some ((cnt', inc'), d', t) /\ cnt' = 0)
  /\
  (exists cf inc d' t,
      sync_count scripted 30 0 marker nine_then_wrong
      = Some ((cf, inc), d', t) /\
      cf = 11 /\
      exists pre,
        removelast (marker :: map wrap8 (reads_of PCM_FIFO t))
        = pre ++ repeat marker 10).
Proof.
  destruct (sync_counter_resets_and_needs_10_markers scripted) as [A B].
  split.
  - destruct (sync_body scripted 30 (9 + 1) 0x42 nine_then_wrong)
      as [[[[cnt' inc'] d'] t]|] eqn:E; [|vm_compute in E; discriminate E].
    exists cnt', inc', d', t. split; [reflexivity|].
    exact (A _ _ _ _ _ _ _ _ E).
  - destruct (sync_count scripted 30 0 marker nine_then_wrong)
      as [[[[cf inc] d'] t]|] eqn:E; [|vm_compute in E; discriminate E].
    exists cf, inc, d', t. split; [reflexivity|].
    destruct (B _ _ _ _ _ _ _ E) as (Hcf & _ & pre & Hpre & _).
    split; [exact Hcf|]. exists pre. exact Hpre.
Defined.

(* ================================================================== *)
(** * The order of the PCM reset *)


(** C7: the order of the actions of [spisl_init].  The trace of a call
    that returns is, in this order: the four pins set to input and a
    barrier; the drain of the receive FIFO, up to a poll that finds it
    empty; the store that clears the enable bit; reads of the timer, the
    last of them, and none before it, at least 1 ms after the first; the
    stores to the channel-configuration registers; the stores to the clock
    manager; the store of the master configuration to the mode register,
    the clock enabled, the block enabled; polls of the status register
    until the sync flag is found raised, the store that clears it, polls
    until it is found clear; only then the store of the slave configuration
    to the mode register, and after it the four pins attached between
    barriers. *)
Theorem spisl_init_order
        {D : Type} (h : hw D) (fuel : nat) (d d' : D) (t : trace) :
  spisl_init h fuel d = Some (tt, d', t) ->
  exists g0 g1 g2 g3 ps w0 c_en start early now rc0 rc1 rc2 rc3 tc0 tc1 tc2 tc3
         m1 ws1 w1 c_sync ws2 w2 m2 g4 g5 g6 g7 m3,
    t = init_detach g0 g1 g2 g3 ++ init_drain ps w0 ++ init_disable c_en ++
        init_settle start early now ++
        init_channels rc0 rc1 rc2 rc3 tc0 tc1 tc2 tc3 ++ init_clock ++
        init_master m1 ++ init_sync ws1 w1 c_sync ws2 w2 ++
        init_slave m2 ++ init_attach g4 g5 g6 g7 m3 /\
    Forall (fun p => raised RXD (fst p) = true) ps /\
    raised RXD w0 = false /\
    Forall (fun x => st_elapsed start x ST_1ms = false) early /\
    st_elapsed start now ST_1ms = true /\
    Forall (fun x => raised SYNC x = false) ws1 /\ raised SYNC w1 = true /\
    Forall (fun x => raised SYNC x = true) ws2 /\ raised SYNC w2 = false.
Proof.
  intros H. unfold spisl_init in H.
  peel H G0. peel H G1. peel H G2. peel H G3. peel H B0.
  apply gpio_configure_inv in G0 as (g0 & ->).
  apply gpio_configure_inv in G1 as (g1 & ->).
  apply gpio_configure_inv in G2 as (g2 & ->).
  apply gpio_configure_inv in G3 as (g3 & ->).
  apply memory_barrier_inv in B0 as ->.
  peel H Dr. apply drain_rx_inv in Dr as (ps & w0 & -> & Hps & Hw0).
  peel H En. apply wr_field_inv in En as (c_en & ->).
  peel H Dl.
  apply st_delay_inv in Dl as (start & early & now & -> & Hearly & Hnow).
  peel H W0. peel H W1. peel H W2. peel H W3. peel H W4.
  apply wr_inv in W0 as ->. apply wr_inv in W1 as ->.
  apply wr_inv in W2 as ->. apply wr_inv in W3 as ->.
  apply wr_inv in W4 as ->.
  peel H R0. peel H R1. peel H R2. peel H R3.
  peel H X0. peel H X1. peel H X2. peel H X3.
  apply wr_field_inv in R0 as (rc0 & ->).
  apply wr_field_inv in R1 as (rc1 & ->).
  apply wr_field_inv in R2 as (rc2 & ->).
  apply wr_field_inv in R3 as (rc3 & ->).
  apply wr_field_inv in X0 as (tc0 & ->).
  apply wr_field_inv in X1 as (tc1 & ->).
  apply wr_field_inv in X2 as (tc2 & ->).
  apply wr_field_inv in X3 as (tc3 & ->).
  peel H C0. peel H C1. peel H Mm. peel H M1. peel H Cs.
  apply wr_inv in C0 as ->. apply wr_inv in C1 as ->.
  apply wr_inv in Mm as ->. apply wr_field_inv in M1 as (m1 & ->).
  apply wr_inv in Cs as ->.
  peel H S1. apply wait_raised_inv in S1 as (ws1 & w1 & -> & Hws1 & Hw1).
  peel H Sc. apply wr_field_inv in Sc as (c_sync & ->).
  peel H S2. apply wait_cleared_inv in S2 as (ws2 & w2 & -> & Hws2 & Hw2).
  peel H M2. apply wr_field_inv in M2 as (m2 & ->).
  peel H Ms. apply wr_inv in Ms as ->.
  peel H B1. apply memory_barrier_inv in B1 as ->.
  peel H G4. peel H G5. peel H G6. peel H G7. peel H B2.
  apply gpio_configure_inv in G4 as (g4 & ->).
  apply gpio_configure_inv in G5 as (g5 & ->).
  apply gpio_configure_inv in G6 as (g6 & ->).
  apply gpio_configure_inv in G7 as (g7 & ->).
  apply memory_barrier_inv in B2 as ->.
  peel H M3. apply wr_field_inv in M3 as (m3 & ->).
  apply memory_barrier_inv in H as ->.
  exists g0, g1, g2, g3, ps, w0, c_en, start, early, now,
    rc0, rc1, rc2, rc3, tc0, tc1, tc2, tc3.
  exists m1, ws1, w1, c_sync, ws2, w2, m2, g4, g5, g6, g7, m3.
  split.
  - unfold init_detach, init_drain, init_disable, init_settle,
      init_channels, init_clock, init_master, init_sync, init_slave,
      init_attach.
    rewrite <- !app_assoc. reflexivity.
  - repeat (split; [assumption|]). assumption.
Qed.

(** A run for C7: the simulated reset. *)
Lemma spisl_init_order_witness :
  exists d' t,
    spisl_init scripted 10 pcm_reset = Some (tt, d', t) /\
    exists (ps : list (Z * Z)) w0 start early now w1 w2,
      Forall (fun p : Z * Z => raised RXD (fst p) = true) ps /\
      raised RXD w0 = false /\
      Forall (fun x => st_elapsed start x ST_1ms = false) early /\
      st_elapsed start now ST_1ms = true /\
      raised SYNC w1 = true /\ raised SYNC w2 = false.
Proof.
  destruct (spisl_init scripted 10 pcm_reset) as [[[[] d'] t]|] eqn:E;
    [|vm_compute in E; discriminate E].
  exists d', t. split; [reflexivity|].
  destruct (spisl_init_order _ _ _ _ _ E)
    as (g0 & g1 & g2 & g3 & ps & w0 & c_en & start & early & now &
        rc0 & rc1 & rc2 & rc3 & tc0 & tc1 & tc2 & tc3 &
        m1 & ws1 & w1 & c_sync & ws2 & w2 & m2 & g4 & g5 & g6 & g7 & m3 &
        _ & Hps & Hw0 & Hearly & Hnow & _ & Hw1 & _ & Hw2).
  exists ps, w0, start, early, now, w1, w2.
  repeat (split; [assumption|]). assumption.
Defined.

(* ================================================================== *)
(** * The byte synchronizer: the handshake *)

Section SyncMono.
Context {D : Type} (h : hw D).

Lemma mono_spisl_read : mono (fun n => spisl_read h n).
Proof.
  unfold spisl_read.
  apply (mono_bind
           (fun n => spin n (is_zero (rd_field h PCM_CS RXD)))
           (fun _ _ => v <- rd h PCM_FIFO ;; ret (wrap8 v))).
  - apply mono_spin.
  - intros a. apply mono_const.
Qed.

Lemma mono_st_delay delay : mono (fun n => st_delay h n delay).
Proof.
  unfold st_delay.
  apply (mono_bind
           (fun _ => rd h ST_CLO)
           (fun n start =>
              spin n (now <- rd h ST_CLO ;;
                      ret (negb (st_elapsed start now delay))))).
  - apply mono_const.
  - intros a. apply mono_spin.
Qed.

Lemma mono_sync_body cnt incoming :
  mono (fun n => sync_body h n cnt incoming).
Proof.
  unfold sync_body.
  apply (mono_bind
           (fun n => if negb (incoming =? marker) then
                       wr_field h PCM_MODE CLK_DIS 1 ;;
                       st_delay h n ST_1us ;;
                       wr_field h PCM_MODE CLK_DIS 0 ;;
                       ret 0
                     else ret cnt)
           (fun n c => incoming <- spisl_read h n ;; ret (c, incoming))).
  - destruct (negb (incoming =? marker)); [|apply mono_const].
    apply (mono_bind
             (fun _ => wr_field h PCM_MODE CLK_DIS 1)
             (fun n _ => st_delay h n ST_1us ;;
                         wr_field h PCM_MODE CLK_DIS 0 ;; ret 0)).
    + apply mono_const.
    + intros _.
      apply (mono_bind
               (fun n => st_delay h n ST_1us)
               (fun _ _ => wr_field h PCM_MODE CLK_DIS 0 ;; ret 0)).
      * apply mono_st_delay.
      * intros _. apply mono_const.
  - intros c.
    apply (mono_bind
             (fun n => spisl_read h n)
             (fun _ incoming => ret (c, incoming))).
    + apply mono_spisl_read.
    + intros a. apply mono_const.
Qed.

Lemma mono_sync_count cnt incoming :
  mono (fun n => sync_count h n cnt incoming).
Proof.
  unfold sync_count.
  apply (mono_iter
           (fun n (s : Z * Z) =>
              if fst s <? 10 then
                s' <- sync_body h n (fst s + 1) (snd s) ;; ret (inl s')
              else ret (inr (fst s + 1, snd s)))).
  intros s. destruct (fst s <? 10); [|apply mono_const].
  apply (mono_bind
           (fun n => sync_body h n (fst s + 1) (snd s))
           (fun _ s' => ret (inl s'))).
  - apply mono_sync_body.
  - intros a. apply mono_const.
Qed.

Lemma mono_drain_rx : mono (fun n => drain_rx h n).
Proof.
  unfold drain_rx.
  apply (mono_iter
           (fun _ (_ : unit) =>
              b <- nonzero (rd_field h PCM_CS RXD) ;;
              if b then rd h PCM_FIFO ;; ret (inl tt) else ret (inr tt))).
  intros s. apply mono_const.
Qed.

Lemma mono_spisl_write data : mono (fun n => spisl_write h n data).
Proof.
  unfold spisl_write.
  apply (mono_bind
           (fun n => spin n (is_zero (rd_field h PCM_CS TXD)))
           (fun n _ => wr h PCM_FIFO (wrap8 data) ;; drain_rx h n)).
  - apply mono_spin.
  - intros _.
    apply (mono_bind
             (fun _ => wr h PCM_FIFO (wrap8 data))
             (fun n _ => drain_rx h n)).
    + apply mono_const.
    + intros _. apply mono_drain_rx.
Qed.

Lemma mono_sync_prefix : mono (fun n => sync_prefix h n).
Proof.
  unfold sync_prefix.
  apply (mono_bind
           (fun n => spisl_read h n)
           (fun n incoming =>
              s <- sync_count h n 0 incoming ;;
              spisl_write h n marker ;; ret s)).
  - apply mono_spisl_read.
  - intros incoming.
    apply (mono_bind
             (fun n => sync_count h n 0 incoming)
             (fun n s => spisl_write h n marker ;; ret s)).
    + apply mono_sync_count.
    + intros s.
      apply (mono_bind
               (fun n => spisl_write h n marker)
               (fun _ _ => ret s)).
      * apply mono_spisl_write.
      * intros _. apply mono_const.
Qed.

Lemma bind_ret_l {A B : Type} (a : A) (k : A -> M D B) d :
  bind (ret a) k d = k a d.
Proof.
  unfold bind, ret. destruct (k a d) as [[[b d2] t2]|]; reflexivity.
Qed.

(** The synchronizer is its prefix followed by the wait for the inverted
    marker. *)
Lemma spisl_synchronize_split fuel d :
  spisl_synchronize h fuel d =
  bind (sync_prefix h fuel)
       (fun s => wait_for h fuel (wrap8 (Z.lxor marker 0xff)) (snd s)) d.
Proof.
  unfold spisl_synchronize, sync_prefix.
  rewrite bind_assoc. apply bind_ext; [reflexivity|]. intros a d1.
  rewrite bind_assoc. apply bind_ext; [reflexivity|]. intros s d2.
  rewrite bind_assoc. apply bind_ext; [reflexivity|]. intros u d3.
  now rewrite bind_ret_l.
Qed.
End SyncMono.

(** On scripted hardware with the status script used up, [spisl_read]
    has no result. *)
Lemma spisl_read_scripted_exhausted (s : script) :
  s PCM_CS = [] -> forall n, spisl_read scripted n s = None.
Proof.
  intros Hs n.
  apply (spisl_read_stuck scripted (fun s0 : script => s0 PCM_CS = [])).
  - intros r s0 H0. simpl. destruct (reg_eq_dec r PCM_CS) as [->|Hr].
    + now rewrite reg_eqb_refl, H0.
    + now rewrite reg_eqb_neq.
  - intros s0 H0. simpl. now rewrite H0.
  - exact Hs.
Qed.

(** C5, as stated, fails: with the twelve bytes of the handshake in the
    receive FIFO when the acknowledgement is written, [spisl_write] takes
    the inverted marker off the FIFO with the bytes it discards, and the
    wait for it has no end: for no bound on the loops does
    [spisl_synchronize] return. *)
Lemma synchronize_blocks_when_sentinel_is_pending :
  ~ exists fuel r,
      spisl_synchronize scripted fuel handshake_preloaded = Some r.
Proof.
  intros (fuel & [[u s'] t] & H).
  rewrite spisl_synchronize_split in H.
  apply bind_inv in H as (sc & s3 & t1 & t2 & Hp & Hw & ->).
  assert (F : match sync_prefix scripted 20 handshake_preloaded with
              | Some (sc0, s0, _) => snd sc0 = marker /\ s0 PCM_CS = []
              | None => False
              end) by (vm_compute; auto).
  destruct (sync_prefix scripted 20 handshake_preloaded)
    as [[[sc0 s30] t0]|] eqn:E20; [|contradiction].
  destruct F as [F1 F2].
  pose proof (mono_sync_prefix scripted fuel (Nat.max fuel 20) _ _
                (Nat.le_max_l _ _) Hp) as A.
  pose proof (mono_sync_prefix scripted 20%nat (Nat.max fuel 20) _ _
                (Nat.le_max_r _ _) E20) as B.
  cbv beta in A, B. rewrite A in B.
  assert (sc = sc0) by congruence. assert (s3 = s30) by congruence.
  subst sc0 s30. clear A B E20 Hp.
  destruct fuel as [|n]; [discriminate Hw|].
  unfold wait_for in Hw. rewrite iter_S in Hw. rewrite F1 in Hw.
  change (negb (marker =? wrap8 (Z.lxor marker 255))) with true in Hw.
  cbv iota in Hw.
  rewrite bind_assoc in Hw.
  rewrite (bind_None _ _ _ (spisl_read_scripted_exhausted s3 F2 (S n))) in Hw.
  discriminate Hw.
Qed.

(** On scripted hardware a busy-wait uses up the values of the script for
    which the condition holds and the first for which it does not. *)
Lemma spin_scripted_exact r (p : Z -> bool) :
  forall (ws : list Z) (n : nat) (s : script) (w : Z) (rest : list Z),
    s r = ws ++ w :: rest ->
    Forall (fun x => p (wrap32 x) = true) ws ->
    p (wrap32 w) = false ->
    (length ws < n)%nat ->
    exists s',
      spin n (poll scripted r p) s
      = Some (tt, s', ev_reads r (map wrap32 (ws ++ [w]))) /\
      s' r = rest /\ (forall r', r' <> r -> s' r' = s r').
Proof.
  induction ws as [|x ws IH]; intros n s w rest Hs Hws Hw Hn;
    (destruct n as [|n]; [simpl in Hn; lia|]);
    unfold spin; rewrite iter_S; unfold poll at 1; rewrite !bind_assoc;
    rewrite (bind_Some _ _ _ _ _ _ (rd_scripted r s)); cbv beta;
    rewrite bind_ret_l, Hs; cbn [app hd tl].
  - rewrite Hw. rewrite bind_ret_l. unfold ret at 1.
    eexists. split; [reflexivity|]. split.
    + now rewrite reg_eqb_refl.
    + intros r' Hr'. now rewrite reg_eqb_neq by congruence.
  - inversion Hws as [|? ? Hx Hws']; subst. rewrite Hx, bind_ret_l.
    set (s1 := fun r' => if reg_eqb r r' then ws ++ w :: rest else s r').
    assert (H1 : s1 r = ws ++ w :: rest)
      by (unfold s1; now rewrite reg_eqb_refl).
    destruct (IH n s1 w rest H1 Hws' Hw ltac:(simpl in Hn; lia))
      as (s' & Hspin & Hrest & Hother).
    unfold spin in Hspin. rewrite Hspin.
    exists s'. split; [reflexivity|]. split; [exact Hrest|].
    intros r' Hr'. rewrite Hother by exact Hr'. unfold s1.
    now rewrite reg_eqb_neq by congruence.
Qed.

Lemma Forall_repeat {A : Type} (P : A -> Prop) (a : A) (k : nat) :
  P a -> Forall P (repeat a k).
Proof. intros Ha. induction k; simpl; auto. Qed.

(** The observations of a trace that the handshake is about: the words
    read from the FIFO, the words written to it, and the stores to the
    mode register (the clock gatings). *)
Lemma spisl_read_scripted (k n : nat) (s : script) (b : Z)
      (crest frest : list Z) :
  s PCM_CS = rx_polls k ++ crest ->
  s PCM_FIFO = b :: frest ->
  (k < n)%nat ->
  exists s' t,
    spisl_read scripted n s = Some (wrap8 (wrap32 b), s', t) /\
    s' PCM_CS = crest /\ s' PCM_FIFO = frest /\
    reads_of PCM_FIFO t = [wrap32 b] /\
    writes_of PCM_FIFO t = [] /\ writes_of PCM_MODE t = [].
Proof.
  intros Hcs Hf Hn. unfold rx_polls in Hcs. rewrite <- app_assoc in Hcs.
  destruct (spin_scripted_exact PCM_CS (fun w => negb (raised RXD w))
              (repeat CS_IDLE k) n s CS_RXD crest Hcs)
    as (s1 & Hspin & Hc1 & Hother).
  { apply Forall_repeat. reflexivity. }
  { reflexivity. }
  { now rewrite repeat_length. }
  unfold spisl_read.
  rewrite <- (spin_ext _ _ (is_zero_field_poll scripted PCM_CS RXD)) in Hspin.
  rewrite (bind_Some _ _ _ _ _ _ Hspin). cbv beta.
  rewrite (bind_Some _ _ _ _ _ _ (rd_scripted PCM_FIFO s1)). cbv beta.
  unfold ret. rewrite (Hother PCM_FIFO) by discriminate. rewrite Hf.
  cbn [hd tl].
  eexists _, _. split; [reflexivity|].
  split; [exact Hc1|]. split; [reflexivity|].
  rewrite !reads_of_app, !writes_of_app.
  rewrite reads_of_ev_reads_other by discriminate.
  rewrite !writes_of_ev_reads. repeat split; reflexivity.
Qed.

Lemma sync_body_on_marker {D : Type} (h : hw D) fuel cnt d :
  sync_body h fuel cnt marker d =
  bind (spisl_read h fuel) (fun incoming => ret (cnt, incoming)) d.
Proof.
  unfold sync_body.
  change (negb (marker =? marker)) with false. cbv iota.
  now rewrite bind_ret_l.
Qed.

(** The counting loop on scripted hardware that delivers markers only:
    from the counter [10 - j] it makes [j] passes, one per byte. *)
Lemma sync_count_scripted (fuel : nat) :
  forall (ks : list nat) (n : nat) (s : script) (crest frest : list Z),
    (length ks <= 10)%nat ->
    s PCM_CS = flat_map rx_polls ks ++ crest ->
    s PCM_FIFO = repeat marker (length ks) ++ frest ->
    (length ks < n)%nat ->
    Forall (fun k => (k < fuel)%nat) ks ->
    exists s' t,
      iter n
        (fun st : Z * Z =>
           if fst st <? 10 then
             s' <- sync_body scripted fuel (fst st + 1) (snd st) ;;
             ret (inl s')
           else ret (inr (fst st + 1, snd st)))
        (10 - Z.of_nat (length ks), marker) s
      = Some ((11, marker), s', t) /\
      s' PCM_CS = crest /\ s' PCM_FIFO = frest /\
      reads_of PCM_FIFO t = repeat marker (length ks) /\
      writes_of PCM_FIFO t = [] /\ writes_of PCM_MODE t = [].
Proof.
  induction ks as [|k ks IH]; intros n s crest frest Hlen Hcs Hf Hn Hks;
    (destruct n as [|n]; [simpl in Hn; lia|]); rewrite iter_S;
    cbn [fst snd].
  - cbn [length Z.of_nat]. change (10 - 0 <? 10) with false. cbv iota.
    rewrite bind_ret_l. unfold ret.
    exists s, []. simpl in Hcs, Hf. repeat split; auto.
  - cbn [length] in *.
    assert (Hlt : (10 - Z.of_nat (S (length ks)) <? 10) = true)
      by (apply Z.ltb_lt; lia).
    rewrite Hlt. rewrite bind_assoc.
    rewrite (bind_ext _ _ _ _ s (sync_body_on_marker scripted fuel _ s)
               (fun _ _ => eq_refl)).
    rewrite bind_assoc.
    inversion Hks as [|? ? Hk Hks']; subst.
    cbn [flat_map repeat app] in Hcs, Hf. rewrite <- app_assoc in Hcs.
    destruct (spisl_read_scripted k fuel s marker _ _ Hcs Hf Hk)
      as (s1 & t1 & Hr & Hc1 & Hf1 & Hr1 & Hw1 & Hm1).
    rewrite (bind_Some _ _ _ _ _ _ Hr). cbv beta.
    rewrite bind_ret_l, bind_ret_l.
    change (wrap8 (wrap32 marker)) with marker.
    replace (10 - Z.of_nat (S (length ks)) + 1)
      with (10 - Z.of_nat (length ks)) by lia.
    destruct (IH n s1 crest frest ltac:(lia) Hc1 Hf1 ltac:(lia) Hks')
      as (s' & t & Hit & Hc & Hf' & Hrd & Hwf & Hwm).
    rewrite Hit. exists s', (t1 ++ t). split; [reflexivity|].
    split; [exact Hc|]. split; [exact Hf'|].
    rewrite !reads_of_app, !writes_of_app, Hr1, Hw1, Hm1, Hrd, Hwf, Hwm.
    repeat split; reflexivity.
Qed.

(** [spisl_write] on scripted hardware when nothing has been received:
    polls until there is room to transmit, the write, one poll that finds
    nothing to drain. *)
Lemma spisl_write_scripted_quiet (kt n : nat) (s : script) (data : Z)
      (crest : list Z) :
  s PCM_CS = repeat CS_IDLE kt ++ [CS_TXD] ++ [CS_IDLE] ++ crest ->
  (kt < n)%nat ->
  exists s' t1,
    spisl_write scripted n data s
    = Some (tt, s', t1 ++ EvWrite PCM_FIFO (wrap8 data)
                       :: [EvRead PCM_CS CS_IDLE]) /\
    s' PCM_CS = crest /\ s' PCM_FIFO = s PCM_FIFO /\
    reads_of PCM_FIFO t1 = [] /\
    writes_of PCM_FIFO t1 = [] /\ writes_of PCM_MODE t1 = [].
Proof.
  intros Hcs Hn.
  destruct (spin_scripted_exact PCM_CS (fun w => negb (raised TXD w))
              (repeat CS_IDLE kt) n s CS_TXD (CS_IDLE :: crest) Hcs)
    as (s1 & Hspin & Hc1 & Hother).
  { apply Forall_repeat. reflexivity. }
  { reflexivity. }
  { now rewrite repeat_length. }
  unfold spisl_write.
  rewrite <- (spin_ext _ _ (is_zero_field_poll scripted PCM_CS TXD)) in Hspin.
  rewrite (bind_Some _ _ _ _ _ _ Hspin). cbv beta.
  rewrite (bind_Some _ _ s1 tt s1 [EvWrite PCM_FIFO (wrap32 (wrap8 data))]
             eq_refl).
  cbv beta. rewrite wrap32_wrap8.
  destruct n as [|n]; [lia|].
  unfold drain_rx. rewrite iter_S. rewrite bind_assoc.
  rewrite (bind_ext _ _ _ _ s1 (nonzero_field_poll scripted PCM_CS RXD s1)
             (fun _ _ => eq_refl)).
  unfold poll. rewrite bind_assoc.
  rewrite (bind_Some _ _ _ _ _ _ (rd_scripted PCM_CS s1)). cbv beta.
  rewrite Hc1. cbn [hd tl]. rewrite bind_ret_l.
  change (raised RXD (wrap32 CS_IDLE)) with false. cbv iota.
  rewrite !bind_ret_l. unfold ret.
  exists (fun r' => if reg_eqb PCM_CS r' then crest else s1 r'),
    (ev_reads PCM_CS (map wrap32 (repeat CS_IDLE kt ++ [CS_TXD]))).
  split; [reflexivity|].
  split; [now rewrite reg_eqb_refl|]. split.
  - rewrite reg_eqb_neq by discriminate. now apply Hother.
  - rewrite reads_of_ev_reads_other by discriminate.
    rewrite !writes_of_ev_reads. repeat split; reflexivity.
Qed.

(** The wait for the inverted marker on scripted hardware that delivers
    it next. *)
Lemma wait_for_scripted (k n : nat) (s : script) (crest : list Z) :
  s PCM_CS = rx_polls k ++ crest ->
  s PCM_FIFO = [0x7E] ->
  (k < n)%nat -> (2 <= n)%nat ->
  exists s' t,
    wait_for scripted n 0x7E marker s = Some (tt, s', t) /\
    s' PCM_FIFO = [] /\
    reads_of PCM_FIFO t = [0x7E] /\
    writes_of PCM_FIFO t = [] /\ writes_of PCM_MODE t = [].
Proof.
  intros Hcs Hf Hk Hn.
  destruct (spisl_read_scripted k n s 0x7E crest [] Hcs Hf Hk)
    as (s1 & t1 & Hr & _ & Hf1 & Hr1 & Hw1 & Hm1).
  destruct n as [|[|n]]; try lia.
  unfold wait_for. rewrite iter_S.
  change (negb (marker =? 126)) with true. cbv iota.
  rewrite bind_assoc. rewrite (bind_Some _ _ _ _ _ _ Hr). cbv beta.
  rewrite bind_ret_l. change (wrap8 (wrap32 126)) with 126.
  rewrite iter_S. change (negb (126 =? 126)) with false. cbv iota.
  rewrite !bind_ret_l. unfold ret.
  exists s1, (t1 ++ []). split; [reflexivity|]. split; [exact Hf1|].
  rewrite app_nil_r. auto.
Qed.

(** C5 (amended): the handshake on a byte stream of ten markers, one more
    marker and the inverted marker ends, provided the poll of
    receive-data-available that follows the write of the acknowledgement
    finds nothing received (the inverted marker comes after the
    acknowledgement).  Whatever the number of polls each byte and the
    transmitter take to be ready, [spisl_synchronize] returns; it has
    read the eleven markers, then written the marker once, then read the
    inverted marker, written nothing else to the FIFO and never gated the
    clock; the FIFO is left empty. *)
Theorem synchronize_returns_when_sentinel_follows_ack
        (w : nat -> nat) (kt : nat) :
  exists fuel s' t1 t2,
    spisl_synchronize scripted fuel (handshake_timed w kt)
    = Some (tt, s', t1 ++ EvWrite PCM_FIFO marker :: t2) /\
    reads_of PCM_FIFO t1 = repeat marker 11 /\
    writes_of PCM_FIFO t1 = [] /\
    reads_of PCM_FIFO t2 = [0x7E] /\
    writes_of PCM_FIFO t2 = [] /\
    writes_of PCM_MODE (t1 ++ t2) = [] /\
    s' PCM_FIFO = [].
Proof.
  set (fuel := S (13 + kt + w 0 + w 1 + w 2 + w 3 + w 4 + w 5 + w 6 + w 7
                  + w 8 + w 9 + w 10 + w 11)%nat).
  set (ks := [w 1; w 2; w 3; w 4; w 5; w 6; w 7; w 8; w 9; w 10]%nat).
  set (tail := repeat CS_IDLE kt ++ [CS_TXD] ++ [CS_IDLE] ++
               rx_polls (w 11%nat)).
  assert (Hcs : handshake_timed w kt PCM_CS
                = rx_polls (w 0%nat) ++ flat_map rx_polls ks ++ tail).
  { change (handshake_timed w kt PCM_CS) with (handshake_cs w kt).
    unfold handshake_cs, ks. cbn [seq flat_map]. fold tail.
    rewrite <- !app_assoc. reflexivity. }
  assert (Hf : handshake_timed w kt PCM_FIFO
               = marker :: repeat marker (length ks) ++ [0x7E])
    by reflexivity.
  destruct (spisl_read_scripted (w 0%nat) fuel _ marker _ _ Hcs Hf
              ltac:(unfold fuel; lia))
    as (s1 & tr & Hr & Hc1 & Hf1 & Hr1 & Hw1 & Hm1).
  assert (Hks : Forall (fun k => (k < fuel)%nat) ks).
  { unfold ks, fuel. repeat (constructor; [lia|]). constructor. }
  destruct (sync_count_scripted fuel ks fuel s1 tail [0x7E]
              ltac:(simpl; lia) Hc1 Hf1 ltac:(unfold fuel; simpl; lia) Hks)
    as (s2 & tc & Hc & Hc2 & Hf2 & Hr2 & Hw2 & Hm2).
  destruct (spisl_write_scripted_quiet kt fuel s2 marker
              (rx_polls (w 11%nat)) Hc2 ltac:(unfold fuel; lia))
    as (s3 & tw & Hw & Hc3 & Hf3 & Hr3 & Hw3 & Hm3).
  rewrite Hf2 in Hf3.
  destruct (wait_for_scripted (w 11%nat) fuel s3 []
              ltac:(now rewrite app_nil_r) Hf3
              ltac:(unfold fuel; lia) ltac:(unfold fuel; lia))
    as (s4 & tq & Hq & Hf4 & Hr4 & Hw4 & Hm4).
  exists fuel, s4, (tr ++ tc ++ tw), (EvRead PCM_CS CS_IDLE :: tq).
  split.
  - unfold spisl_synchronize.
    rewrite (bind_Some _ _ _ _ _ _ Hr). cbv beta.
    change (wrap8 (wrap32 marker)) with marker.
    unfold sync_count.
    change (10 - Z.of_nat (length ks)) with 0 in Hc.
    rewrite (bind_Some _ _ _ _ _ _ Hc). cbv beta.
    rewrite (bind_Some _ _ _ _ _ _ Hw). cbv beta. cbn [snd].
    change (wrap8 (Z.lxor marker 255)) with 126.
    rewrite Hq. change (wrap8 marker) with marker.
    rewrite <- !app_assoc. reflexivity.
  - rewrite !reads_of_app, !writes_of_app.
    change (EvRead PCM_CS CS_IDLE :: tq) with ([EvRead PCM_CS CS_IDLE] ++ tq).
    rewrite !reads_of_app, !writes_of_app.
    rewrite Hr1, Hr2, Hr3, Hr4, Hw1, Hw2, Hw3, Hw4, Hm1, Hm2, Hm3, Hm4.
    repeat split; try reflexivity. exact Hf4.
Qed.

(* ================================================================== *)
(** * Bit-fields, bit by bit *)

Lemma testbit_field_get pos width w i :
  0 <= pos -> 0 <= width -> 0 <= i ->
  Z.testbit (field_get pos width w) i
  = Z.testbit w (pos + i) && (i <? width).
Proof.
  intros Hp Hw Hi. unfold field_get, field_mask.
  rewrite land_ones_low by assumption.
  rewrite Z.testbit_mod_pow2 by assumption.
  rewrite Z.shiftr_spec by assumption.
  rewrite (Z.add_comm i pos). apply andb_comm.
Qed.

Lemma testbit_field_set pos width v w i :
  0 <= pos -> 0 <= width -> 0 <= i ->
  Z.testbit (field_set pos width v w) i
  = if (pos <=? i) && (i <? pos + width) then Z.testbit v (i - pos)
    else Z.testbit w i.
Proof.
  intros Hp Hw Hi. unfold field_set, field_mask.
  replace (2 ^ width - 1) with (Z.ones width)
    by (rewrite Z.ones_equiv; lia).
  rewrite Z.lor_spec, Z.land_spec, Z.lnot_spec by assumption.
  rewrite !Z.shiftl_spec by assumption.
  rewrite Z.land_spec, Z.testbit_ones by assumption.
  destruct (Z.leb_spec pos i) as [H1|H1].
  - destruct (Z.ltb_spec i (pos + width)) as [H2|H2].
    + replace (0 <=? i - pos) with true by (symmetry; apply Z.leb_le; lia).
      replace (i - pos <? width) with true by (symmetry; apply Z.ltb_lt; lia).
      cbn [andb negb]. rewrite andb_false_r, andb_true_r. reflexivity.
    + replace (i - pos <? width) with false
        by (symmetry; apply Z.ltb_ge; lia).
      rewrite !andb_false_r. cbn [andb negb].
      rewrite andb_true_r, orb_false_r. reflexivity.
  - rewrite (Z.testbit_neg_r v) by lia.
    replace (0 <=? i - pos) with false by (symmetry; apply Z.leb_gt; lia).
    cbn [andb negb]. rewrite andb_true_r, orb_false_r. reflexivity.
Qed.

Lemma testbit_wrap32 v i : i < 32 -> Z.testbit (wrap32 v) i = Z.testbit v i.
Proof. intros H. unfold wrap32. apply Z.mod_pow2_bits_low. exact H. Qed.

(** A field of the 32-bit word stored by a bit-field store that lies
    beside the field stored keeps its value. *)
Lemma field_get_set_other pos width v w p n :
  0 <= pos -> 0 <= width -> 0 <= p -> 0 <= n -> p + n <= 32 ->
  p + n <= pos \/ pos + width <= p ->
  field_get p n (wrap32 (field_set pos width v w)) = field_get p n w.
Proof.
  intros Hpos Hwidth Hp Hn H32 Hdis.
  apply Z.bits_inj'. intros i Hi.
  rewrite !testbit_field_get by assumption.
  destruct (Z.ltb_spec i n) as [Hin|Hin]; [|now rewrite !andb_false_r].
  rewrite testbit_wrap32 by lia.
  rewrite testbit_field_set by lia.
  replace ((pos <=? p + i) && (p + i <? pos + width)) with false; [reflexivity|].
  symmetry. apply andb_false_iff.
  destruct Hdis; [left; apply Z.leb_gt; lia | right; apply Z.ltb_ge; lia].
Qed.

(** The field stored reads back as the value stored, cut to the width of
    the field. *)
Lemma field_get_set_same pos width v w :
  0 <= pos -> 0 <= width -> pos + width <= 32 ->
  field_get pos width (wrap32 (field_set pos width v w)) = v mod 2 ^ width.
Proof.
  intros Hpos Hwidth H32.
  apply Z.bits_inj'. intros i Hi.
  rewrite testbit_field_get by assumption.
  rewrite Z.testbit_mod_pow2 by assumption.
  destruct (Z.ltb_spec i width) as [Hin|Hin];
    [|now rewrite andb_false_r].
  rewrite testbit_wrap32 by lia.
  rewrite testbit_field_set by lia.
  replace ((pos <=? pos + i) && (pos + i <? pos + width)) with true.
  - replace (pos + i - pos) with i by lia. now rewrite andb_true_r.
  - symmetry. apply andb_true_iff. split; [apply Z.leb_le|apply Z.ltb_lt]; lia.
Qed.

(** The word [gpio_configure] stores is a store to the three-bit field
    of the pin. *)
Lemma gpio_word_is_field_set w function k :
  Z.lor (Z.land w (Z.lnot (Z.shiftl 7 k))) (Z.shiftl (Z.land function 7) k)
  = field_set k 3 function w.
Proof. reflexivity. Qed.

(** X1 ([st_elapsed], hw.h): the test is right across a wrap of the 32-bit
    counter.  When the counter stood at [before] and [e] ticks (fewer than
    2^32) have passed since, so that it now reads [before + e] cut to 32
    bits, [st_elapsed before now diff] holds exactly when [diff <= e],
    whether or not the counter has wrapped in between. *)
Theorem st_elapsed_right_across_wrap (before e diff : Z) :
  0 <= e < 2 ^ 32 ->
  st_elapsed before (wrap32 (before + e)) diff = (diff <=? e).
Proof.
  intros He. unfold st_elapsed, wrap32.
  rewrite Zminus_mod_idemp_l.
  replace (before + e - before) with e by lia.
  rewrite Z.mod_small by exact He. reflexivity.
Qed.

Lemma st_elapsed_right_across_wrap_witness :
  wrap32 (4294967291 + 10) = 5 /\
  st_elapsed 4294967291 (wrap32 (4294967291 + 10)) 8 = (8 <=? 10).
Proof.
  split; [reflexivity|].
  apply (st_elapsed_right_across_wrap 4294967291 10 8); lia.
Defined.

(* ================================================================== *)
(** * [gpio_configure]: one pin, one field *)

Lemma gpio_configure_run {D : Type} (h : hw D) gpio function d :
  gpio_configure h gpio function d =
  Some (tt,
        hw_write h (GPIO_FSEL (Z.quot gpio 10))
          (wrap32 (field_set (Z.rem gpio 10 * 3) 3 function
                     (wrap32 (fst (hw_read h (GPIO_FSEL (Z.quot gpio 10)) d)))))
          (snd (hw_read h (GPIO_FSEL (Z.quot gpio 10)) d)),
        ev_gpio_configure gpio function
          (wrap32 (fst (hw_read h (GPIO_FSEL (Z.quot gpio 10)) d)))).
Proof.
  unfold gpio_configure, bind, rd, wr, ev_gpio_configure.
  destruct (hw_read h (GPIO_FSEL (Z.quot gpio 10)) d) as [v d1].
  cbn [fst snd app]. rewrite !gpio_word_is_field_set. reflexivity.
Qed.

Lemma pin_field_bounds gpio :
  0 <= gpio -> 0 <= Z.rem gpio 10 * 3 /\ Z.rem gpio 10 * 3 + 3 <= 30.
Proof.
  intros H. rewrite Z.rem_mod_nonneg by lia.
  pose proof (Z.mod_pos_bound gpio 10 ltac:(lia)). lia.
Qed.

(** X2 ([gpio_configure], hw.h): for a pin from 0 to 59, configuring it
    is one read and one write of the function-select register of the pin,
    one of the six (ten pins to a register); in the word written the three
    bits of the pin hold the function (its low three bits), and every
    bit-field of the register beside those three bits, so the field of
    every other pin and the two unused top bits, is as it was read. *)
Theorem gpio_configure_changes_one_field {D : Type} (h : hw D)
        (gpio function : Z) (d d' : D) (t : trace) :
  0 <= gpio < 60 ->
  gpio_configure h gpio function d = Some (tt, d', t) ->
  exists w w',
    0 <= gpio / 10 < 6
    /\ t = [EvRead (GPIO_FSEL (gpio / 10)) w;
            EvWrite (GPIO_FSEL (gpio / 10)) w']
    /\ d' = hw_write h (GPIO_FSEL (gpio / 10)) w'
              (snd (hw_read h (GPIO_FSEL (gpio / 10)) d))
    /\ field_get (gpio mod 10 * 3) 3 w' = function mod 8
    /\ forall pos width,
         0 <= pos -> 0 <= width -> pos + width <= 32 ->
         pos + width <= gpio mod 10 * 3 \/ gpio mod 10 * 3 + 3 <= pos ->
         field_get pos width w' = field_get pos width w.
Proof.
  intros [Hg Hg60] Hrun. rewrite gpio_configure_run in Hrun.
  pose proof (pin_field_bounds gpio Hg) as [Hk1 Hk2].
  rewrite Z.quot_div_nonneg in Hrun by lia.
  rewrite Z.rem_mod_nonneg in Hrun, Hk1, Hk2 by lia.
  injection Hrun as Hd Ht.
  eexists _, _. split; [|split; [|split; [|split]]].
  - split; [apply Z.div_pos; lia | apply Z.div_lt_upper_bound; lia].
  - rewrite <- Ht. unfold ev_gpio_configure.
    rewrite Z.quot_div_nonneg, Z.rem_mod_nonneg by lia.
    rewrite gpio_word_is_field_set. reflexivity.
  - symmetry. exact Hd.
  - rewrite field_get_set_same by lia. reflexivity.
  - intros pos width Hp Hw H32 Hdis.
    apply field_get_set_other; lia.
Qed.

Lemma gpio_configure_changes_one_field_witness :
  exists d' t w w',
    gpio_configure scripted 16 Output
      (script_of [(GPIO_FSEL 1, [0x12345678])]) = Some (tt, d', t)
    /\ t = [EvRead (GPIO_FSEL (16 / 10)) w; EvWrite (GPIO_FSEL (16 / 10)) w']
    /\ field_get (16 mod 10 * 3) 3 w' = Output mod 8.
Proof.
  destruct (gpio_configure scripted 16 Output
              (script_of [(GPIO_FSEL 1, [0x12345678])]))
    as [[[[] d'] t]|] eqn:E; [|vm_compute in E; discriminate E].
  destruct (gpio_configure_changes_one_field scripted 16 Output _ d' t
              ltac:(lia) E) as (w & w' & _ & Ht & _ & Hf & _).
  exists d', t, w, w'. split; [reflexivity|]. split; [exact Ht | exact Hf].
Defined.

(* ================================================================== *)
(** * The register file: pins and the timer *)

Lemma store_same r v (s : regs) : store r v s r = v.
Proof. unfold store. now rewrite reg_eqb_refl. Qed.

Lemma store_other r r' v (s : regs) : r <> r' -> store r v s r' = s r'.
Proof. intros H. unfold store. now rewrite reg_eqb_neq. Qed.

Lemma testbit_wrap32_any v i :
  Z.testbit (wrap32 v) i = (i <? 32) && Z.testbit v i.
Proof. unfold wrap32. apply Z.testbit_mod_pow2. lia. Qed.

Lemma field_get_wrap32 p n v :
  0 <= p -> 0 <= n -> p + n <= 32 ->
  field_get p n (wrap32 v) = field_get p n v.
Proof.
  intros Hp Hn H32. apply Z.bits_inj'. intros i Hi.
  rewrite !testbit_field_get by assumption.
  destruct (Z.ltb_spec i n) as [Hin|Hin]; [|now rewrite !andb_false_r].
  now rewrite testbit_wrap32 by lia.
Qed.

(** Stores to two fields that do not overlap can be done in either
    order. *)
Lemma field_set_commute p1 n1 v1 p2 n2 v2 x :
  0 <= p1 -> 0 <= n1 -> 0 <= p2 -> 0 <= n2 ->
  p1 + n1 <= p2 \/ p2 + n2 <= p1 ->
  wrap32 (field_set p2 n2 v2 (wrap32 (wrap32 (field_set p1 n1 v1 (wrap32 x)))))
  = wrap32 (field_set p1 n1 v1
              (wrap32 (wrap32 (field_set p2 n2 v2 (wrap32 x))))).
Proof.
  intros H1 H2 H3 H4 Hdis. apply Z.bits_inj'. intros i Hi.
  repeat (rewrite ?testbit_wrap32_any; rewrite ?testbit_field_set by lia).
  destruct (i <? 32); cbn [andb]; [|reflexivity].
  destruct (Z.leb_spec p1 i), (Z.ltb_spec i (p1 + n1)),
           (Z.leb_spec p2 i), (Z.ltb_spec i (p2 + n2));
    cbn [andb]; try reflexivity; lia.
Qed.

Lemma gpio_configure_board step gpio function s :
  gpio_configure (board step) gpio function s =
  Some (tt,
        store (GPIO_FSEL (Z.quot gpio 10))
          (wrap32 (field_set (Z.rem gpio 10 * 3) 3 function
                     (wrap32 (s (GPIO_FSEL (Z.quot gpio 10)))))) s,
        ev_gpio_configure gpio function
          (wrap32 (s (GPIO_FSEL (Z.quot gpio 10))))).
Proof. rewrite gpio_configure_run. reflexivity. Qed.

Lemma pins_of_one_register a b :
  0 <= a -> 0 <= b -> a <> b -> Z.quot a 10 = Z.quot b 10 ->
  Z.rem a 10 * 3 + 3 <= Z.rem b 10 * 3 \/
  Z.rem b 10 * 3 + 3 <= Z.rem a 10 * 3.
Proof.
  intros Ha Hb Hab Hq.
  pose proof (Z.quot_rem' a 10). pose proof (Z.quot_rem' b 10). lia.
Qed.

(** X3 ([gpio_configure], hw.h): on registers that hold what is written
    to them, a pin from 0 to 59 that is configured reads back the function
    given (its low three bits), the function of every other pin from 0 to
    59 is what it was, and no register but the function-select register of
    the pin changes. *)
Theorem gpio_configure_selects_function (step a function : Z)
        (s s' : regs) (t : trace) :
  0 <= a < 60 ->
  gpio_configure (board step) a function s = Some (tt, s', t) ->
  gpio_function s' a = function mod 8 /\
  (forall b, 0 <= b < 60 -> b <> a ->
             gpio_function s' b = gpio_function s b) /\
  (forall r, r <> GPIO_FSEL (a / 10) -> s' r = s r).
Proof.
  intros [Ha Ha60] Hrun. rewrite gpio_configure_board in Hrun.
  injection Hrun as Hs _. subst s'.
  pose proof (pin_field_bounds a Ha) as [Hk1 Hk2].
  split; [|split].
  - unfold gpio_function. rewrite store_same.
    rewrite field_get_set_same by lia. reflexivity.
  - intros b [Hb Hb60] Hba. unfold gpio_function.
    pose proof (pin_field_bounds b Hb) as [Hb1 Hb2].
    destruct (Z.eq_dec (Z.quot a 10) (Z.quot b 10)) as [Hq|Hq].
    + rewrite <- Hq, store_same.
      pose proof (pins_of_one_register a b Ha Hb ltac:(congruence) Hq).
      rewrite field_get_set_other by lia.
      apply field_get_wrap32; lia.
    + rewrite store_other by congruence. reflexivity.
  - intros r Hr. apply store_other.
    rewrite Z.quot_div_nonneg by lia. congruence.
Qed.

Lemma gpio_configure_selects_function_witness :
  exists s' t,
    gpio_configure (board 1) 16 Output (fun _ => 0x12345678) = Some (tt, s', t)
    /\ gpio_function s' 16 = Output mod 8
    /\ gpio_function s' 17 = gpio_function (fun _ => 0x12345678) 17.
Proof.
  destruct (gpio_configure (board 1) 16 Output (fun _ => 0x12345678))
    as [[[[] s'] t]|] eqn:E; [|vm_compute in E; discriminate E].
  destruct (gpio_configure_selects_function 1 16 Output _ s' t
              ltac:(lia) E) as (H1 & H2 & _).
  exists s', t. split; [reflexivity|]. split; [exact H1|].
  apply H2; lia.
Defined.

(** X4 ([gpio_configure], hw.h): configuring two different pins from 0
    to 59 gives the same registers in either order, also when both pins
    share a function-select register, and both pins then read back their
    functions. *)
Theorem gpio_configure_commutes (step a fa b fb : Z) (s : regs) :
  0 <= a < 60 -> 0 <= b < 60 -> a <> b ->
  exists s1 s2 t1 t2,
    (gpio_configure (board step) a fa ;; gpio_configure (board step) b fb) s
    = Some (tt, s1, t1) /\
    (gpio_configure (board step) b fb ;; gpio_configure (board step) a fa) s
    = Some (tt, s2, t2) /\
    (forall r, s1 r = s2 r) /\
    gpio_function s1 a = fa mod 8 /\ gpio_function s1 b = fb mod 8.
Proof.
  intros [Ha Ha60] [Hb Hb60] Hab.
  pose proof (pin_field_bounds a Ha) as [Ha1 Ha2].
  pose proof (pin_field_bounds b Hb) as [Hb1 Hb2].
  rewrite (bind_Some _ _ _ _ _ _ (gpio_configure_board step a fa s)).
  rewrite (bind_Some _ _ _ _ _ _ (gpio_configure_board step b fb s)).
  rewrite !gpio_configure_board.
  eexists _, _, _, _. split; [reflexivity|]. split; [reflexivity|].
  destruct (Z.eq_dec (Z.quot a 10) (Z.quot b 10)) as [Hq|Hq].
  - pose proof (pins_of_one_register a b Ha Hb Hab Hq) as Hdis.
    rewrite <- !Hq, !store_same.
    split; [|split].
    + intros r. unfold store.
      destruct (reg_eqb (GPIO_FSEL (Z.quot a 10)) r); [|reflexivity].
      apply field_set_commute; lia.
    + unfold gpio_function. rewrite store_same.
      rewrite field_get_set_other by lia.
      rewrite field_get_wrap32 by lia.
      rewrite field_get_set_same by lia. reflexivity.
    + unfold gpio_function. rewrite <- Hq, store_same.
      rewrite field_get_set_same by lia. reflexivity.
  - assert (Hr : GPIO_FSEL (Z.quot a 10) <> GPIO_FSEL (Z.quot b 10))
      by congruence.
    rewrite (store_other _ _ _ _ Hr).
    rewrite (store_other _ _ _ _ (not_eq_sym Hr)).
    split; [|split].
    + intros r. unfold store.
      destruct (reg_eq_dec (GPIO_FSEL (Z.quot a 10)) r) as [E1|E1],
               (reg_eq_dec (GPIO_FSEL (Z.quot b 10)) r) as [E2|E2].
      * congruence.
      * subst r. rewrite reg_eqb_refl, reg_eqb_neq by congruence.
        reflexivity.
      * subst r. rewrite reg_eqb_refl, reg_eqb_neq by congruence.
        reflexivity.
      * rewrite !reg_eqb_neq by assumption. reflexivity.
    + unfold gpio_function.
      rewrite store_other, store_same by congruence.
      rewrite field_get_set_same by lia. reflexivity.
    + unfold gpio_function. rewrite store_same.
      rewrite field_get_set_same by lia. reflexivity.
Qed.

Lemma gpio_configure_commutes_witness :
  exists s1 s2 t1 t2,
    (gpio_configure (board 1) 14 Alt0 ;; gpio_configure (board 1) 15 Alt5)
      (fun _ => 0)
    = Some (tt, s1, t1) /\
    (gpio_configure (board 1) 15 Alt5 ;; gpio_configure (board 1) 14 Alt0)
      (fun _ => 0)
    = Some (tt, s2, t2) /\
    (forall r, s1 r = s2 r) /\
    gpio_function s1 14 = Alt0 mod 8 /\ gpio_function s1 15 = Alt5 mod 8.
Proof. apply (gpio_configure_commutes 1 14 Alt0 15 Alt5); lia. Defined.

Lemma rd_timer_board step (s : regs) :
  rd (board step) ST_CLO s =
  Some (wrap32 (s ST_CLO), store ST_CLO (s ST_CLO + step) s,
        [EvRead ST_CLO (wrap32 (s ST_CLO))]).
Proof. reflexivity. Qed.

Lemma st_elapsed_since t0 c delay :
  st_elapsed (wrap32 t0) (wrap32 (t0 + c)) delay = (delay <=? wrap32 c).
Proof.
  unfold st_elapsed, wrap32.
  rewrite Zminus_mod_idemp_l, Zminus_mod_idemp_r.
  replace (t0 + c - t0) with c by lia. reflexivity.
Qed.

(** The polls of the delay loop on a running timer: [m] polls that find
    the delay not yet over, then one that finds it over. *)
Lemma delay_loop_board step t0 delay :
  forall (m : nat) (c : Z) (s : regs),
    s ST_CLO = t0 + c ->
    (forall i : nat, (i < m)%nat -> wrap32 (c + Z.of_nat i * step) < delay) ->
    delay <= wrap32 (c + Z.of_nat m * step) ->
    exists s',
      spin (S m)
        (now <- rd (board step) ST_CLO ;;
         ret (negb (st_elapsed (wrap32 t0) now delay))) s
      = Some (tt, s',
              ev_reads ST_CLO
                (map (fun i => wrap32 (t0 + c + Z.of_nat i * step))
                     (seq 0 (S m)))) /\
      s' ST_CLO = t0 + c + Z.of_nat (S m) * step /\
      forall r, r <> ST_CLO -> s' r = s r.
Proof.
  induction m as [|m IH]; intros c s Hs Hearly Hlast;
    unfold spin; rewrite iter_S; rewrite !bind_assoc;
    rewrite (bind_Some _ _ _ _ _ _ (rd_timer_board step s)); cbv beta;
    rewrite bind_ret_l, Hs, st_elapsed_since.
  - replace (c + Z.of_nat 0 * step) with c in Hlast by lia.
    replace (delay <=? wrap32 c) with true by (symmetry; apply Z.leb_le; lia).
    cbn [negb]. rewrite bind_ret_l. unfold ret at 1.
    eexists. split; [|split].
    + cbn [seq map ev_reads app]. now rewrite Z.add_0_r.
    + rewrite store_same. lia.
    + intros r Hr. apply store_other. congruence.
  - pose proof (Hearly 0%nat ltac:(lia)) as H0.
    replace (c + Z.of_nat 0 * step) with c in H0 by lia.
    replace (delay <=? wrap32 c) with false by (symmetry; apply Z.leb_gt; lia).
    cbn [negb]. rewrite bind_ret_l.
    set (s1 := store ST_CLO (t0 + c + step) s).
    destruct (IH (c + step) s1) as (s' & Hspin & Hclo & Hother).
    + unfold s1. rewrite store_same. lia.
    + intros i Hi. specialize (Hearly (S i) ltac:(lia)).
      replace (c + step + Z.of_nat i * step)
        with (c + Z.of_nat (S i) * step) by lia. exact Hearly.
    + replace (c + step + Z.of_nat m * step)
        with (c + Z.of_nat (S m) * step) by lia. exact Hlast.
    + unfold spin in Hspin. rewrite Hspin.
      exists s'. split; [|split].
      * f_equal. f_equal.
        change (seq 0 (S (S m))) with (0%nat :: seq 1 (S m)).
        rewrite <- seq_shift. unfold ev_reads. cbn [map app].
        rewrite !map_map, Z.add_0_r. f_equal.
        apply map_ext. intros i. f_equal. f_equal. lia.
      * rewrite Hclo. lia.
      * intros r Hr. rewrite Hother by exact Hr. unfold s1.
        apply store_other. congruence.
Qed.

(** The delay on a running timer. *)
Lemma st_delay_board (step delay : Z) (s : regs) :
  0 < step -> 0 <= delay -> delay + step <= 2 ^ 32 ->
  exists (k : nat) (s' : regs),
    (1 <= k)%nat /\
    delay <= Z.of_nat k * step /\
    (k = 1%nat \/ (Z.of_nat k - 1) * step < delay) /\
    (forall fuel, (k <= fuel)%nat ->
       st_delay (board step) fuel delay s
       = Some (tt, s',
               ev_reads ST_CLO
                 (map (fun i => wrap32 (s ST_CLO + Z.of_nat i * step))
                      (seq 0 (S k))))) /\
    s' ST_CLO = s ST_CLO + Z.of_nat (S k) * step /\
    (forall r, r <> ST_CLO -> s' r = s r).
Proof.
  intros Hstep Hdelay Hsum.
  set (K := Z.max 1 ((delay + step - 1) / step)).
  assert (HK1 : 1 <= K) by (unfold K; lia).
  assert (Hup : delay <= K * step).
  { assert (delay <= (delay + step - 1) / step * step).
    { pose proof (Z.div_mod (delay + step - 1) step ltac:(lia)).
      pose proof (Z.mod_pos_bound (delay + step - 1) step Hstep). nia. }
    unfold K. nia. }
  assert (Hlow : K = 1 \/ (K - 1) * step < delay).
  { destruct (Z.eq_dec K 1) as [E|E]; [now left|right].
    assert (K = (delay + step - 1) / step) by (unfold K in *; lia).
    pose proof (Z.div_mod (delay + step - 1) step ltac:(lia)).
    pose proof (Z.mod_pos_bound (delay + step - 1) step Hstep). nia. }
  destruct (delay_loop_board step (s ST_CLO) delay
              (Z.to_nat (K - 1)) step
              (store ST_CLO (s ST_CLO + step) s))
    as (s' & Hspin & Hclo & Hother).
  - apply store_same.
  - intros i Hi.
    assert (0 <= step + Z.of_nat i * step < delay) by nia.
    unfold wrap32. rewrite Z.mod_small by lia. lia.
  - rewrite Z2Nat.id by lia.
    replace (step + (K - 1) * step) with (K * step) by lia.
    destruct Hlow as [E|Hlt].
    + rewrite E in *. destruct (Z.eq_dec step (2 ^ 32)) as [E2|E2].
      * rewrite E2. unfold wrap32. rewrite Z.mul_1_l, Z.mod_same by lia.
        lia.
      * unfold wrap32. rewrite Z.mod_small by lia. lia.
    + unfold wrap32. rewrite Z.mod_small by nia. lia.
  - exists (Z.to_nat K), s'.
    replace (S (Z.to_nat (K - 1))) with (Z.to_nat K) in * by lia.
    split; [lia|]. rewrite Z2Nat.id by lia.
    split; [exact Hup|]. split; [destruct Hlow; [left|right]; lia|].
    split; [|split].
    + intros fuel Hfuel.
      apply (mono_st_delay (board step) delay (Z.to_nat K) fuel s _ Hfuel).
      unfold st_delay.
      rewrite (bind_Some _ _ _ _ _ _ (rd_timer_board step s)). cbv beta.
      rewrite Hspin. f_equal. f_equal.
      change (seq 0 (S (Z.to_nat K))) with (0%nat :: seq 1 (Z.to_nat K)).
      rewrite <- seq_shift. unfold ev_reads. cbn [map app].
      rewrite !map_map, Z.add_0_r. f_equal.
      apply map_ext. intros i. f_equal. f_equal. lia.
    + rewrite Hclo. lia.
    + intros r Hr. rewrite Hother by exact Hr.
      apply store_other. congruence.
Qed.

(** The delay on a timer that stands still. *)
Lemma st_delay_board_stopped (delay : Z) (s : regs) :
  0 < delay -> forall fuel, st_delay (board 0) fuel delay s = None.
Proof.
  intros Hpos fuel. unfold st_delay.
  rewrite (bind_Some _ _ _ _ _ _ (rd_timer_board 0 s)). cbv beta.
  assert (Hloop : forall n (s1 : regs), s1 ST_CLO = s ST_CLO ->
            spin n (now <- rd (board 0) ST_CLO ;;
                    ret (negb (st_elapsed (wrap32 (s ST_CLO)) now delay)))
                 s1 = None).
  { induction n as [|n IH]; intros s1 Hs1; [reflexivity|].
    unfold spin. rewrite iter_S. rewrite !bind_assoc.
    rewrite (bind_Some _ _ _ _ _ _ (rd_timer_board 0 s1)). cbv beta.
    rewrite bind_ret_l, Hs1.
    replace (st_elapsed (wrap32 (s ST_CLO)) (wrap32 (s ST_CLO)) delay)
      with false.
    - cbn [negb]. rewrite bind_ret_l.
      unfold spin in IH. rewrite IH; [reflexivity|].
      rewrite store_same. lia.
    - symmetry. unfold st_elapsed. rewrite Z.sub_diag.
      apply Z.leb_gt. exact Hpos. }
  rewrite Hloop; [reflexivity|]. rewrite store_same. lia.
Qed.

(** X5 ([st_delay], hw.h): on a timer that advances by [step] ticks from
    one read to the next, with [delay + step] within the 32-bit range, the
    delay returns, for every bound on its loop from some bound on: it reads
    the timer once for the start and then [k] times, [k] being the least
    number of steps, and at least one, that make up [delay] ticks; it
    writes nothing and leaves every other register alone.  This holds
    from every start value, so also when the counter wraps during the
    delay.  On a timer that stands still a delay of at least one tick never
    returns. *)
Theorem st_delay_returns_on_running_timer (step delay : Z) (s : regs) :
  0 < step -> 0 <= delay -> delay + step <= 2 ^ 32 ->
  (exists (k : nat) (s' : regs),
     (1 <= k)%nat /\
     delay <= Z.of_nat k * step /\
     (k = 1%nat \/ (Z.of_nat k - 1) * step < delay) /\
     (forall fuel, (k <= fuel)%nat ->
        st_delay (board step) fuel delay s
        = Some (tt, s',
                ev_reads ST_CLO
                  (map (fun i => wrap32 (s ST_CLO + Z.of_nat i * step))
                       (seq 0 (S k))))) /\
     s' ST_CLO = s ST_CLO + Z.of_nat (S k) * step /\
     (forall r, r <> ST_CLO -> s' r = s r)) /\
  (0 < delay -> forall fuel, st_delay (board 0) fuel delay s = None).
Proof.
  intros Hstep Hdelay Hsum. split.
  - apply st_delay_board; assumption.
  - apply st_delay_board_stopped.
Qed.

Lemma st_delay_returns_on_running_timer_witness :
  (exists (k : nat) (s' : regs),
     (1 <= k)%nat /\
     1000 <= Z.of_nat k * 3 /\
     (k = 1%nat \/ (Z.of_nat k - 1) * 3 < 1000) /\
     (forall fuel, (k <= fuel)%nat ->
        st_delay (board 3) fuel 1000 (fun _ => 4294967000)
        = Some (tt, s',
                ev_reads ST_CLO
                  (map (fun i => wrap32 (4294967000 + Z.of_nat i * 3))
                       (seq 0 (S k))))) /\
     s' ST_CLO = 4294967000 + Z.of_nat (S k) * 3 /\
     (forall r, r <> ST_CLO -> s' r = 4294967000)) /\
  (0 < 1000 ->
   forall fuel, st_delay (board 0) fuel 1000 (fun _ => 4294967000) = None).
Proof.
  apply (st_delay_returns_on_running_timer 3 1000 (fun _ => 4294967000));
    lia.
Defined.

(* ================================================================== *)
(** * The mailbox word and the property request *)

(** A channel number below 16 and a 16-byte aligned address share no
    bit. *)
Lemma lor_channel_address chan addr :
  0 <= chan < 16 -> addr mod 16 = 0 -> Z.lor chan addr = chan + addr.
Proof.
  intros Hc Ha. rewrite <- Z.add_lor_land.
  assert (E : Z.land chan addr = 0); [|rewrite E; lia].
  apply Z.bits_inj'. intros i Hi. rewrite Z.land_spec, Z.bits_0.
  destruct (Z.ltb_spec i 4) as [H4|H4].
  - rewrite <- (Z.mod_pow2_bits_low addr 4 i H4).
    change (2 ^ 4) with 16. rewrite Ha, Z.bits_0. apply andb_false_r.
  - rewrite <- (Z.mod_small chan (2 ^ 4)) by (change (2 ^ 4) with 16; lia).
    rewrite Z.mod_pow2_bits_high by lia. reflexivity.
Qed.

Lemma mbox_write_inv {D : Type} (h : hw D) fuel chan addr d u d' t :
  mbox_write h fuel chan addr d = Some (u, d', t) ->
  exists ws w,
    t = ev_reads MBOX0_STATUS_FULL (ws ++ [w]) ++
        [EvWrite MBOX1_DATA (wrap32 (Z.lor chan addr)); EvBarrier] /\
    Forall (fun x => x <> 0) ws /\ w = 0.
Proof.
  intros H. unfold mbox_write in H.
  apply bind_inv in H as ([] & d1 & t1 & t2 & Hspin & H & ->).
  apply bind_inv in H as ([] & d2 & t3 & t4 & Hwr & Hb & ->).
  apply (spin_poll_inv h MBOX0_STATUS_FULL (fun v => negb (v =? 0)))
    in Hspin as (ws & w & -> & Hws & Hw).
  apply wr_inv in Hwr. apply memory_barrier_inv in Hb. subst t3 t4.
  exists ws, w. split; [reflexivity|]. split.
  - eapply Forall_impl; [|exact Hws]. cbv beta. intros x Hx.
    apply negb_true_iff, Z.eqb_neq in Hx. exact Hx.
  - apply negb_false_iff, Z.eqb_eq in Hw. exact Hw.
Qed.

(** X6 ([mbox_write], mailbox.h): a write to the mailbox polls the status
    for as long as it reads nonzero, then stores one word and issues one
    barrier.  For a channel below 16 and a 16-byte aligned 32-bit address
    the word stored is the sum of the two: its low four bits are the
    channel and the rest is the address, so both can be recovered from
    it. *)
Theorem mbox_write_pushes_channel_and_address
        {D : Type} (h : hw D) (fuel : nat) (chan addr : Z)
        (d d' : D) (t : trace) :
  0 <= chan < 16 -> 0 <= addr < 2 ^ 32 -> addr mod 16 = 0 ->
  mbox_write h fuel chan addr d = Some (tt, d', t) ->
  exists ws w,
    t = ev_reads MBOX0_STATUS_FULL (ws ++ [0]) ++
        [EvWrite MBOX1_DATA w; EvBarrier] /\
    Forall (fun x => x <> 0) ws /\
    w = chan + addr /\ w mod 16 = chan /\ w - w mod 16 = addr.
Proof.
  intros Hc Ha Hal H.
  apply mbox_write_inv in H as (ws & w0 & -> & Hws & ->).
  rewrite (lor_channel_address chan addr Hc Hal).
  assert (H32 : chan + addr < 2 ^ 32).
  { pose proof (Z.div_mod addr 16 ltac:(lia)). lia. }
  rewrite wrap32_small by lia.
  exists ws, (chan + addr). split; [reflexivity|]. split; [exact Hws|].
  split; [reflexivity|].
  assert (E : (chan + addr) mod 16 = chan).
  { rewrite Z.add_mod, Hal, Z.add_0_r, Z.mod_mod by lia.
    apply Z.mod_small. lia. }
  split; [exact E|]. rewrite E. lia.
Qed.

Lemma mbox_write_pushes_channel_and_address_witness :
  exists d' ws w,
    mbox_write scripted 3 8 0x1000
      (script_of [(MBOX0_STATUS_FULL, [1; 1])])
    = Some (tt, d',
            ev_reads MBOX0_STATUS_FULL (ws ++ [0]) ++
            [EvWrite MBOX1_DATA w; EvBarrier]) /\
    w mod 16 = 8 /\ w - w mod 16 = 0x1000.
Proof.
  destruct (mbox_write scripted 3 8 0x1000
              (script_of [(MBOX0_STATUS_FULL, [1; 1])]))
    as [[[[] d'] t]|] eqn:E; [|vm_compute in E; discriminate E].
  destruct (mbox_write_pushes_channel_and_address scripted 3 8 0x1000 _ d' t
              ltac:(lia) ltac:(lia) ltac:(reflexivity) E)
    as (ws & w & Ht & _ & _ & Hm & Ha).
  exists d', ws, w. rewrite <- Ht. split; [reflexivity|].
  split; [exact Hm | exact Ha].
Defined.

(** The words of a request as [mbox_property_call] fills them in. *)
Lemma fill_words size tagid (m : list Z) (j : nat) :
  length m = (6 + size)%nat -> (j < 6 + size)%nat ->
  word j (mbox_property_fill size tagid m) =
  if (j =? 5 + size)%nat then 0
  else if (j =? 4)%nat then (4 * Z.of_nat size) mod 2 ^ 31
  else if (j =? 3)%nat then wrap32 (4 * Z.of_nat size)
  else if (j =? 2)%nat then wrap32 tagid
  else if (j =? 1)%nat then 0
  else if (j =? 0)%nat then wrap32 (sizeof (mbox_property_struct size))
  else word j m.
Proof.
  intros L Hj. unfold mbox_property_fill.
  unfold W_END, W_BUFFER_SIZE, W_CODE, W_TAG, W_TAG_BUFFER_SIZE,
    W_TAG_RESPONSE.
  change (sizeof (TArray TUInt32 (Z.of_nat size))) with (4 * Z.of_nat size).
  destruct (Nat.eqb_spec j (5 + size)) as [->|Hend].
  { rewrite !word_set_word_eq by (rewrite !length_set_word; lia).
    reflexivity. }
  rewrite !(word_set_word_neq (5 + size) j) by lia.
  destruct (Nat.eqb_spec j 4) as [->|H4].
  { rewrite !(word_set_word_eq 4) by (rewrite !length_set_word; lia).
    apply response_word_fresh. }
  rewrite !(word_set_word_neq 4 j) by lia.
  destruct (Nat.eqb_spec j 3) as [->|H3].
  { rewrite !(word_set_word_eq 3) by (rewrite !length_set_word; lia).
    reflexivity. }
  rewrite !(word_set_word_neq 3 j) by lia.
  destruct (Nat.eqb_spec j 2) as [->|H2].
  { rewrite !(word_set_word_eq 2) by (rewrite !length_set_word; lia).
    reflexivity. }
  rewrite !(word_set_word_neq 2 j) by lia.
  destruct (Nat.eqb_spec j 1) as [->|H1].
  { rewrite !(word_set_word_eq 1) by (rewrite !length_set_word; lia).
    reflexivity. }
  rewrite !(word_set_word_neq 1 j) by lia.
  destruct (Nat.eqb_spec j 0) as [->|H0].
  { rewrite !(word_set_word_eq 0) by lia. reflexivity. }
  rewrite !(word_set_word_neq 0 j) by lia. reflexivity.
Qed.

(** The whole request: the size of the structure, the request code, the
    tag, the size of the value buffer twice (once as the length of the
    response, with the response bit clear), the value words as they were,
    and the terminator. *)
Lemma fill_request size tagid (m : list Z) :
  length m = (6 + size)%nat -> Z.of_nat size < 2 ^ 29 ->
  mbox_property_fill size tagid m =
  [round_up (serialized_length size) 16; PROP_REQUEST; wrap32 tagid;
   4 * Z.of_nat size; 4 * Z.of_nat size]
  ++ firstn size (skipn 5 m) ++ [0].
Proof.
  intros L Hsize.
  assert (Lf : length (firstn size (skipn 5 m)) = size).
  { rewrite length_firstn, length_skipn, L. lia. }
  apply (nth_ext _ _ 0 0).
  { rewrite length_fill, L, length_app, length_app, Lf. simpl. lia. }
  intros j Hj. rewrite length_fill, L in Hj.
  change (nth j (mbox_property_fill size tagid m) 0)
    with (word j (mbox_property_fill size tagid m)).
  rewrite (fill_words size tagid m j L Hj).
  destruct (Nat.eqb_spec j (5 + size)) as [->|Hend].
  { rewrite app_nth2 by (simpl; lia).
    rewrite app_nth2 by (rewrite Lf; simpl; lia).
    rewrite Lf. simpl length.
    replace (5 + size - 5 - size)%nat with 0%nat by lia. reflexivity. }
  destruct j as [|[|[|[|[|j]]]]]; cbn [Nat.eqb app nth].
  - rewrite sizeof_mbox_property_struct. apply wrap32_small.
    pose proof (round_up_bounds (serialized_length size) 16 ltac:(lia)).
    unfold serialized_length in *. lia.
  - reflexivity.
  - reflexivity.
  - apply wrap32_small. lia.
  - apply Z.mod_small. lia.
  - rewrite app_nth1 by lia.
    rewrite nth_firstn.
    replace (j <? size)%nat with true by (symmetry; apply Nat.ltb_lt; lia).
    rewrite nth_skipn. reflexivity.
Qed.

(** X7 ([mbox_property_call], mailbox.h): the request a property call
    submits.  For a buffer of the structure's six words and [size] value
    words, with [size] below 2^29, the stores of the call give: the size of
    the structure in bytes (the wire length rounded up to 16), the request
    code 0, the tag, the size of the value buffer in bytes twice (as buffer
    size and as response length, the response bit clear), the [size] value
    words untouched, and the terminator 0. *)
Theorem mbox_property_fill_builds_request
        (size : nat) (tagid : Z) (mbox : list Z) :
  length mbox = (6 + size)%nat -> Z.of_nat size < 2 ^ 29 ->
  mbox_property_fill size tagid mbox =
  [round_up (serialized_length size) 16; PROP_REQUEST; wrap32 tagid;
   4 * Z.of_nat size; 4 * Z.of_nat size]
  ++ firstn size (skipn 5 mbox) ++ [0].
Proof. apply fill_request. Qed.

Lemma mbox_property_fill_builds_request_witness :
  mbox_property_fill 2 MBOX_TAG_GET_CLOCK_RATE [11; 12; 13; 14; 15; 4; 0; 18]
  = [32; 0; 0x30002; 8; 8; 4; 0; 0].
Proof.
  rewrite (mbox_property_fill_builds_request 2 MBOX_TAG_GET_CLOCK_RATE
             [11; 12; 13; 14; 15; 4; 0; 18]);
    [reflexivity | reflexivity | reflexivity].
Defined.

(* ================================================================== *)
(** * The property calls and the local buffer *)

(** A list with the words of a request is the request. *)
Lemma request_of_words size tagid (m r : list Z) :
  length m = (6 + size)%nat -> length r = (6 + size)%nat ->
  Z.of_nat size < 2 ^ 29 ->
  (forall j, (j < 6 + size)%nat ->
     word j r =
     if (j =? 5 + size)%nat then 0
     else if (j =? 4)%nat then (4 * Z.of_nat size) mod 2 ^ 31
     else if (j =? 3)%nat then wrap32 (4 * Z.of_nat size)
     else if (j =? 2)%nat then wrap32 tagid
     else if (j =? 1)%nat then 0
     else if (j =? 0)%nat then wrap32 (sizeof (mbox_property_struct size))
     else word j m) ->
  r = [round_up (serialized_length size) 16; PROP_REQUEST; wrap32 tagid;
       4 * Z.of_nat size; 4 * Z.of_nat size]
      ++ firstn size (skipn 5 m) ++ [0].
Proof.
  intros L Lr Hsize Hw.
  assert (Lf : length (firstn size (skipn 5 m)) = size).
  { rewrite length_firstn, length_skipn, L. lia. }
  apply (nth_ext _ _ 0 0).
  { rewrite Lr, length_app, length_app, Lf. simpl. lia. }
  intros j Hj. rewrite Lr in Hj.
  change (nth j r 0) with (word j r). rewrite (Hw j Hj).
  destruct (Nat.eqb_spec j (5 + size)) as [->|Hend].
  { rewrite app_nth2 by (simpl; lia).
    rewrite app_nth2 by (rewrite Lf; simpl; lia).
    rewrite Lf. simpl length.
    replace (5 + size - 5 - size)%nat with 0%nat by lia. reflexivity. }
  destruct j as [|[|[|[|[|j]]]]]; cbn [Nat.eqb app nth].
  - rewrite sizeof_mbox_property_struct. apply wrap32_small.
    pose proof (round_up_bounds (serialized_length size) 16 ltac:(lia)).
    unfold serialized_length in *. lia.
  - reflexivity.
  - reflexivity.
  - apply wrap32_small. lia.
  - apply Z.mod_small. lia.
  - rewrite app_nth1 by lia.
    rewrite nth_firstn.
    replace (j <? size)%nat with true by (symmetry; apply Nat.ltb_lt; lia).
    rewrite nth_skipn. reflexivity.
Qed.

(** The program's view of the buffer after the stores of a call is
    [mbox_property_fill] of its view before. *)
Lemma held_stores cc size tagid (l : local) :
  held (mbox_property_stores cc size tagid l)
  = mbox_property_fill size tagid (held l).
Proof. reflexivity. Qed.

(** Where the stores do not reach memory, memory is as it was. *)
Lemma stack_stores_kept cc size tagid (l : local) :
  flushes cc = false ->
  stack (mbox_property_stores cc size tagid l) = stack l.
Proof.
  intros F. unfold mbox_property_stores, store_word. cbn [stack held].
  rewrite F. reflexivity.
Qed.

(** Where they do, memory holds the request. *)
Lemma stack_stores_request cc size tagid (l : local) :
  flushes cc = true ->
  length (held l) = (6 + size)%nat -> length (stack l) = (6 + size)%nat ->
  Z.of_nat size < 2 ^ 29 ->
  stack (mbox_property_stores cc size tagid l)
  = [round_up (serialized_length size) 16; PROP_REQUEST; wrap32 tagid;
     4 * Z.of_nat size; 4 * Z.of_nat size]
    ++ firstn size (skipn 5 (stack l)) ++ [0].
Proof.
  intros F Lh Ls Hsize.
  unfold mbox_property_stores, store_word. cbn [stack held]. rewrite F.
  apply request_of_words;
    [exact Ls | rewrite !length_set_word; exact Ls | exact Hsize |].
  intros j Hj.
  unfold W_END, W_BUFFER_SIZE, W_CODE, W_TAG, W_TAG_BUFFER_SIZE,
    W_TAG_RESPONSE.
  change (sizeof (TArray TUInt32 (Z.of_nat size))) with (4 * Z.of_nat size).
  destruct (Nat.eqb_spec j (5 + size)) as [->|Hend].
  { rewrite !word_set_word_eq by (rewrite !length_set_word; lia).
    reflexivity. }
  rewrite !(word_set_word_neq (5 + size) j) by lia.
  destruct (Nat.eqb_spec j 4) as [->|H4].
  { rewrite !(word_set_word_eq 4) by (rewrite !length_set_word; lia).
    apply response_word_fresh. }
  rewrite !(word_set_word_neq 4 j) by lia.
  destruct (Nat.eqb_spec j 3) as [->|H3].
  { rewrite !(word_set_word_eq 3) by (rewrite !length_set_word; lia).
    reflexivity. }
  rewrite !(word_set_word_neq 3 j) by lia.
  destruct (Nat.eqb_spec j 2) as [->|H2].
  { rewrite !(word_set_word_eq 2) by (rewrite !length_set_word; lia).
    reflexivity. }
  rewrite !(word_set_word_neq 2 j) by lia.
  destruct (Nat.eqb_spec j 1) as [->|H1].
  { rewrite !(word_set_word_eq 1) by (rewrite !length_set_word; lia).
    reflexivity. }
  rewrite !(word_set_word_neq 1 j) by lia.
  destruct (Nat.eqb_spec j 0) as [->|H0].
  { rewrite !(word_set_word_eq 0) by lia. reflexivity. }
  rewrite !(word_set_word_neq 0 j) by lia. reflexivity.
Qed.

(** The requests of the clock calls, for the program and in memory. *)
Lemma request_2 cc tagid (l : local) (a b : Z) :
  length (held l) = 8%nat -> length (stack l) = 8%nat ->
  held (mbox_property_stores cc 2 tagid
          (store_word cc (W_DATA 1) b (store_word cc (W_DATA 0) a l)))
  = [32; 0; wrap32 tagid; 8; 8; wrap32 a; wrap32 b; 0] /\
  stack (mbox_property_stores cc 2 tagid
           (store_word cc (W_DATA 1) b (store_word cc (W_DATA 0) a l)))
  = if flushes cc then [32; 0; wrap32 tagid; 8; 8; wrap32 a; wrap32 b; 0]
    else stack l.
Proof.
  intros Lh Ls. destruct l as [hl sl]. cbn [held stack] in Lh, Ls.
  destruct hl as [|h0 [|h1 [|h2 [|h3 [|h4 [|h5 [|h6 [|h7 [|]]]]]]]]];
    try discriminate Lh.
  destruct sl as [|s0 [|s1 [|s2 [|s3 [|s4 [|s5 [|s6 [|s7 [|]]]]]]]]];
    try discriminate Ls.
  split.
  - rewrite held_stores. cbn [held store_word].
    rewrite fill_request by (rewrite ?length_set_word; reflexivity).
    reflexivity.
  - destruct (flushes cc) eqn:F.
    + rewrite stack_stores_request;
        [ unfold store_word; cbn [held stack]; rewrite F; reflexivity
        | exact F
        | unfold store_word; cbn [held stack];
          rewrite ?length_set_word; reflexivity
        | unfold store_word; cbn [held stack]; rewrite F;
          rewrite ?length_set_word; reflexivity
        | reflexivity ].
    + rewrite stack_stores_kept by assumption.
      unfold store_word. cbn [held stack]. rewrite F. reflexivity.
Qed.

Lemma request_3 cc tagid (l : local) (a b c : Z) :
  length (held l) = 9%nat -> length (stack l) = 9%nat ->
  held (mbox_property_stores cc 3 tagid
          (store_word cc (W_DATA 2) c
             (store_word cc (W_DATA 1) b (store_word cc (W_DATA 0) a l))))
  = [48; 0; wrap32 tagid; 12; 12; wrap32 a; wrap32 b; wrap32 c; 0] /\
  stack (mbox_property_stores cc 3 tagid
           (store_word cc (W_DATA 2) c
              (store_word cc (W_DATA 1) b (store_word cc (W_DATA 0) a l))))
  = if flushes cc
    then [48; 0; wrap32 tagid; 12; 12; wrap32 a; wrap32 b; wrap32 c; 0]
    else stack l.
Proof.
  intros Lh Ls. destruct l as [hl sl]. cbn [held stack] in Lh, Ls.
  destruct hl as [|h0 [|h1 [|h2 [|h3 [|h4 [|h5 [|h6 [|h7 [|h8 [|]]]]]]]]]];
    try discriminate Lh.
  destruct sl as [|s0 [|s1 [|s2 [|s3 [|s4 [|s5 [|s6 [|s7 [|s8 [|]]]]]]]]]];
    try discriminate Ls.
  split.
  - rewrite held_stores. cbn [held store_word].
    rewrite fill_request by (rewrite ?length_set_word; reflexivity).
    reflexivity.
  - destruct (flushes cc) eqn:F.
    + rewrite stack_stores_request;
        [ unfold store_word; cbn [held stack]; rewrite F; reflexivity
        | exact F
        | unfold store_word; cbn [held stack];
          rewrite ?length_set_word; reflexivity
        | unfold store_word; cbn [held stack]; rewrite F;
          rewrite ?length_set_word; reflexivity
        | reflexivity ].
    + rewrite stack_stores_kept by assumption.
      unfold store_word. cbn [held stack]. rewrite F. reflexivity.
Qed.

(** The first request of [mbox_set_clock]: its third value word was never
    stored. *)
Lemma request_state_of_set_clock cc tagid (junk : nat -> Z) (a b : Z) :
  held (mbox_property_stores cc 3 tagid
          (store_word cc (W_DATA 1) b
             (store_word cc (W_DATA 0) a (declare 3 junk))))
  = [48; 0; wrap32 tagid; 12; 12; wrap32 a; wrap32 b; wrap32 (junk 7%nat); 0]
  /\
  stack (mbox_property_stores cc 3 tagid
           (store_word cc (W_DATA 1) b
              (store_word cc (W_DATA 0) a (declare 3 junk))))
  = if flushes cc
    then [48; 0; wrap32 tagid; 12; 12; wrap32 a; wrap32 b;
          wrap32 (junk 7%nat); 0]
    else uninit 3 junk.
Proof.
  split.
  - rewrite held_stores. cbn [held store_word declare].
    rewrite fill_request
      by (rewrite ?length_set_word, ?length_uninit; reflexivity).
    reflexivity.
  - destruct (flushes cc) eqn:F.
    + rewrite stack_stores_request;
        [ unfold store_word, declare; cbn [held stack]; rewrite F;
          reflexivity
        | exact F
        | unfold store_word, declare; cbn [held stack];
          rewrite ?length_set_word, ?length_uninit; reflexivity
        | unfold store_word, declare; cbn [held stack]; rewrite F;
          rewrite ?length_set_word, ?length_uninit; reflexivity
        | reflexivity ].
    + rewrite stack_stores_kept by assumption.
      unfold store_word, declare. cbn [held stack]. rewrite F. reflexivity.
Qed.

Section PropertyRuns.
Context {D : Type} (h : hw D) (ch : Z) (fw : D -> list Z -> nat -> Z).

(** What [mbox_property_call] comes to: the firmware is handed the words in
    memory; afterwards memory holds what it left, and the program has
    that, or its own words, as the build has it. *)
Lemma mbox_property_call_run cc fuel size addr tagid (l : local) d :
  mbox_property_call h ch fw cc fuel size addr tagid l d =
  match mbox_call h fuel ch addr d with
  | None => None
  | Some (_, d1, t1) =>
      Some ({| held :=
                 if reloads cc
                 then map (fun i =>
                             wrap32 (fw d1 (stack (mbox_property_stores
                                                     cc size tagid l)) i))
                          (seq 0 (length (stack (mbox_property_stores
                                                   cc size tagid l))))
                 else held (mbox_property_stores cc size tagid l);
               stack :=
                 map (fun i =>
                        wrap32 (fw d1 (stack (mbox_property_stores
                                                cc size tagid l)) i))
                     (seq 0 (length (stack (mbox_property_stores
                                              cc size tagid l)))) |},
            d1, EvSubmit (stack (mbox_property_stores cc size tagid l)) :: t1)
  end.
Proof.
  unfold mbox_property_call, bind, submit, readback, ret.
  destruct (mbox_call h fuel ch addr d) as [[[u d1] t1]|]; [|reflexivity].
  cbn [app]. now rewrite app_nil_r.
Qed.

Ltac plain_words :=
  rewrite ?wrap32_clock_id;
  change (wrap32 MBOX_TAG_GET_CLOCK_STATE) with MBOX_TAG_GET_CLOCK_STATE;
  change (wrap32 MBOX_TAG_GET_CLOCK_RATE) with MBOX_TAG_GET_CLOCK_RATE;
  change (wrap32 MBOX_TAG_GET_CLOCK_RATE_MEASURED)
    with MBOX_TAG_GET_CLOCK_RATE_MEASURED;
  change (wrap32 MBOX_TAG_SET_CLOCK_STATE) with MBOX_TAG_SET_CLOCK_STATE;
  change (wrap32 MBOX_TAG_SET_CLOCK_RATE) with MBOX_TAG_SET_CLOCK_RATE;
  change (wrap32 0) with 0; change (wrap32 1) with 1.

(** [mbox_get_clock], in every build. *)
Lemma mbox_get_clock_run cc fuel addr junk clock d :
  mbox_get_clock h ch fw cc fuel addr junk clock d =
  let ask := [32; 0; MBOX_TAG_GET_CLOCK_STATE; 8; 8; clock_id clock; 0; 0] in
  let rate := [32; 0; MBOX_TAG_GET_CLOCK_RATE; 8; 8; clock_id clock; 0; 0] in
  let seen := if flushes cc then ask else uninit 2 junk in
  match mbox_call h fuel ch addr d with
  | None => None
  | Some (_, d1, t1) =>
      if (if reloads cc then wrap32 (fw d1 seen (W_DATA 1)) else 0) =? 0
      then Some (0, d1, EvSubmit seen :: t1)
      else
        match mbox_call h fuel ch addr d1 with
        | None => None
        | Some (_, d2, t2) =>
            Some (wrap32 (fw d2 rate (W_DATA 1)), d2,
                  (EvSubmit seen :: t1) ++ EvSubmit rate :: t2)
        end
  end.
Proof.
  cbv zeta. unfold mbox_get_clock. cbv zeta.
  unfold bind at 1. rewrite mbox_property_call_run.
  destruct (request_2 cc MBOX_TAG_GET_CLOCK_STATE (declare 2 junk)
              (clock_id clock) 0 (length_uninit 2 junk) (length_uninit 2 junk))
    as [Hh Hs].
  cbn [stack declare] in Hs. rewrite Hh, Hs. plain_words.
  destruct (mbox_call h fuel ch addr d) as [[[u d1] t1]|]; [|reflexivity].
  cbv beta iota. cbn [held].
  destruct cc; cbn [flushes reloads].
  - unfold W_DATA. cbn [Nat.add]. unfold word at 1.
    cbn [length seq map nth].
    destruct (wrap32 (fw d1 _ 6%nat) =? 0).
    + unfold ret. now rewrite app_nil_r.
    + unfold bind. rewrite mbox_property_call_run.
      match goal with
      | |- context [mbox_property_stores InMemory 2 _
                      (store_word _ _ _ (store_word _ _ _ ?l))] =>
          destruct (request_2 InMemory MBOX_TAG_GET_CLOCK_RATE l
                      (clock_id clock) 0 eq_refl eq_refl) as [Hh2 Hs2]
      end.
      unfold W_DATA in Hs2. cbn [Nat.add] in Hs2.
      rewrite Hs2. cbn [flushes reloads]. plain_words.
      destruct (mbox_call h fuel ch addr d1) as [[[u2 d2] t2]|];
        [|reflexivity].
      unfold ret. cbn [held length seq map]. unfold word.
      cbn [nth]. now rewrite app_nil_r.
  - unfold word, W_DATA. cbn [nth Nat.add]. change (0 =? 0) with true.
    cbv iota. unfold ret. now rewrite app_nil_r.
  - unfold word, W_DATA. cbn [nth Nat.add]. change (0 =? 0) with true.
    cbv iota. unfold ret. now rewrite app_nil_r.
Qed.

(** [mbox_get_clock_measured], in every build. *)
Lemma mbox_get_clock_measured_run cc fuel addr junk clock d :
  mbox_get_clock_measured h ch fw cc fuel addr junk clock d =
  let ask := [32; 0; MBOX_TAG_GET_CLOCK_RATE_MEASURED; 8; 8;
              clock_id clock; 0; 0] in
  let seen := if flushes cc then ask else uninit 2 junk in
  match mbox_call h fuel ch addr d with
  | None => None
  | Some (_, d1, t1) =>
      Some (if reloads cc then wrap32 (fw d1 seen (W_DATA 1)) else 0,
            d1, EvSubmit seen :: t1)
  end.
Proof.
  cbv zeta. unfold mbox_get_clock_measured. cbv zeta.
  unfold bind. rewrite mbox_property_call_run.
  destruct (request_2 cc MBOX_TAG_GET_CLOCK_RATE_MEASURED (declare 2 junk)
              (clock_id clock) 0 (length_uninit 2 junk) (length_uninit 2 junk))
    as [Hh Hs].
  cbn [stack declare] in Hs. rewrite Hh, Hs. plain_words.
  destruct (mbox_call h fuel ch addr d) as [[[u d1] t1]|]; [|reflexivity].
  unfold ret. cbn [held]. rewrite app_nil_r.
  destruct cc; cbn [flushes reloads]; reflexivity.
Qed.

(** [mbox_set_clock], in every build. *)
Lemma mbox_set_clock_run cc fuel addr junk clock freq d :
  mbox_set_clock h ch fw cc fuel addr junk clock freq d =
  let state := [48; 0; MBOX_TAG_SET_CLOCK_STATE; 12; 12; clock_id clock; 1;
                wrap32 (junk 7%nat); 0] in
  let rate := [48; 0; MBOX_TAG_SET_CLOCK_RATE; 12; 12; clock_id clock;
               wrap32 freq; 0; 0] in
  match mbox_call h fuel ch addr d with
  | None => None
  | Some (_, d1, t1) =>
      match mbox_call h fuel ch addr d1 with
      | None => None
      | Some (_, d2, t2) =>
          Some (tt, d2,
                (EvSubmit (if flushes cc then state else uninit 3 junk)
                   :: t1) ++
                EvSubmit (if flushes cc then rate
                          else map (fun i =>
                                      wrap32 (fw d1 (uninit 3 junk) i))
                                   (seq 0 9))
                  :: t2)
      end
  end.
Proof.
  cbv zeta. unfold mbox_set_clock. cbv zeta.
  unfold bind at 1. rewrite mbox_property_call_run.
  destruct (request_state_of_set_clock cc MBOX_TAG_SET_CLOCK_STATE junk
              (clock_id clock) 1) as [Hh Hs].
  rewrite Hh, Hs. plain_words.
  destruct (mbox_call h fuel ch addr d) as [[[u d1] t1]|]; [|reflexivity].
  cbv beta iota. unfold bind. rewrite mbox_property_call_run.
  match goal with
  | |- context [mbox_property_stores cc 3 _
                  (store_word _ _ _
                     (store_word _ _ _ (store_word _ _ _ ?l)))] =>
      assert (Lh : length (held l) = 9%nat)
        by (cbn [held]; destruct cc; cbn [flushes reloads];
            rewrite ?length_map, ?length_seq, ?length_uninit; reflexivity);
      assert (Ls : length (stack l) = 9%nat)
        by (cbn [stack]; destruct cc; cbn [flushes];
            rewrite ?length_map, ?length_seq, ?length_uninit; reflexivity);
      destruct (request_3 cc MBOX_TAG_SET_CLOCK_RATE l
                  (clock_id clock) freq 0 Lh Ls) as [Hh2 Hs2]
  end.
  rewrite Hs2. cbn [stack]. plain_words.
  destruct (mbox_call h fuel ch addr d1) as [[[u2 d2] t2]|]; [|reflexivity].
  unfold ret. rewrite app_nil_r.
  destruct cc; cbn [flushes]; reflexivity.
Qed.
End PropertyRuns.

Section ClockBuilds.
Context {D : Type} (h : hw D) (ch : Z).

Lemma register_events_app (a b : trace) :
  register_events (a ++ b) = register_events a ++ register_events b.
Proof. apply filter_app. Qed.

(** The clock calls do not look at the status code.  For two firmwares
    that leave the same value words in every buffer, whatever they leave
    in the header code word and in the tag header: [mbox_get_clock] and
    [mbox_get_clock_measured] have the same result, hardware state and
    trace in every build; so has [mbox_set_clock] in the builds that store
    the buffer in memory; and in every build its result, hardware state,
    register accesses and barriers are the same. *)
Lemma clock_calls_same_for_same_data (fw1 fw2 : D -> list Z -> nat -> Z) :
  same_data_words fw1 fw2 ->
  forall (cc : build) (fuel : nat) (addr : Z) (junk : nat -> Z)
         (clock : mbox_property_clock_t) (freq : Z) (d : D),
    mbox_get_clock h ch fw1 cc fuel addr junk clock d
    = mbox_get_clock h ch fw2 cc fuel addr junk clock d /\
    mbox_get_clock_measured h ch fw1 cc fuel addr junk clock d
    = mbox_get_clock_measured h ch fw2 cc fuel addr junk clock d /\
    (flushes cc = true ->
     mbox_set_clock h ch fw1 cc fuel addr junk clock freq d
     = mbox_set_clock h ch fw2 cc fuel addr junk clock freq d) /\
    on_registers (mbox_set_clock h ch fw1 cc fuel addr junk clock freq d)
    = on_registers (mbox_set_clock h ch fw2 cc fuel addr junk clock freq d).
Proof.
  intros Hfw cc fuel addr junk clock freq d.
  assert (Hseen : forall d1 tagid,
            fw1 d1 (if flushes cc
                    then [32; 0; tagid; 8; 8; clock_id clock; 0; 0]
                    else uninit 2 junk) (W_DATA 1)
            = fw2 d1 (if flushes cc
                      then [32; 0; tagid; 8; 8; clock_id clock; 0; 0]
                      else uninit 2 junk) (W_DATA 1)).
  { intros d1 tagid. apply Hfw; [unfold W_DATA; lia|].
    destruct (flushes cc); [|rewrite length_uninit]; unfold W_DATA;
      simpl; lia. }
  split; [|split; [|split]].
  - rewrite !mbox_get_clock_run. cbv zeta.
    destruct (mbox_call h fuel ch addr d) as [[[u d1] t1]|]; [|reflexivity].
    rewrite (Hseen d1 MBOX_TAG_GET_CLOCK_STATE).
    destruct ((if reloads cc then _ else 0) =? 0); [reflexivity|].
    destruct (mbox_call h fuel ch addr d1) as [[[u2 d2] t2]|]; [|reflexivity].
    rewrite (Hfw d2 [32; 0; MBOX_TAG_GET_CLOCK_RATE; 8; 8; clock_id clock;
                     0; 0] (W_DATA 1))
      by (unfold W_DATA; simpl; lia).
    reflexivity.
  - rewrite !mbox_get_clock_measured_run. cbv zeta.
    destruct (mbox_call h fuel ch addr d) as [[[u d1] t1]|]; [|reflexivity].
    rewrite (Hseen d1 MBOX_TAG_GET_CLOCK_RATE_MEASURED). reflexivity.
  - intros F. rewrite !mbox_set_clock_run. cbv zeta. rewrite F.
    reflexivity.
  - rewrite !mbox_set_clock_run. cbv zeta.
    destruct (mbox_call h fuel ch addr d) as [[[u d1] t1]|]; [|reflexivity].
    destruct (mbox_call h fuel ch addr d1) as [[[u2 d2] t2]|];
      [|reflexivity].
    unfold on_registers. rewrite !register_events_app. reflexivity.
Qed.


(** X8 ([mbox_set_clock], mailbox.h): setting a clock is two mailbox
    calls and nothing else, in every build.  In a build that stores the
    buffer in memory the firmware is handed first the SET_CLOCK_STATE
    request with the values clock, 1 and a third value word that was never
    stored (whatever the stack held), then the SET_CLOCK_RATE request with
    the values clock, frequency, 0, whatever it answered to the first.  In
    a build that keeps the buffer in registers it is handed the untouched
    stack words, and then those words as it left them itself. *)
Theorem mbox_set_clock_sends_two_requests
        (fw : D -> list Z -> nat -> Z) (cc : build)
        (fuel : nat) (addr : Z) (junk : nat -> Z)
        (clock : mbox_property_clock_t) (freq : Z)
        (d d' : D) (t : trace) :
  mbox_set_clock h ch fw cc fuel addr junk clock freq d = Some (tt, d', t) ->
  exists d1 t1 t2,
    t = (EvSubmit
           (if flushes cc
            then [48; 0; MBOX_TAG_SET_CLOCK_STATE; 12; 12;
                  clock_id clock; 1; wrap32 (junk 7%nat); 0]
            else uninit 3 junk) :: t1) ++
        (EvSubmit
           (if flushes cc
            then [48; 0; MBOX_TAG_SET_CLOCK_RATE; 12; 12;
                  clock_id clock; wrap32 freq; 0; 0]
            else map (fun i => wrap32 (fw d1 (uninit 3 junk) i)) (seq 0 9))
           :: t2) /\
    mbox_call h fuel ch addr d = Some (tt, d1, t1) /\
    mbox_call h fuel ch addr d1 = Some (tt, d', t2) /\
    submitted t1 = [] /\ submitted t2 = [].
Proof.
  intros H. rewrite mbox_set_clock_run in H. cbv zeta in H.
  destruct (mbox_call h fuel ch addr d) as [[[[] d1] t1]|] eqn:E1;
    [|discriminate H].
  destruct (mbox_call h fuel ch addr d1) as [[[[] d2] t2]|] eqn:E2;
    [|discriminate H].
  injection H as Hd Ht. subst d2.
  exists d1, t1, t2. split; [symmetry; exact Ht|].
  split; [reflexivity|]. split; [exact E2|].
  split; eapply mbox_call_submits_nothing; eassumption.
Qed.

(** X9 ([mbox_get_clock_measured], mailbox.h): the measured rate is one
    mailbox call, in every build.  In a build that stores the buffer in
    memory the firmware is handed the GET_CLOCK_RATE_MEASURED request with
    the values clock and 0, otherwise the untouched stack words.  The
    result is the second value word as the firmware left it, whatever the
    status code and the response bit say, in the build that reads the
    buffer again after the call; in the other builds it is the 0 the
    function stored itself. *)
Theorem mbox_get_clock_measured_is_one_request
        (fw : D -> list Z -> nat -> Z) (cc : build)
        (fuel : nat) (addr : Z) (junk : nat -> Z)
        (clock : mbox_property_clock_t) (d d' : D) (v : Z) (t : trace) :
  mbox_get_clock_measured h ch fw cc fuel addr junk clock d
  = Some (v, d', t) ->
  let seen := if flushes cc
              then [32; 0; MBOX_TAG_GET_CLOCK_RATE_MEASURED; 8; 8;
                    clock_id clock; 0; 0]
              else uninit 2 junk in
  exists t1,
    t = EvSubmit seen :: t1 /\
    mbox_call h fuel ch addr d = Some (tt, d', t1) /\
    submitted t1 = [] /\
    v = if reloads cc then wrap32 (fw d' seen (W_DATA 1)) else 0.
Proof.
  intros H. rewrite mbox_get_clock_measured_run in H. cbv zeta in H |- *.
  destruct (mbox_call h fuel ch addr d) as [[[[] d1] t1]|] eqn:E1;
    [|discriminate H].
  injection H as Hv Hd Ht. subst d1.
  exists t1. split; [symmetry; exact Ht|]. split; [reflexivity|].
  split; [eapply mbox_call_submits_nothing; eassumption|].
  symmetry. exact Hv.
Qed.
End ClockBuilds.


Lemma mbox_set_clock_sends_two_requests_witness :
  exists d' t,
    mbox_set_clock scripted 8 (fw_stub PROP_RESPONSE_SUCCESS 1 3000000)
      InMemory 5 16 (fun _ => 0xdead) MBOX_CLOCK_UART 3000000 two_replies
    = Some (tt, d', t) /\
    submitted t
    = [[48; 0; MBOX_TAG_SET_CLOCK_STATE; 12; 12; 2; 1; 0xdead; 0];
       [48; 0; MBOX_TAG_SET_CLOCK_RATE; 12; 12; 2; 3000000; 0; 0]].
Proof.
  destruct (mbox_set_clock scripted 8
              (fw_stub PROP_RESPONSE_SUCCESS 1 3000000) InMemory
              5 16 (fun _ => 0xdead) MBOX_CLOCK_UART 3000000 two_replies)
    as [[[[] d'] t]|] eqn:E; [|vm_compute in E; discriminate E].
  destruct (mbox_set_clock_sends_two_requests scripted 8 _ _ _ _ _ _ _ _ d' t E)
    as (d1 & t1 & t2 & Ht & _ & _ & S1 & S2).
  exists d', t. split; [reflexivity|].
  rewrite Ht, submitted_app. cbn [submitted flat_map app flushes].
  fold (submitted t1). fold (submitted t2). rewrite S1, S2. reflexivity.
Defined.

Lemma mbox_get_clock_measured_is_one_request_witness :
  exists d' t,
    mbox_get_clock_measured scripted 8
      (fw_stub PROP_RESPONSE_SUCCESS 1 3000000) InMemory 5 16
      (fun _ => 0xdead) MBOX_CLOCK_UART two_replies
    = Some (3000000, d', t) /\
    submitted t = [[32; 0; MBOX_TAG_GET_CLOCK_RATE_MEASURED; 8; 8; 2; 0; 0]].
Proof.
  destruct (mbox_get_clock_measured scripted 8
              (fw_stub PROP_RESPONSE_SUCCESS 1 3000000) InMemory 5 16
              (fun _ => 0xdead) MBOX_CLOCK_UART two_replies)
    as [[[v d'] t]|] eqn:E; [|vm_compute in E; discriminate E].
  destruct (mbox_get_clock_measured_is_one_request scripted 8 _ _ _ _ _ _
              _ d' v t E) as (t1 & Ht & _ & S1 & Hv).
  exists d', t. split.
  - rewrite Hv. reflexivity.
  - rewrite Ht. cbn [submitted flat_map app flushes].
    fold (submitted t1). rewrite S1. reflexivity.
Defined.

(* ================================================================== *)
(** * The clock gating of the counting loop *)

Section Gating.
Context {D : Type} (h : hw D).

Lemma writes_of_ev_wr_field r f v w :
  writes_of r (ev_wr_field r f v w)
  = [wrap32 (field_set (fst f) (snd f) v w)].
Proof. unfold ev_wr_field. simpl. now rewrite reg_eqb_refl. Qed.

Lemma writes_of_ev_wr_field_other r r' f v w :
  r <> r' -> writes_of r (ev_wr_field r' f v w) = [].
Proof. intros H. unfold ev_wr_field. simpl. now rewrite reg_eqb_neq. Qed.

Lemma reads_of_ev_wr_field_other r r' f v w :
  r <> r' -> reads_of r (ev_wr_field r' f v w) = [].
Proof. intros H. unfold ev_wr_field. simpl. now rewrite reg_eqb_neq. Qed.

(** One pass of the counting loop: a byte that is not the marker has the
    clock disabled and enabled again, once; the marker leaves the mode
    register and the timer alone. *)
Lemma sync_body_gating fuel cnt incoming d cnt' inc' d' t :
  sync_body h fuel cnt incoming d = Some ((cnt', inc'), d', t) ->
  map (field_get (fst CLK_DIS) (snd CLK_DIS)) (writes_of PCM_MODE t)
  = (if incoming =? marker then [] else [1; 0]) /\
  writes_of PCM_FIFO t = [] /\
  (incoming = marker -> reads_of ST_CLO t = []).
Proof.
  unfold sync_body. intros H.
  apply bind_inv in H as (c & d1 & t1 & t2 & Hc & Hk & ->).
  apply bind_inv in Hk as (b & d2 & t3 & t4 & Hr & Hret & ->).
  apply spisl_read_inv in Hr as (ws & w & v & -> & -> & _ & _).
  unfold ret in Hret.
  assert (t4 = []) by congruence. subst t4. clear Hret.
  rewrite !writes_of_app, !reads_of_app, !writes_of_ev_reads.
  rewrite !reads_of_ev_reads_other by discriminate.
  cbn [writes_of reads_of flat_map app]. rewrite !app_nil_r.
  destruct (incoming =? marker) eqn:E; cbn [negb] in Hc; cbv beta iota in Hc.
  - unfold ret in Hc. assert (t1 = []) by congruence. subst t1.
    repeat split.
  - apply bind_inv in Hc as (u1 & d3 & t5 & t6 & H1 & Hc & ->).
    apply bind_inv in Hc as (u2 & d4 & t7 & t8 & H2 & Hc & ->).
    apply bind_inv in Hc as (u3 & d5 & t9 & t10 & H3 & Hc & ->).
    apply wr_field_inv in H1 as (w1 & ->).
    apply st_delay_inv in H2 as (start & early & ln & -> & _ & _).
    apply wr_field_inv in H3 as (w3 & ->).
    unfold ret in Hc. assert (t10 = []) by congruence. subst t10.
    change (EvRead ST_CLO start :: ev_reads ST_CLO (early ++ [ln]))
      with (ev_reads ST_CLO (start :: early ++ [ln])).
    rewrite !writes_of_app, !writes_of_ev_reads.
    rewrite !writes_of_ev_wr_field.
    rewrite !writes_of_ev_wr_field_other by discriminate.
    cbn [app map writes_of flat_map].
    split; [|split].
    + unfold CLK_DIS. cbn [fst snd].
      rewrite !field_get_set_same by lia. reflexivity.
    + reflexivity.
    + intros ->. discriminate E.
Qed.

Lemma sync_count_gating fuel :
  forall n c b d cf inc d' t,
    iter n
      (fun s : Z * Z =>
         if fst s <? 10 then
           s' <- sync_body h fuel (fst s + 1) (snd s) ;; ret (inl s')
         else ret (inr (fst s + 1, snd s)))
      (c, b) d = Some ((cf, inc), d', t) ->
    let examined := removelast (b :: map wrap8 (reads_of PCM_FIFO t)) in
    map (field_get (fst CLK_DIS) (snd CLK_DIS)) (writes_of PCM_MODE t)
    = flat_map (fun x => if x =? marker then [] else [1; 0]) examined /\
    writes_of PCM_FIFO t = [] /\
    (Forall (fun x => x = marker) examined -> reads_of ST_CLO t = []).
Proof.
  induction n as [|n IH]; intros c b d cf inc d' t H; [discriminate|].
  rewrite iter_S in H. cbn [fst snd] in H.
  destruct (c <? 10) eqn:E10.
  - apply bind_inv in H as (a & d1 & t1 & t2 & Hb & Hk & ->).
    apply bind_inv in Hb as ([c1 b1] & d2 & t3 & t4 & Hbody & Hret & ->).
    unfold ret in Hret.
    assert (a = inl (c1, b1)) by congruence.
    assert (t4 = []) by congruence. assert (d2 = d1) by congruence.
    subst a t4 d2.
    pose proof (sync_body_gating _ _ _ _ _ _ _ _ Hbody) as (G1 & G2 & G3).
    apply sync_body_inv in Hbody as (_ & v & Hv & ->).
    specialize (IH c1 (wrap8 v) d1 cf inc d' t2 Hk).
    cbv zeta in IH. destruct IH as (I1 & I2 & I3).
    cbv zeta. rewrite !reads_of_app, !writes_of_app, Hv, app_nil_r.
    cbn [app map]. rewrite removelast_cons. cbn [flat_map].
    rewrite map_app, G1, I1, G2, I2.
    split; [reflexivity|]. split; [reflexivity|].
    intros Hall. inversion Hall as [|? ? Hb Hrest]; subst.
    rewrite (G3 eq_refl), (I3 Hrest). reflexivity.
  - unfold bind, ret in H. simpl in H.
    assert (t = []) by congruence. subst.
    cbv zeta. simpl. auto.
Qed.

(** X10 ([spisl_synchronize], spisl.h): the counting loop gates the clock
    once for every byte it examines that is not the marker, and only then.
    Read field by field, the words it writes to the mode register are a
    clock-disable of 1 followed by a clock-disable of 0 for each such
    byte, in the order of the bytes; the loop writes nothing to the FIFO;
    and if every byte examined is the marker it never reads the timer. *)
Theorem sync_count_gates_clock_once_per_mismatch
        (fuel : nat) (c b : Z) (d d' : D) (cf inc : Z) (t : trace) :
  sync_count h fuel c b d = Some ((cf, inc), d', t) ->
  let examined := removelast (b :: map wrap8 (reads_of PCM_FIFO t)) in
  map (field_get (fst CLK_DIS) (snd CLK_DIS)) (writes_of PCM_MODE t)
  = flat_map (fun x => if x =? marker then [] else [1; 0]) examined /\
  writes_of PCM_FIFO t = [] /\
  (Forall (fun x => x = marker) examined -> reads_of ST_CLO t = []).
Proof. apply sync_count_gating. Qed.
End Gating.

Lemma sync_count_gates_clock_once_per_mismatch_witness :
  exists cf inc d' t,
    sync_count scripted 30 0 marker nine_then_wrong
    = Some ((cf, inc), d', t) /\
    map (field_get (fst CLK_DIS) (snd CLK_DIS)) (writes_of PCM_MODE t)
    = [1; 0].
Proof.
  destruct (sync_count scripted 30 0 marker nine_then_wrong)
    as [[[[cf inc] d'] t]|] eqn:E; [|vm_compute in E; discriminate E].
  pose proof (sync_count_gates_clock_once_per_mismatch scripted _ _ _ _ _ _
                _ _ E) as (H & _).
  exists cf, inc, d', t. split; [reflexivity|].
  rewrite H. vm_compute in E.
  injection E as _ _ _ Et. subst t. reflexivity.
Defined.

(* ================================================================== *)
(** * The handshake on any hardware *)

Section Handshake.
Context {D : Type} (h : hw D).

(** The wait for the sentinel: of the bytes it looks at, the byte it was
    entered with and the bytes it reads, the last is the sentinel and no
    other is. *)
Lemma wait_for_inv fuel sentinel :
  forall n inc d u d' t,
    iter n
      (fun incoming : Z =>
         if negb (incoming =? sentinel) then
           b <- spisl_read h fuel ;; ret (inl b)
         else ret (inr tt))
      inc d = Some (u, d', t) ->
    let seen := inc :: map wrap8 (reads_of PCM_FIFO t) in
    writes_of PCM_FIFO t = [] /\
    last seen 0 = sentinel /\
    Forall (fun x => x <> sentinel) (removelast seen).
Proof.
  induction n as [|n IH]; intros inc d u d' t H; [discriminate|].
  rewrite iter_S in H.
  destruct (inc =? sentinel) eqn:E; cbn [negb] in H; cbv beta iota in H.
  - unfold bind, ret in H. simpl in H.
    assert (t = []) by congruence. subst t.
    apply Z.eqb_eq in E. cbv zeta. simpl. auto.
  - apply Z.eqb_neq in E.
    apply bind_inv in H as (a & d1 & t1 & t2 & Hb & Hk & ->).
    apply bind_inv in Hb as (b & d2 & t3 & t4 & Hr & Hret & ->).
    unfold ret in Hret.
    assert (a = inl b) by congruence.
    assert (t4 = []) by congruence. assert (d2 = d1) by congruence.
    subst a t4 d2.
    apply spisl_read_inv in Hr as (ws & w & v & -> & -> & _ & _).
    specialize (IH (wrap8 v) d1 u d' t2 Hk).
    cbv zeta in IH. destruct IH as (I1 & I2 & I3).
    cbv zeta.
    rewrite !writes_of_app, !reads_of_app, !writes_of_ev_reads, I1.
    rewrite reads_of_ev_reads_other by discriminate.
    cbn [reads_of writes_of flat_map app map].
    rewrite reg_eqb_refl. cbn [app map].
    rewrite removelast_cons, last_cons.
    split; [reflexivity|]. split; [exact I2|].
    constructor; assumption.
Qed.

Lemma last_app_cons {A : Type} (l : list A) (x : A) (l' : list A) (dflt : A) :
  last (l ++ x :: l') dflt = last (x :: l') dflt.
Proof.
  induction l as [|y l IH]; [reflexivity|].
  change ((y :: l) ++ x :: l') with (y :: (l ++ x :: l')).
  destruct (l ++ x :: l') as [|z r] eqn:E.
  - destruct l; discriminate E.
  - rewrite last_cons. exact IH.
Qed.

(** X11 ([spisl_synchronize], spisl.h): whatever the hardware does, a
    handshake that returns has written to the FIFO exactly once, the
    marker as acknowledgement; the ten bytes examined last before the
    acknowledgement were all markers; and it has returned on the inverted
    marker: either the byte read after those ten markers was the inverted
    marker already, or the last byte read after the acknowledgement
    was. *)
Theorem spisl_synchronize_acknowledges_once
        (fuel : nat) (d d' : D) (t : trace) :
  spisl_synchronize h fuel d = Some (tt, d', t) ->
  exists t1 t2 pre,
    t = t1 ++ EvWrite PCM_FIFO marker :: t2 /\
    writes_of PCM_FIFO t1 = [] /\ writes_of PCM_FIFO t2 = [] /\
    removelast (map wrap8 (reads_of PCM_FIFO t1)) = pre ++ repeat marker 10 /\
    (last (map wrap8 (reads_of PCM_FIFO t1)) 0 = 0x7E \/
     last (map wrap8 (reads_of PCM_FIFO t2)) 0 = 0x7E).
Proof.
  intros H. unfold spisl_synchronize in H.
  apply bind_inv in H as (b & d1 & ta & tb & Hr & H & ->).
  apply bind_inv in H as ([cf inc] & d2 & tc & td & Hc & H & ->).
  apply bind_inv in H as ([] & d3 & te & tf & Hw & Hwait & ->).
  apply spisl_read_inv in Hr as (ws & w & v & -> & -> & _ & _).
  pose proof (sync_count_gating h fuel _ _ _ _ _ _ _ _ Hc) as (_ & G & _).
  apply sync_count_inv in Hc; [|lia].
  cbv zeta in Hc. destruct Hc as (_ & Hinc & Hex).
  apply spisl_write_inv in Hw as (ws' & w' & ps & wl & -> & _ & _ & _ & _).
  cbn [snd] in Hwait. unfold wait_for in Hwait.
  apply wait_for_inv in Hwait. cbv zeta in Hwait.
  destruct Hwait as (W1 & W2 & _).
  change (wrap8 marker) with marker.
  exists ((ev_reads PCM_CS (ws ++ [w]) ++ [EvRead PCM_FIFO v]) ++ tc ++
          ev_reads PCM_CS (ws' ++ [w'])),
         (ev_drain ps ++ [EvRead PCM_CS wl] ++ tf).
  assert (R1 : map wrap8
                 (reads_of PCM_FIFO
                    ((ev_reads PCM_CS (ws ++ [w]) ++ [EvRead PCM_FIFO v]) ++
                     tc ++ ev_reads PCM_CS (ws' ++ [w'])))
               = wrap8 v :: map wrap8 (reads_of PCM_FIFO tc)).
  { rewrite !reads_of_app.
    rewrite !reads_of_ev_reads_other by discriminate.
    cbn [reads_of flat_map app]. rewrite reg_eqb_refl.
    cbn [app map]. now rewrite app_nil_r. }
  assert (R2 : map wrap8
                 (reads_of PCM_FIFO (ev_drain ps ++ [EvRead PCM_CS wl] ++ tf))
               = map wrap8 (map snd ps) ++ map wrap8 (reads_of PCM_FIFO tf)).
  { rewrite !reads_of_app, reads_of_ev_drain.
    cbn [reads_of flat_map app]. rewrite reg_eqb_neq by discriminate.
    cbn [app]. now rewrite map_app. }
  rewrite R1, R2.
  assert (Hpre : exists pre,
             removelast (wrap8 v :: map wrap8 (reads_of PCM_FIFO tc))
             = pre ++ repeat marker 10).
  { destruct Hex as [Hex|(pre & x & Hex & Hx)].
    - exists []. exact Hex.
    - exists (pre ++ [x]). exact Hex. }
  destruct Hpre as (pre & Hpre). exists pre.
  split; [|split; [|split; [|split]]].
  - rewrite <- !app_assoc. cbn [app]. reflexivity.
  - rewrite !writes_of_app, !writes_of_ev_reads, G. reflexivity.
  - rewrite !writes_of_app, writes_of_ev_drain, W1. reflexivity.
  - exact Hpre.
  - rewrite <- Hinc.
    destruct (map wrap8 (reads_of PCM_FIFO tf)) as [|y l] eqn:Ef.
    + left. exact W2.
    + right. rewrite last_app_cons. rewrite last_cons in W2. exact W2.
Qed.
End Handshake.

Lemma spisl_synchronize_acknowledges_once_witness :
  exists d' t1 t2 pre,
    spisl_synchronize scripted 20 (handshake_timed (fun _ => 1%nat) 1)
    = Some (tt, d', t1 ++ EvWrite PCM_FIFO marker :: t2) /\
    removelast (map wrap8 (reads_of PCM_FIFO t1)) = pre ++ repeat marker 10.
Proof.
  destruct (spisl_synchronize scripted 20
              (handshake_timed (fun _ => 1%nat) 1))
    as [[[[] d'] t]|] eqn:E; [|vm_compute in E; discriminate E].
  destruct (spisl_synchronize_acknowledges_once scripted 20 _ d' t E)
    as (t1 & t2 & pre & Ht & _ & _ & Hpre & _).
  exists d', t1, t2, pre. rewrite <- Ht. split; [reflexivity | exact Hpre].
Defined.

(* ================================================================== *)
(** * The serial link as two queues *)

Lemma poll_cs_pcm (p : Z -> bool) (s : pcm) :
  poll pcm_hw PCM_CS p s =
  Some (p (match rxq s with [] => CS_TXD | _ :: _ => CS_RXD_TXD end), s,
        [EvRead PCM_CS (match rxq s with [] => CS_TXD | _ :: _ => CS_RXD_TXD end)]).
Proof. destruct s as [[|b q] x]; reflexivity. Qed.

Lemma rd_fifo_pcm (s : pcm) :
  rd pcm_hw PCM_FIFO s =
  Some (wrap32 (hd 0 (rxq s)), {| rxq := tl (rxq s); txq := txq s |},
        [EvRead PCM_FIFO (wrap32 (hd 0 (rxq s)))]).
Proof. reflexivity. Qed.

(** Draining takes every word that waits. *)
Lemma drain_rx_pcm :
  forall (q x : list Z) (fuel : nat),
    (length q < fuel)%nat ->
    exists t,
      drain_rx pcm_hw fuel {| rxq := q; txq := x |}
      = Some (tt, {| rxq := []; txq := x |}, t) /\
      reads_of PCM_FIFO t = map wrap32 q /\
      (forall r, writes_of r t = []).
Proof.
  induction q as [|b q IH]; intros x fuel Hf;
    (destruct fuel as [|fuel]; [simpl in Hf; lia|]);
    unfold drain_rx; rewrite iter_S; cbv beta; rewrite bind_assoc;
    rewrite (bind_Some _ _ _ _ _ _
               (eq_trans (nonzero_field_poll pcm_hw PCM_CS RXD _)
                         (poll_cs_pcm (raised RXD) _)));
    cbn [rxq].
  - change (raised RXD CS_TXD) with false. cbv iota.
    rewrite bind_ret_l. unfold ret.
    eexists. split; [reflexivity|]. split; [reflexivity|].
    intros r. reflexivity.
  - change (raised RXD CS_RXD_TXD) with true. cbv iota.
    rewrite !bind_assoc.
    rewrite (bind_Some _ _ _ _ _ _ (rd_fifo_pcm _)). cbn [rxq txq hd tl].
    rewrite bind_ret_l.
    destruct (IH x fuel ltac:(simpl in Hf; lia)) as (t & Hd & Hr & Hw).
    unfold drain_rx in Hd. rewrite Hd.
    eexists. split; [reflexivity|]. split.
    + cbn [app reads_of flat_map]. rewrite reg_eqb_neq by discriminate.
      rewrite reg_eqb_refl. cbn [app map]. f_equal. exact Hr.
    + intros r. cbn [app writes_of flat_map]. apply Hw.
Qed.

(** X12 ([spisl_write], spisl.h): a write throws away everything
    received so far.  With any number of received words waiting, the write
    returns (given a loop bound above that number) with the byte appended
    to the words for transmission and the receive queue empty: every
    waiting word was read from the FIFO and dropped. *)
Theorem spisl_write_discards_received_words
        (data : Z) (s : pcm) (fuel : nat) :
  (length (rxq s) < fuel)%nat ->
  exists t,
    spisl_write pcm_hw fuel data s
    = Some (tt, {| rxq := []; txq := txq s ++ [wrap8 data] |}, t) /\
    reads_of PCM_FIFO t = map wrap32 (rxq s) /\
    writes_of PCM_FIFO t = [wrap8 data].
Proof.
  intros Hf. destruct fuel as [|fuel]; [lia|].
  unfold spisl_write.
  assert (Hspin : spin (S fuel) (is_zero (rd_field pcm_hw PCM_CS TXD)) s
                  = Some (tt, s,
                          [EvRead PCM_CS
                             (match rxq s with
                              | [] => CS_TXD | _ :: _ => CS_RXD_TXD end)])).
  { unfold spin. rewrite iter_S. cbv beta. rewrite bind_assoc.
    rewrite (bind_Some _ _ _ _ _ _
               (eq_trans (is_zero_field_poll pcm_hw PCM_CS TXD _)
                         (poll_cs_pcm (fun w => negb (raised TXD w)) _))).
    destruct (rxq s); reflexivity. }
  rewrite (bind_Some _ _ _ _ _ _ Hspin).
  assert (Hwr : wr pcm_hw PCM_FIFO (wrap8 data) s
                = Some (tt, {| rxq := rxq s; txq := txq s ++ [wrap8 data] |},
                        [EvWrite PCM_FIFO (wrap8 data)])).
  { unfold wr. rewrite wrap32_wrap8. reflexivity. }
  rewrite (bind_Some _ _ _ _ _ _ Hwr).
  destruct (drain_rx_pcm (rxq s) (txq s ++ [wrap8 data]) (S fuel) Hf)
    as (t & Hd & Hr & Hw).
  rewrite Hd. eexists. split; [reflexivity|]. split.
  - cbn [app reads_of flat_map]. rewrite reg_eqb_neq by discriminate.
    cbn [app]. exact Hr.
  - cbn [app writes_of flat_map]. rewrite reg_eqb_refl.
    cbn [app]. f_equal. apply Hw.
Qed.

Lemma spisl_write_discards_received_words_witness :
  exists t,
    spisl_write pcm_hw 4 0x155 {| rxq := [1; 2; 3]; txq := [9] |}
    = Some (tt, {| rxq := []; txq := [9] ++ [wrap8 0x155] |}, t) /\
    reads_of PCM_FIFO t = map wrap32 [1; 2; 3] /\
    writes_of PCM_FIFO t = [wrap8 0x155].
Proof.
  apply (spisl_write_discards_received_words 0x155
           {| rxq := [1; 2; 3]; txq := [9] |} 4).
  simpl. lia.
Defined.

(** X13 ([spisl_poll], [spisl_read], spisl.h): a poll for no bytes
    answers 1 without an access to the hardware; a poll for one or more
    bytes answers by one read of the status word, nonzero exactly when a
    received word waits, whatever the number asked for; and after a
    nonzero answer a read returns at once, with the low eight bits of the
    oldest word, and takes that word off the queue. *)
Theorem spisl_poll_then_read_does_not_wait (num : Z) (s : pcm) :
  (num <= 0 -> spisl_poll pcm_hw num s = Some (1, s, [])) /\
  (0 < num ->
   exists v w,
     spisl_poll pcm_hw num s = Some (v, s, [EvRead PCM_CS w]) /\
     (v = 0 <-> rxq s = []) /\
     (v <> 0 ->
      forall fuel, (1 <= fuel)%nat ->
        spisl_read pcm_hw fuel s
        = Some (wrap8 (wrap32 (hd 0 (rxq s))),
                {| rxq := tl (rxq s); txq := txq s |},
                [EvRead PCM_CS w; EvRead PCM_FIFO (wrap32 (hd 0 (rxq s)))]))).
Proof.
  split.
  - intros Hn. unfold spisl_poll.
    replace (num <=? 0) with true by (symmetry; apply Z.leb_le; lia).
    reflexivity.
  - intros Hn. unfold spisl_poll.
    replace (num <=? 0) with false by (symmetry; apply Z.leb_gt; lia).
    destruct s as [[|b q] x].
    + exists 0, CS_TXD. split; [reflexivity|]. split; [tauto|].
      intros H. contradiction H. reflexivity.
    + exists 1, CS_RXD_TXD. split; [reflexivity|].
      split; [split; discriminate|].
      intros _ fuel Hf. destruct fuel as [|fuel]; [lia|].
      assert (Hspin : spin (S fuel) (is_zero (rd_field pcm_hw PCM_CS RXD))
                        {| rxq := b :: q; txq := x |}
                      = Some (tt, {| rxq := b :: q; txq := x |},
                              [EvRead PCM_CS CS_RXD_TXD])).
      { unfold spin. rewrite iter_S. cbv beta. rewrite bind_assoc.
        rewrite (bind_Some _ _ _ _ _ _
                   (eq_trans (is_zero_field_poll pcm_hw PCM_CS RXD _)
                             (poll_cs_pcm (fun w => negb (raised RXD w)) _))).
        reflexivity. }
      unfold spisl_read. rewrite (bind_Some _ _ _ _ _ _ Hspin).
      reflexivity.
Qed.

Lemma spisl_poll_then_read_does_not_wait_witness :
  exists v w,
    spisl_poll pcm_hw 5 {| rxq := [0x181]; txq := [] |}
    = Some (v, {| rxq := [0x181]; txq := [] |}, [EvRead PCM_CS w]) /\
    spisl_read pcm_hw 1 {| rxq := [0x181]; txq := [] |}
    = Some (0x81, {| rxq := []; txq := [] |},
            [EvRead PCM_CS w; EvRead PCM_FIFO 0x181]).
Proof.
  destruct (spisl_poll_then_read_does_not_wait 5
              {| rxq := [0x181]; txq := [] |}) as [_ H].
  destruct (H ltac:(lia)) as (v & w & Hp & Hz & Hr).
  exists v, w. split; [exact Hp|].
  apply Hr; [|lia].
  intros E. apply Hz in E. discriminate E.
Defined.

(* ================================================================== *)
(** * The clock divider of [spi_init] *)

(** X14 ([spi_init], spi.h): the divider stored for a speed of 1 bit/s or
    more is never below 2 nor above 65535, so never 0, the value that
    stands for the largest divider.  It is the core clock divided by the
    speed where that lies between 2 and 65535, and 2 otherwise: also for
    every speed of 3814 bit/s or less, where the quotient is 65536 or
    more. *)
Theorem spi_init_div_is_clamped_to_2 (speed : Z) :
  1 <= speed < 2 ^ 32 ->
  2 <= spi_init_div speed <= 65535 /\
  (speed <= 3814 -> spi_init_div speed = 2) /\
  (3815 <= speed <= 125000000 -> spi_init_div speed = CORE_CLOCK / speed) /\
  (125000000 < speed -> spi_init_div speed = 2).
Proof.
  intros Hs. unfold spi_init_div, CORE_CLOCK.
  rewrite Z.quot_div_nonneg by lia.
  assert (Hq : 0 <= 250000000 / speed <= 250000000).
  { split; [apply Z.div_pos; lia|].
    apply Z.div_le_upper_bound; nia. }
  rewrite wrap32_small by lia.
  assert (Hlo : speed <= 3814 -> 65536 <= 250000000 / speed).
  { intros H. apply Z.div_le_lower_bound; lia. }
  assert (Hmid : 3815 <= speed -> 250000000 / speed < 65536).
  { intros H. apply Z.div_lt_upper_bound; lia. }
  assert (Hhi : 125000000 < speed -> 250000000 / speed < 2).
  { intros H. apply Z.div_lt_upper_bound; lia. }
  assert (Hmid2 : speed <= 125000000 -> 2 <= 250000000 / speed).
  { intros H. apply Z.div_le_lower_bound; lia. }
  destruct (Z.leb_spec 65536 (250000000 / speed)) as [H1|H1]; cbv zeta.
  - change (0 <? 2) with true. cbv iota.
    repeat split; try lia.
  - destruct (Z.ltb_spec (250000000 / speed) 2) as [H2|H2];
      repeat split; try lia.
Qed.

Lemma spi_init_div_is_clamped_to_2_witness :
  spi_init_div 1000 = 2 /\ spi_init_div 1000000 = 250.
Proof.
  split.
  - destruct (spi_init_div_is_clamped_to_2 1000 ltac:(lia))
      as (_ & H & _).
    apply H. lia.
  - destruct (spi_init_div_is_clamped_to_2 1000000 ltac:(lia))
      as (_ & _ & H & _).
    rewrite H by lia. reflexivity.
Defined.

(* ================================================================== *)
(** * [spisl_flush] *)

(** X15 ([spisl_flush], spisl.h): a flush does nothing but read the
    status word: it returns at the first read that shows the transmit
    FIFO empty (TXE raised), every read before showed it not empty, and
    it writes nothing.  It has no other way out: on hardware that never
    raises TXE it does not return, whatever the bound on its loop. *)
Theorem spisl_flush_returns_on_empty_transmit_fifo
        {D : Type} (h : hw D) (Inv : D -> Prop) :
  (forall fuel d d' t,
      spisl_flush h fuel d = Some (tt, d', t) ->
      exists ws w,
        t = ev_reads PCM_CS (ws ++ [w]) /\
        Forall (fun x => raised TXE x = false) ws /\ raised TXE w = true)
  /\
  ((forall r d, Inv d -> Inv (snd (hw_read h r d))) ->
   (forall d, Inv d -> raised TXE (wrap32 (fst (hw_read h PCM_CS d))) = false) ->
   forall fuel d, Inv d -> spisl_flush h fuel d = None).
Proof.
  split.
  - intros fuel d d' t H. unfold spisl_flush in H.
    apply wait_raised_inv in H. exact H.
  - intros Hread Hstuck fuel d Hd. unfold spisl_flush.
    rewrite (spin_ext _ _ (is_zero_field_poll h PCM_CS TXE)).
    apply (spin_poll_stuck h Inv Hread); [|exact Hd].
    intros d0 Hd0. now rewrite Hstuck.
Qed.

Lemma spisl_flush_returns_on_empty_transmit_fifo_witness :
  (exists d' ws w,
      spisl_flush scripted 5
        (script_of [(PCM_CS, [CS_TXD; CS_TXD; mk_reg [(TXE, 1)]])])
      = Some (tt, d', ev_reads PCM_CS (ws ++ [w])) /\
      raised TXE w = true) /\
  (forall fuel, spisl_flush stuck_hw fuel tt = None).
Proof.
  pose proof (spisl_flush_returns_on_empty_transmit_fifo scripted
                (fun _ => True)) as [A _].
  pose proof (spisl_flush_returns_on_empty_transmit_fifo stuck_hw
                (fun _ => True)) as [_ B].
  split.
  - destruct (spisl_flush scripted 5
                (script_of [(PCM_CS, [CS_TXD; CS_TXD; mk_reg [(TXE, 1)]])]))
      as [[[[] d'] t]|] eqn:E; [|vm_compute in E; discriminate E].
    destruct (A _ _ _ _ E) as (ws & w & Ht & _ & Hw).
    exists d', ws, w. rewrite <- Ht. split; [reflexivity | exact Hw].
  - intros fuel. apply B; [intros; exact I | reflexivity | exact I].
Defined.

(* ================================================================== *)
(** * What [spisl_init] leaves in the registers *)

Lemma bind_run {D A B : Type} (m : M D A) (k : A -> M D B)
      d a d1 t1 b d2 t2 :
  m d = Some (a, d1, t1) -> k a d1 = Some (b, d2, t2) ->
  bind m k d = Some (b, d2, t1 ++ t2).
Proof. intros Hm Hk. rewrite (bind_Some _ _ _ _ _ _ Hm), Hk. reflexivity. Qed.

Lemma memory_barrier_run {D : Type} (d : D) :
  memory_barrier d = Some (tt, d, [EvBarrier]).
Proof. reflexivity. Qed.

Section Board.
Variable step : Z.

Lemma wr_board r v (s : regs) :
  wr (board step) r v s
  = Some (tt, store r (wrap32 v) s, [EvWrite r (wrap32 v)]).
Proof. reflexivity. Qed.

Lemma rd_board r (s : regs) :
  r <> ST_CLO ->
  rd (board step) r s = Some (wrap32 (s r), s, [EvRead r (wrap32 (s r))]).
Proof. intros H. destruct r; try reflexivity. congruence. Qed.

Lemma wr_field_board r f v (s : regs) w :
  r <> ST_CLO -> s r = w ->
  wr_field (board step) r f v s
  = Some (tt,
          store r (wrap32 (field_set (fst f) (snd f) v (wrap32 w))) s,
          ev_wr_field r f v (wrap32 w)).
Proof.
  intros H <-. unfold wr_field.
  rewrite (bind_Some _ _ _ _ _ _ (rd_board r s H)). reflexivity.
Qed.

Lemma poll_board r p (s : regs) :
  r <> ST_CLO ->
  poll (board step) r p s
  = Some (p (wrap32 (s r)), s, [EvRead r (wrap32 (s r))]).
Proof.
  intros H. unfold poll.
  rewrite (bind_Some _ _ _ _ _ _ (rd_board r s H)). reflexivity.
Qed.

Lemma spin_board_now r p (s : regs) (n : nat) :
  r <> ST_CLO -> p (wrap32 (s r)) = false ->
  spin (S n) (poll (board step) r p) s
  = Some (tt, s, [EvRead r (wrap32 (s r))]).
Proof.
  intros H Hp. unfold spin. rewrite iter_S. cbv beta.
  rewrite bind_assoc.
  rewrite (bind_Some _ _ _ _ _ _ (poll_board r p s H)). cbv beta.
  rewrite Hp. reflexivity.
Qed.

Lemma wait_raised_board r f (s : regs) (n : nat) w :
  r <> ST_CLO -> s r = w -> raised f (wrap32 w) = true ->
  spin (S n) (is_zero (rd_field (board step) r f)) s
  = Some (tt, s, [EvRead r (wrap32 w)]).
Proof.
  intros H <- Hp.
  rewrite (spin_ext _ _ (is_zero_field_poll (board step) r f)).
  apply spin_board_now; [exact H|]. now rewrite Hp.
Qed.

Lemma wait_cleared_board r f (s : regs) (n : nat) w :
  r <> ST_CLO -> s r = w -> raised f (wrap32 w) = false ->
  spin (S n) (nonzero (rd_field (board step) r f)) s
  = Some (tt, s, [EvRead r (wrap32 w)]).
Proof.
  intros H <- Hp.
  rewrite (spin_ext _ _ (nonzero_field_poll (board step) r f)).
  apply spin_board_now; assumption.
Qed.

Lemma drain_rx_board_idle (s : regs) (n : nat) w :
  s PCM_CS = w -> raised RXD (wrap32 w) = false ->
  drain_rx (board step) (S n) s
  = Some (tt, s, [EvRead PCM_CS (wrap32 w)]).
Proof.
  intros <- Hp. unfold drain_rx. rewrite iter_S. cbv beta.
  rewrite bind_assoc.
  rewrite (bind_Some _ _ _ _ _ _
             (eq_trans (nonzero_field_poll (board step) PCM_CS RXD s)
                       (poll_board PCM_CS (raised RXD) s ltac:(discriminate)))).
  rewrite Hp. reflexivity.
Qed.

Lemma gpio_configure_board_at gpio function (s : regs) w :
  s (GPIO_FSEL (Z.quot gpio 10)) = w ->
  gpio_configure (board step) gpio function s =
  Some (tt,
        store (GPIO_FSEL (Z.quot gpio 10))
          (wrap32 (field_set (Z.rem gpio 10 * 3) 3 function (wrap32 w))) s,
        ev_gpio_configure gpio function (wrap32 w)).
Proof. intros <-. apply gpio_configure_board. Qed.

(** The function of a pin after a store to a pin's field, and after a
    store to a register that selects no function. *)
Lemma gpio_function_same a f (s : regs) w :
  0 <= a ->
  gpio_function
    (store (GPIO_FSEL (Z.quot a 10))
       (wrap32 (field_set (Z.rem a 10 * 3) 3 f (wrap32 w))) s) a
  = f mod 8.
Proof.
  intros Ha. pose proof (pin_field_bounds a Ha) as [H1 H2].
  unfold gpio_function. rewrite store_same.
  rewrite field_get_set_same by lia. reflexivity.
Qed.

Lemma gpio_function_other a f (s : regs) w b :
  0 <= a -> 0 <= b -> b <> a -> s (GPIO_FSEL (Z.quot a 10)) = w ->
  gpio_function
    (store (GPIO_FSEL (Z.quot a 10))
       (wrap32 (field_set (Z.rem a 10 * 3) 3 f (wrap32 w))) s) b
  = gpio_function s b.
Proof.
  intros Ha Hb Hba <-. unfold gpio_function.
  pose proof (pin_field_bounds a Ha) as [Ha1 Ha2].
  pose proof (pin_field_bounds b Hb) as [Hb1 Hb2].
  destruct (Z.eq_dec (Z.quot a 10) (Z.quot b 10)) as [Hq|Hq].
  - rewrite <- Hq, store_same.
    pose proof (pins_of_one_register a b Ha Hb ltac:(congruence) Hq).
    rewrite field_get_set_other by lia.
    apply field_get_wrap32; lia.
  - rewrite store_other by congruence. reflexivity.
Qed.

Lemma gpio_function_store r v (s : regs) b :
  (forall n, r <> GPIO_FSEL n) ->
  gpio_function (store r v s) b = gpio_function s b.
Proof.
  intros H. unfold gpio_function. rewrite store_other; [reflexivity|].
  apply H.
Qed.
End Board.

Section InitOnBoard.
Variable step : Z.
Hypothesis step_pos : 0 < step.
Hypothesis step_small : ST_1ms + step <= 2 ^ 32.

Ltac lookup :=
  repeat (rewrite store_same
          || (rewrite store_other
                by (let E := fresh in
                    intro E; vm_compute in E; discriminate E))).

Ltac pins :=
  repeat ((rewrite gpio_function_same by lia)
          || (rewrite gpio_function_other
                by (first [lia | lookup; reflexivity]))
          || (rewrite gpio_function_store by (intro; discriminate))).

(** Up to the store that disables the block, with what follows as [k]. *)
Lemma spisl_init_until_disable (s : regs) :
  raised RXD (wrap32 (s PCM_CS)) = false ->
  exists s4 : regs,
    (forall p, 0 <= p -> ~ 28 <= p <= 31 ->
               gpio_function s4 p = gpio_function s p) /\
    forall (n : nat) (k : M regs unit) b d2 t2,
      k s4 = Some (b, d2, t2) ->
      exists t,
        (gpio_configure (board step) 28 Input ;;
         gpio_configure (board step) 29 Input ;;
         gpio_configure (board step) 30 Input ;;
         gpio_configure (board step) 31 Input ;;
         memory_barrier ;;
         drain_rx (board step) (S n) ;;
         wr_field (board step) PCM_CS EN 0 ;;
         k) s = Some (b, d2, t).
Proof.
  intros Hidle. eexists. split.
  2: { intros n k b d2 t2 Hk. eexists.
       do 4 (eapply bind_run;
             [eapply gpio_configure_board_at; lookup; reflexivity|];
             cbv beta).
       eapply bind_run; [apply memory_barrier_run|]. cbv beta.
       eapply bind_run;
         [eapply drain_rx_board_idle; [lookup; reflexivity | exact Hidle]|].
       cbv beta.
       eapply bind_run;
         [eapply wr_field_board; [discriminate | lookup; reflexivity]|].
       cbv beta. exact Hk. }
  intros p Hp Hout. pins. reflexivity.
Qed.

(** From the settle delay to the end. *)
Lemma spisl_init_after_disable (s : regs) :
  exists k : nat,
    (1 <= k)%nat /\
    forall fuel, (k <= fuel)%nat ->
    exists s' t,
      (st_delay (board step) fuel ST_1ms ;;
       wr (board step) PCM_RXC 0 ;;
       wr (board step) PCM_TXC 0 ;;
       wr (board step) PCM_INTEN 0 ;;
       wr (board step) PCM_INTSTC 15 ;;
       wr (board step) PCM_GRAY 0 ;;
       wr_field (board step) PCM_RXC PCM_XC_reg.CH1WEX 0 ;;
       wr_field (board step) PCM_RXC PCM_XC_reg.CH1POS 0 ;;
       wr_field (board step) PCM_RXC PCM_XC_reg.CH1WID 0 ;;
       wr_field (board step) PCM_RXC PCM_XC_reg.CH1EN 1 ;;
       wr_field (board step) PCM_TXC PCM_XC_reg.CH1WEX 0 ;;
       wr_field (board step) PCM_TXC PCM_XC_reg.CH1POS 0 ;;
       wr_field (board step) PCM_TXC PCM_XC_reg.CH1WID 0 ;;
       wr_field (board step) PCM_TXC PCM_XC_reg.CH1EN 1 ;;
       wr (board step) (CM_DIV CM_PCM) pcm_cm_div ;;
       wr (board step) (CM_CTL CM_PCM) pcm_cm_ctl ;;
       wr (board step) PCM_MODE mode_master ;;
       wr_field (board step) PCM_MODE CLK_DIS 0 ;;
       wr (board step) PCM_CS init_cs ;;
       spin fuel (is_zero (rd_field (board step) PCM_CS SYNC)) ;;
       wr_field (board step) PCM_CS SYNC 0 ;;
       spin fuel (nonzero (rd_field (board step) PCM_CS SYNC)) ;;
       wr_field (board step) PCM_MODE CLK_DIS 1 ;;
       wr (board step) PCM_MODE mode_slave ;;
       memory_barrier ;;
       gpio_configure (board step) 28 Alt2 ;;
       gpio_configure (board step) 29 Alt2 ;;
       gpio_configure (board step) 30 Alt2 ;;
       gpio_configure (board step) 31 Alt2 ;;
       memory_barrier ;;
       wr_field (board step) PCM_MODE CLK_DIS 0 ;;
       memory_barrier) s = Some (tt, s', t) /\
      s' PCM_MODE = field_set (fst CLK_DIS) (snd CLK_DIS) 0 mode_slave /\
      s' PCM_CS = field_set (fst SYNC) (snd SYNC) 0 init_cs /\
      s' PCM_RXC = mk_reg [(PCM_XC_reg.CH1EN, 1)] /\
      s' PCM_TXC = mk_reg [(PCM_XC_reg.CH1EN, 1)] /\
      s' PCM_INTEN = 0 /\ s' PCM_INTSTC = 15 /\ s' PCM_GRAY = 0 /\
      s' (CM_DIV CM_PCM) = pcm_cm_div /\
      s' (CM_CTL CM_PCM) = pcm_cm_ctl /\
      (forall p, 28 <= p <= 31 -> gpio_function s' p = Alt2) /\
      (forall p, 0 <= p -> ~ 28 <= p <= 31 ->
                 gpio_function s' p = gpio_function s p).
Proof.
  destruct (st_delay_board step ST_1ms s step_pos ltac:(vm_compute; discriminate)
              step_small)
    as (k & sd & Hk & _ & _ & Hdelay & _ & Hother).
  exists k. split; [exact Hk|]. intros fuel Hfuel.
  destruct fuel as [|n]; [lia|].
  eexists _, _. split.
  - eapply bind_run; [apply Hdelay; exact Hfuel|]. cbv beta.
    do 5 (eapply bind_run; [apply wr_board|]; cbv beta).
    do 8 (eapply bind_run;
          [eapply wr_field_board; [discriminate | lookup; reflexivity]|];
          cbv beta).
    do 3 (eapply bind_run; [apply wr_board|]; cbv beta).
    eapply bind_run;
      [eapply wr_field_board; [discriminate | lookup; reflexivity]|].
    cbv beta.
    eapply bind_run; [apply wr_board|]. cbv beta.
    eapply bind_run;
      [eapply wait_raised_board;
       [discriminate | lookup; reflexivity | reflexivity]|].
    cbv beta.
    eapply bind_run;
      [eapply wr_field_board; [discriminate | lookup; reflexivity]|].
    cbv beta.
    eapply bind_run;
      [eapply wait_cleared_board;
       [discriminate | lookup; reflexivity | reflexivity]|].
    cbv beta.
    eapply bind_run;
      [eapply wr_field_board; [discriminate | lookup; reflexivity]|].
    cbv beta.
    eapply bind_run; [apply wr_board|]. cbv beta.
    eapply bind_run; [apply memory_barrier_run|]. cbv beta.
    do 4 (eapply bind_run;
          [eapply gpio_configure_board_at; lookup; reflexivity|];
          cbv beta).
    eapply bind_run; [apply memory_barrier_run|]. cbv beta.
    eapply bind_run;
      [eapply wr_field_board; [discriminate | lookup; reflexivity]|].
    cbv beta.
    apply memory_barrier_run.
  - split; [lookup; reflexivity|].
    split; [lookup; reflexivity|].
    split; [lookup; reflexivity|].
    split; [lookup; reflexivity|].
    split; [lookup; reflexivity|].
    split; [lookup; reflexivity|].
    split; [lookup; reflexivity|].
    split; [lookup; reflexivity|].
    split; [lookup; reflexivity|].
    assert (Hsd : forall p, gpio_function sd p = gpio_function s p).
    { intros p. unfold gpio_function. rewrite Hother by discriminate.
      reflexivity. }
    split.
    + intros p Hp.
      assert (Hcases : p = 28 \/ p = 29 \/ p = 30 \/ p = 31) by lia.
      destruct Hcases as [-> | [-> | [-> | ->]]]; pins; reflexivity.
    + intros p Hp Hout. pins. apply Hsd.
Qed.
End InitOnBoard.

(** X16 ([spisl_init], spisl.h): what the initialization leaves behind.
    On registers that hold what is written to them, with a timer that
    runs, and no received word announced at the start, [spisl_init]
    returns (for every loop bound from some bound on) with: the mode
    register in the slave configuration with the clock enabled; the
    control register as the reset sequence set it, the sync flag cleared
    again; both channel registers with channel 1 enabled at position 0
    and 8 bits wide, channel 2 off; the interrupts disabled and their
    status cleared; the PCM clock at the oscillator divided by 250; the
    pins 28 to 31 on their function Alt2; and the function of every other
    pin as it was. *)
Theorem spisl_init_leaves_slave_configuration (step : Z) (s : regs) :
  0 < step -> ST_1ms + step <= 2 ^ 32 ->
  raised RXD (wrap32 (s PCM_CS)) = false ->
  exists k : nat,
    forall fuel, (k <= fuel)%nat ->
    exists s' t,
      spisl_init (board step) fuel s = Some (tt, s', t) /\
      s' PCM_MODE = field_set (fst CLK_DIS) (snd CLK_DIS) 0 mode_slave /\
      s' PCM_CS = field_set (fst SYNC) (snd SYNC) 0 init_cs /\
      s' PCM_RXC = mk_reg [(PCM_XC_reg.CH1EN, 1)] /\
      s' PCM_TXC = mk_reg [(PCM_XC_reg.CH1EN, 1)] /\
      s' PCM_INTEN = 0 /\ s' PCM_INTSTC = 15 /\ s' PCM_GRAY = 0 /\
      s' (CM_DIV CM_PCM) = pcm_cm_div /\
      s' (CM_CTL CM_PCM) = pcm_cm_ctl /\
      (forall p, 28 <= p <= 31 -> gpio_function s' p = Alt2) /\
      (forall p, 0 <= p -> ~ 28 <= p <= 31 ->
                 gpio_function s' p = gpio_function s p).
Proof.
  intros Hstep Hsmall Hidle.
  destruct (spisl_init_until_disable step s Hidle) as (s4 & Hpins & Hpre).
  destruct (spisl_init_after_disable step Hstep Hsmall s4)
    as (k & Hk & Htail).
  exists k. intros fuel Hfuel.
  destruct (Htail fuel Hfuel)
    as (s' & t & Hrun & H1 & H2 & H3 & H4 & H5 & H6 & H7 & H8 & H9 &
        H10 & H11).
  destruct fuel as [|n]; [lia|].
  destruct (Hpre n _ _ _ _ Hrun) as (t' & Hfull).
  exists s', t'. split; [exact Hfull|].
  repeat (split; [assumption|]).
  intros p Hp Hout. rewrite H11 by assumption. apply Hpins; assumption.
Qed.

Lemma spisl_init_leaves_slave_configuration_witness :
  exists (k : nat) s' t,
    spisl_init (board 1) k (fun _ => 0) = Some (tt, s', t) /\
    s' PCM_MODE = field_set (fst CLK_DIS) (snd CLK_DIS) 0 mode_slave /\
    gpio_function s' 28 = Alt2 /\
    gpio_function s' 27 = 0.
Proof.
  assert (Hsmall : ST_1ms + 1 <= 2 ^ 32) by (vm_compute; discriminate).
  destruct (spisl_init_leaves_slave_configuration 1 (fun _ => 0)
              ltac:(lia) Hsmall ltac:(reflexivity)) as (k & H).
  destruct (H k (le_n k))
    as (s' & t & Hrun & H1 & _ & _ & _ & _ & _ & _ & _ & _ & H10 & H11).
  exists k, s', t. split; [exact Hrun|]. split; [exact H1|].
  split; [apply H10; lia|].
  rewrite H11 by lia. reflexivity.
Defined.
